(** * telegram-mail-bot: a shallow embedding of [main.py]

    The bot stores per-user mailbox settings in Redis, encrypts the mailbox
    credentials with Fernet, sends mail through smtplib and answers two
    administrative commands.  The embedding threads an explicit [world]
    (Redis database, process environment, entropy, SMTP peer, chat channel,
    file system, log and I/O trace) through an exception monad. *)

From Stdlib Require Import ZArith NArith Lia Ascii String DecimalString DecimalZ.
From stdpp Require Import base strings gmap list option.

Local Open Scope string_scope.
Local Open Scope Z_scope.
Local Open Scope list_scope.

(** ** Python runtime: bytes, text and integers

    A [bytes] value is a [string] (a sequence of 8-bit characters).  A [str]
    value is represented by its UTF-8 encoding, so [str.encode()] is the
    identity on representations and [bytes.decode()] succeeds exactly on
    well-formed UTF-8.  A [str] holding a lone surrogate has no UTF-8
    encoding and is not represented: the texts the bot handles reach it
    from chat messages, which are decoded from UTF-8. *)
Module Py.

Definition byte (c : ascii) : N := N_of_ascii c.

Definition between (lo hi : N) (c : ascii) : bool :=
  ((lo <=? byte c) && (byte c <=? hi))%N.

Definition continuation (c : ascii) : bool := between 128 191 c.

(** Well-formed UTF-8 byte sequences (Unicode, table 3-7). *)
Fixpoint utf8_valid (s : string) : bool :=
  match s with
  | EmptyString => true
  | String c0 r0 =>
    let b0 := byte c0 in
    if (b0 <? 128)%N then utf8_valid r0
    else if (b0 <? 194)%N then false
    else if (b0 <? 224)%N then
      match r0 with
      | String c1 r1 => continuation c1 && utf8_valid r1
      | _ => false
      end
    else if (b0 <? 240)%N then
      match r0 with
      | String c1 (String c2 r2) =>
        between (if (b0 =? 224)%N then 160 else 128)
                (if (b0 =? 237)%N then 159 else 191) c1
        && continuation c2 && utf8_valid r2
      | _ => false
      end
    else if (b0 <? 245)%N then
      match r0 with
      | String c1 (String c2 (String c3 r3)) =>
        between (if (b0 =? 240)%N then 144 else 128)
                (if (b0 =? 244)%N then 143 else 191) c1
        && continuation c2 && continuation c3 && utf8_valid r3
      | _ => false
      end
    else false
  end.

(** [b.decode()]: [None] stands for UnicodeDecodeError. *)
Definition decode (b : string) : option string :=
  if utf8_valid b then Some b else None.

(** [s.encode()], for the strs represented here: those that UTF-8 can
    encode, each standing as its encoding. *)
Definition encode (s : string) : string := s.

(** Truth value of a bytes or str object: non-empty. *)
Definition truthy (s : string) : bool :=
  match s with EmptyString => false | _ => true end.

(** [str(n)] for an int, as used by f-strings. *)
Definition str_of_int (z : Z) : string := NilZero.string_of_int (Z.to_int z).

Definition is_space (c : ascii) : bool :=
  let n := byte c in ((n =? 32) || ((9 <=? n) && (n <=? 13)))%N.

Fixpoint lstrip (s : string) : string :=
  match s with
  | String c r => if is_space c then lstrip r else s
  | EmptyString => EmptyString
  end.

Definition strip (s : string) : string :=
  String.rev (lstrip (String.rev (lstrip s))).

Definition digit (c : ascii) : option Z :=
  if between 48 57 c then Some (Z.of_N (byte c) - 48) else None.

(** Decimal digits, single underscores allowed between two digits. *)
Fixpoint digits (s : string) (acc : Z) (after_digit : bool) : option Z :=
  match s with
  | EmptyString => if after_digit then Some acc else None
  | String c r =>
    match digit c with
    | Some d => digits r (10 * acc + d) true
    | None =>
      if (byte c =? 95)%N && after_digit then digits r acc false else None
    end
  end.

(** The integer a bytes object [b] denotes in base 10, as [int(b)] parses
    it: [None] stands for ValueError (invalid literal).  The limit on the
    number of digits is applied where [int] is called, in [int_bytes]. *)
Definition int_of_bytes (b : string) : option Z :=
  match strip b with
  | String c r =>
    if (byte c =? 43)%N then digits r 0 false
    else if (byte c =? 45)%N then Z.opp <$> digits r 0 false
    else digits (String c r) 0 false
  | EmptyString => None
  end.

(** The digits of a literal; [int] refuses to convert more than
    [int_max_str_digits] of them (sys.int_info.default_max_str_digits). *)
Fixpoint count_digits (s : string) : N :=
  match s with
  | EmptyString => 0
  | String c r => (if between 48 57 c then 1 else 0) + count_digits r
  end%N.

Definition int_max_str_digits : N := 4300.

Definition hex_digit (n : N) : ascii :=
  ascii_of_N (if (n <? 10)%N then 48 + n else 87 + n).

(** [repr(b)] of a bytes object, which is what an f-string prints for it. *)
Definition quote_of (b : string) : ascii :=
  let has c := existsb (λ x, (byte x =? c)%N) (list_ascii_of_string b) in
  if has 39%N && negb (has 34%N) then ascii_of_N 34 else ascii_of_N 39.

Fixpoint repr_body (q : ascii) (b : string) : string :=
  match b with
  | EmptyString => EmptyString
  | String c r =>
    let n := byte c in
    let bs := ascii_of_N 92 in
    (if ((n =? byte q) || (n =? 92))%N then String bs (String c EmptyString)
     else if (n =? 9)%N then String bs "t"
     else if (n =? 10)%N then String bs "n"
     else if (n =? 13)%N then String bs "r"
     else if ((n <? 32) || (127 <=? n))%N then
       String bs (String "x" (String (hex_digit (n / 16))
                                     (String (hex_digit (n mod 16)) EmptyString)))
     else String c EmptyString) +:+ repr_body q r
  end.

Definition repr_bytes (b : string) : string :=
  let q := quote_of b in
  "b" +:+ String q (repr_body q b) +:+ String q EmptyString.

End Py.

(** ** Data exchanged with the outside world *)

(** A Redis value: a string or a hash (field map). *)
Inductive rvalue :=
| RString (s : string)
| RHash (h : gmap string string).

(** The Redis commands issued by [main.py]. *)
Inductive redis_cmd :=
| GET (key : string)
| SET (key value : string)
| INCR (key : string)
| HGETALL (key : string)
| HSET (key : string) (mapping : gmap string string)
| DEL (key : string)
| KEYS (pattern : string).

(** One element of [attachments]: a dict with keys 'filename' and 'content'. *)
Record file_info := { filename : string; content : string }.

(** Parts of the MIMEMultipart message: the MIMEText body (plain, utf-8) and
    application/octet-stream parts, base64 transfer-encoded, with a
    Content-Disposition header. *)
Inductive mime_part :=
| TextPart (body : string)
| OctetStreamPart (disposition : string) (payload : string).

Record message := {
  msg_subject : string;
  msg_from : option string;
  msg_to : string;
  msg_parts : list mime_part
}.

(** A Telethon NewMessage event. *)
Record event := { sender_id : Z; chat_id : Z }.

(** Calls that leave the process, in the order they are attempted. *)
Inductive io_event :=
| RedisCall (c : redis_cmd)
| SmtpConnect (host : string) (port : Z)
| SmtpStarttls
| SmtpLogin (user password : option string)
| SmtpSendMessage (msg : message)
| SmtpQuit
| ChatRespond (chat : Z) (text : string)
| ChatRespondFile (chat : Z) (data : string)
| FileOpen (path : string).

Definition is_smtp (e : io_event) : bool :=
  match e with
  | SmtpConnect _ _ | SmtpStarttls | SmtpLogin _ _ | SmtpSendMessage _ | SmtpQuit => true
  | _ => false
  end.

Inductive exn :=
| ConnectionError                 (* redis.exceptions.ConnectionError *)
| ResponseError (msg : string)    (* redis.exceptions.ResponseError *)
| DataError (msg : string)        (* redis.exceptions.DataError *)
| InvalidToken                    (* cryptography.fernet.InvalidToken *)
| ValueError (msg : string)
| UnicodeDecodeError
| PlainException (msg : string)   (* raise Exception(msg) *)
| SMTPException (failed : io_event)
| RPCError                        (* telethon.errors.RPCError *)
| FileNotFoundError (path : string).

(** [str(e)]. *)
Definition exn_str (e : exn) : string :=
  match e with
  | ConnectionError => "Error connecting to redis"
  | ResponseError m | DataError m | ValueError m | PlainException m => m
  | InvalidToken => ""
  | UnicodeDecodeError => "'utf-8' codec can't decode bytes"
  | SMTPException _ => "smtp failure"
  | RPCError => "rpc failure"
  | FileNotFoundError p => "[Errno 2] No such file or directory: '" +:+ p +:+ "'"
  end.

Inductive level := INFO | ERROR | CRITICAL.

(** ** The world a handler runs in *)
Record world := {
  redis : gmap string rvalue;        (* the Redis database *)
  redis_faults : list bool;          (* per call: does the connection fail? *)
  environ : gmap string string;      (* os.environ *)
  urandom : nat → string;            (* entropy source, successive draws *)
  drawn : nat;                       (* draws made so far *)
  smtp_peer : io_event → bool;       (* does the mail server accept this step? *)
  chat_faults : list bool;           (* per call: does the chat RPC fail? *)
  files : gmap string string;        (* file system, by path *)
  log : list (level * string);       (* records emitted through [logger] *)
  trace : list io_event              (* outward calls, oldest first *)
}.

Definition with_redis (db : gmap string rvalue) (w : world) : world :=
  {| redis := db; redis_faults := redis_faults w; environ := environ w;
     urandom := urandom w; drawn := drawn w; smtp_peer := smtp_peer w;
     chat_faults := chat_faults w; files := files w; log := log w;
     trace := trace w |}.

Definition with_redis_faults (fs : list bool) (w : world) : world :=
  {| redis := redis w; redis_faults := fs; environ := environ w;
     urandom := urandom w; drawn := drawn w; smtp_peer := smtp_peer w;
     chat_faults := chat_faults w; files := files w; log := log w;
     trace := trace w |}.

Definition with_environ (env : gmap string string) (w : world) : world :=
  {| redis := redis w; redis_faults := redis_faults w; environ := env;
     urandom := urandom w; drawn := drawn w; smtp_peer := smtp_peer w;
     chat_faults := chat_faults w; files := files w; log := log w;
     trace := trace w |}.

Definition with_drawn (n : nat) (w : world) : world :=
  {| redis := redis w; redis_faults := redis_faults w; environ := environ w;
     urandom := urandom w; drawn := n; smtp_peer := smtp_peer w;
     chat_faults := chat_faults w; files := files w; log := log w;
     trace := trace w |}.

Definition with_chat_faults (fs : list bool) (w : world) : world :=
  {| redis := redis w; redis_faults := redis_faults w; environ := environ w;
     urandom := urandom w; drawn := drawn w; smtp_peer := smtp_peer w;
     chat_faults := fs; files := files w; log := log w;
     trace := trace w |}.

Definition with_log (l : list (level * string)) (w : world) : world :=
  {| redis := redis w; redis_faults := redis_faults w; environ := environ w;
     urandom := urandom w; drawn := drawn w; smtp_peer := smtp_peer w;
     chat_faults := chat_faults w; files := files w; log := l;
     trace := trace w |}.

Definition with_trace (t : list io_event) (w : world) : world :=
  {| redis := redis w; redis_faults := redis_faults w; environ := environ w;
     urandom := urandom w; drawn := drawn w; smtp_peer := smtp_peer w;
     chat_faults := chat_faults w; files := files w; log := log w;
     trace := t |}.

(** ** Exceptions and state: the monad of handlers *)
Inductive result (A : Type) :=
| Ok (a : A)
| Raise (e : exn).
Arguments Ok {A} a.
Arguments Raise {A} e.

Definition M (A : Type) : Type := world → result A * world.

Global Instance M_ret : MRet M := λ A a w, (Ok a, w).

Global Instance M_bind : MBind M := λ A B f m w,
  match m w with
  | (Ok a, w') => f a w'
  | (Raise e, w') => (Raise e, w')
  end.

Definition raise {A} (e : exn) : M A := λ w, (Raise e, w).

(** [try: body  except Exception as e: handler e]. *)
Definition try_except {A} (body : M A) (handler : exn → M A) : M A := λ w,
  match body w with
  | (Raise e, w') => handler e w'
  | r => r
  end.

(** [try: body  except C as e: handler e] for the exception class [cls]. *)
Definition try_except_of {A} (cls : exn → bool) (body : M A)
    (handler : exn → M A) : M A := λ w,
  match body w with
  | (Raise e, w') => if cls e then handler e w' else (Raise e, w')
  | r => r
  end.

Definition is_InvalidToken (e : exn) : bool :=
  match e with InvalidToken => true | _ => false end.

Definition emit (e : io_event) : M unit := λ w,
  (Ok (), with_trace (trace w ++ [e]) w).

Definition logger (lvl : level) (text : string) : M unit := λ w,
  (Ok (), with_log (log w ++ [(lvl, text)]) w).

Definition getenv (name : string) : M (option string) := λ w,
  (Ok (environ w !! name), w).

(** Truth value of [x] where [x] is [None] or a bytes/str object. *)
Definition truthy_opt (x : option string) : bool :=
  match x with Some s => Py.truthy s | None => false end.

(** Pad with zero bytes or cut to exactly [n] bytes. *)
Fixpoint fit (n : nat) (s : string) : string :=
  match n with
  | O => EmptyString
  | S n' =>
    match s with
    | String c r => String c (fit n' r)
    | EmptyString => String zero (fit n' EmptyString)
    end
  end.

Arguments fit : simpl never.

(** [os.urandom(n)]. *)
Definition os_urandom (n : nat) : M string := λ w,
  (Ok (fit n (urandom w (drawn w))), with_drawn (S (drawn w)) w).

(** ** The Redis client ([redis_client])

    Every call is recorded in the trace and consumes one entry of the fault
    oracle; a faulty call raises ConnectionError without touching the
    database. *)
Module Redis.

Definition enter (c : redis_cmd) : M unit := λ w,
  let w' := with_redis_faults (tail (redis_faults w))
              (with_trace (trace w ++ [RedisCall c]) w) in
  match redis_faults w with
  | true :: _ => (Raise ConnectionError, w')
  | _ => (Ok (), w')
  end.

Definition db : M (gmap string rvalue) := λ w, (Ok (redis w), w).

Definition store (d : gmap string rvalue) : M unit := λ w,
  (Ok (), with_redis d w).

Definition wrongtype : exn :=
  ResponseError "WRONGTYPE Operation against a key holding the wrong kind of value".

Definition int64_min : Z := - 2 ^ 63.
Definition int64_max : Z := 2 ^ 63 - 1.

(** The integer a string value stands for: canonical decimal, 64-bit signed. *)
Definition int64_of_string (s : string) : option Z :=
  match NilZero.int_of_string s with
  | Some d =>
    let z := Z.of_int d in
    if (Py.str_of_int z =? s)%string && (int64_min <=? z) && (z <=? int64_max)
    then Some z else None
  | None => None
  end.

Definition get (key : string) : M (option string) :=
  enter (GET key);;
  d ← db;
  match d !! key with
  | None => mret None
  | Some (RString s) => mret (Some s)
  | Some (RHash _) => raise wrongtype
  end.

Definition set (key value : string) : M unit :=
  enter (SET key value);;
  d ← db;
  store (<[key := RString value]> d).

Definition incr (key : string) : M Z :=
  enter (INCR key);;
  d ← db;
  match d !! key with
  | None => store (<[key := RString "1"]> d);; mret 1
  | Some (RString s) =>
    match int64_of_string s with
    | Some z =>
      if z <? int64_max
      then store (<[key := RString (Py.str_of_int (z + 1))]> d);; mret (z + 1)
      else raise (ResponseError "increment or decrement would overflow")
    | None => raise (ResponseError "value is not an integer or out of range")
    end
  | Some (RHash _) => raise wrongtype
  end.

Definition hgetall (key : string) : M (gmap string string) :=
  enter (HGETALL key);;
  d ← db;
  match d !! key with
  | None => mret ∅
  | Some (RHash h) => mret h
  | Some (RString _) => raise wrongtype
  end.

(** [hset(key, mapping=mapping)]: redis-py refuses an empty mapping before
    sending anything. *)
Definition hset (key : string) (mapping : gmap string string) : M unit :=
  if decide (mapping = ∅)
  then raise (DataError "'hset' with no key value pairs")
  else
    enter (HSET key mapping);;
    d ← db;
    match d !! key with
    | None => store (<[key := RHash mapping]> d)
    | Some (RHash h) => store (<[key := RHash (mapping ∪ h)]> d)
    | Some (RString _) => raise wrongtype
    end.

Definition delete (key : string) : M unit :=
  enter (DEL key);;
  d ← db;
  store (base.delete key d).

(** Glob matching; [*] is the only wildcard the patterns of [main.py] use. *)
Fixpoint glob (p : string) : string → bool :=
  match p with
  | EmptyString => λ s, negb (Py.truthy s)
  | String c p' =>
    if (Py.byte c =? 42)%N then
      fix star (s : string) : bool :=
        glob p' s || match s with String _ s' => star s' | EmptyString => false end
    else λ s,
      match s with
      | String d s' => (Py.byte c =? Py.byte d)%N && glob p' s'
      | EmptyString => false
      end
  end.

Definition keys (pattern : string) : M (list string) :=
  enter (KEYS pattern);;
  d ← db;
  mret (filter (λ k, glob pattern k = true) (fst <$> map_to_list d)).

End Redis.

(** ** The Fernet interface ([cryptography.fernet])

    [new key] is the constructor [Fernet(key)] ([None]: ValueError, the key is
    not 32 url-safe base64-encoded bytes); [generate_key r] is the key
    [urlsafe_b64encode(r)] built from 32 random bytes [r]; [encrypt f nonce m]
    is the token for [m] (the nonce stands for the timestamp and the IV);
    [decrypt f tok] is [None] when InvalidToken is raised. *)
Class FernetLib := {
  fernet : Type;
  new : string → option fernet;
  generate_key : string → string;
  encrypt : fernet → string → string → string;
  decrypt : fernet → string → option string
}.

(** What the bot relies on: the contract of the library, for instances built
    by the constructor. *)
Class FernetLaws (L : FernetLib) : Prop := {
  new_empty : new "" = None;
  generate_key_ok : ∀ r, String.length r = 32%nat → is_Some (new (generate_key r));
  decrypt_encrypt : ∀ k f nonce m,
    new k = Some f → decrypt f (encrypt f nonce m) = Some m;
  token_text : ∀ k f nonce m,
    new k = Some f → Py.utf8_valid m = true →
    Py.utf8_valid (encrypt f nonce m) = true
}.

(** ** Library calls used by the handlers *)

Definition decode_bytes (b : string) : M string :=
  match Py.decode b with
  | Some s => mret s
  | None => raise UnicodeDecodeError
  end.

(** [int(b)] on a bytes object: a literal of more than 4300 digits is
    refused although it denotes an integer. *)
Definition int_bytes (b : string) : M Z :=
  match Py.int_of_bytes b with
  | Some z =>
    if (Py.int_max_str_digits <? Py.count_digits b)%N
    then raise (ValueError "Exceeds the limit (4300 digits) for integer string conversion")
    else mret z
  | None => raise (ValueError "invalid literal for int() with base 10")
  end.

(** A call on the chat channel (Telethon): recorded, then it may fail. *)
Definition chat_call (e : io_event) : M unit := λ w,
  let w' := with_chat_faults (tail (chat_faults w))
              (with_trace (trace w ++ [e]) w) in
  match chat_faults w with
  | true :: _ => (Raise RPCError, w')
  | _ => (Ok (), w')
  end.

(** [event.respond(text)] and [event.respond(file=f)]. *)
Definition respond (ev : event) (text : string) : M unit :=
  chat_call (ChatRespond (chat_id ev) text).

Definition respond_file (ev : event) (data : string) : M unit :=
  chat_call (ChatRespondFile (chat_id ev) data).

Definition listing : M (gmap string string) := λ w, (Ok (files w), w).

(** [open(path, 'rb')] followed by reading the file. *)
Definition open_rb (path : string) : M string :=
  emit (FileOpen path);;
  fs ← listing;
  match fs !! path with
  | Some data => mret data
  | None => raise (FileNotFoundError path)
  end.

(** One step of the SMTP dialogue: recorded, then the peer decides. *)
Definition smtp_step (e : io_event) : M unit := λ w,
  let w' := with_trace (trace w ++ [e]) w in
  if smtp_peer w e then (Ok (), w') else (Raise (SMTPException e), w').

(** [SMTP.__exit__]: leaving the block, normally or not, sends QUIT.  An
    answer other than 221 raises SMTPResponseException, which takes the place
    of an exception of the body; a server that is gone (SMTPServerDisconnected)
    is passed over like an answer.  The connection is closed in every case. *)
Definition exit_SMTP {A} (body : M A) : M A := λ w,
  let '(r, w1) := body w in
  match smtp_step SmtpQuit w1 with
  | (Ok _, w2) => (r, w2)
  | (Raise e, w2) => (Raise e, w2)
  end.

(** [with smtplib.SMTP(host, port) as server: body]: the constructor
    connects, and the block is left through [__exit__]. *)
Definition with_SMTP {A} (host : string) (port : Z) (body : M A) : M A :=
  smtp_step (SmtpConnect host port);;
  exit_SMTP body.

Definition nl : string := String (ascii_of_N 10) EmptyString.
Definition dquote : string := String (ascii_of_N 34) EmptyString.

(** The value of [x or 0] where [x] is [None] or bytes. *)
Inductive pyval :=
| PyBytes (b : string)
| PyInt (n : Z).

Definition or_zero (x : option string) : pyval :=
  match x with
  | Some b => if Py.truthy b then PyBytes b else PyInt 0
  | None => PyInt 0
  end.

(** How an f-string prints such a value. *)
Definition format_val (v : pyval) : string :=
  match v with
  | PyBytes b => Py.repr_bytes b
  | PyInt n => Py.str_of_int n
  end.

(** ** [main.py] *)

Definition MAX_ATTACHMENT_SIZE : Z := 20 * 1024 * 1024.
Definition LOG_FILE : string := "email_bot.log".

(** The dict returned by [get_user_config]. *)
Record user_config := {
  smtp_server : string;
  smtp_port : Z;
  imap_server : string;
  imap_port : Z;
  email : option string;
  password : option string;
  mode : string
}.

(** The Redis keys (lines 63 to 70). *)
Definition user_key (user_id : Z) : string :=
  "user:" +:+ Py.str_of_int user_id +:+ ":email_config".

Definition temp_data_key (user_id : Z) : string :=
  "temp:" +:+ Py.str_of_int user_id.

Definition stats_key : string := "bot:stats".

Section Bot.
Context {L : FernetLib}.

Definition new_Fernet (key : string) : M fernet :=
  match new key with
  | Some f => mret f
  | None => raise (ValueError "Fernet key must be 32 url-safe base64-encoded bytes.")
  end.

(** [setup_encryption] (lines 44 to 58). *)
Definition setup_encryption : M fernet :=
  try_except
    (key ← Redis.get "fernet_key";
     if truthy_opt key then new_Fernet (default "" key)
     else
       env ← getenv "ENCRYPTION_KEY";
       if truthy_opt env then new_Fernet (Py.encode (default "" env))
       else
         r ← os_urandom 32;
         let new_key := generate_key r in
         Redis.set "fernet_key" new_key;;
         new_Fernet new_key)
    (λ e, logger CRITICAL ("Encryption setup failed: " +:+ exn_str e);; raise e).

(** [cipher_suite = setup_encryption()], fixed for the life of the process. *)
Variable cipher_suite : fernet.

(** [encrypt_data] (lines 73 to 78).  The nonce drawn here stands for the
    IV and the timestamp that [Fernet.encrypt] puts into the token. *)
Definition encrypt_data (data : string) : M string :=
  try_except_of is_InvalidToken
    (nonce ← os_urandom 16;
     decode_bytes (encrypt cipher_suite nonce (Py.encode data)))
    (λ e, logger ERROR ("Encryption error: " +:+ exn_str e);; raise e).

(** [decrypt_data] (lines 80 to 85). *)
Definition decrypt_data (encrypted_data : string) : M string :=
  try_except_of is_InvalidToken
    (match decrypt cipher_suite encrypted_data with
     | Some data => decode_bytes data
     | None => raise InvalidToken
     end)
    (λ e, logger ERROR ("Decryption error: " +:+ exn_str e);; raise e).

(** [handle_error] (lines 87 to 90).  The log record carries [error_msg];
    the traceback appended to it is left out. *)
Definition handle_error (ev : option event) (error_msg : string)
    (user_msg : option string) : M unit :=
  logger ERROR error_msg;;
  match user_msg, ev with
  | Some m, Some e => if Py.truthy m then respond e ("❌ " +:+ m) else mret ()
  | _, _ => mret ()
  end.

(** [get_user_config] (lines 92 to 109).  The entries of the dict are
    evaluated in the order they are written. *)
Definition get_user_config (user_id : Z) : M (option user_config) :=
  try_except
    (config ← Redis.hgetall (user_key user_id);
     if decide (config = ∅) then mret None
     else
       smtp_server ← decode_bytes (default "" (config !! "smtp_server"));
       smtp_port ← from_option int_bytes (mret 0) (config !! "smtp_port");
       imap_server ← decode_bytes (default "" (config !! "imap_server"));
       imap_port ← from_option int_bytes (mret 0) (config !! "imap_port");
       email ←
         (if truthy_opt (config !! "email")
          then x ← decrypt_data (default "" (config !! "email")); mret (Some x)
          else mret None);
       password ←
         (if truthy_opt (config !! "password")
          then x ← decrypt_data (default "" (config !! "password")); mret (Some x)
          else mret None);
       mode ← decode_bytes (default "" (config !! "mode"));
       mret (Some {| smtp_server := smtp_server; smtp_port := smtp_port;
                     imap_server := imap_server; imap_port := imap_port;
                     email := email; password := password; mode := mode |}))
    (λ e,
       handle_error None
         ("Config error for " +:+ Py.str_of_int user_id +:+ ": " +:+ exn_str e)
         None;;
       mret None).

(** The PendingSetup helpers (lines 111 to 118). *)
Definition save_temp_data (user_id : Z) (data : gmap string string) : M unit :=
  Redis.hset (temp_data_key user_id) data.

Definition get_temp_data (user_id : Z) : M (gmap string string) :=
  Redis.hgetall (temp_data_key user_id).

Definition delete_temp_data (user_id : Z) : M unit :=
  Redis.delete (temp_data_key user_id).

(** [track_stat] (lines 120 to 124). *)
Definition track_stat (metric : string) : M unit :=
  try_except
    (_ ← Redis.incr (stats_key +:+ ":" +:+ metric); mret ())
    (λ e, logger ERROR ("Stat tracking error: " +:+ exn_str e)).

(** Reading a counter, the expression
    [redis_client.get(f'{stats_key()}:{metric}') or 0] of [users_handler]. *)
Definition read_stat (metric : string) : M pyval :=
  x ← Redis.get (stats_key +:+ ":" +:+ metric);
  mret (or_zero x).

(** The MIMEBase part built for one attachment. *)
Definition attachment_part (file_info : file_info) : mime_part :=
  OctetStreamPart
    ("attachment; filename=" +:+ dquote +:+ filename file_info +:+ dquote)
    (content file_info).

(** The message [msg] that [send_email] composes (lines 132 to 145). *)
Definition compose_message (config : user_config) (to subject body : string)
    (attachments : option (list file_info)) : message :=
  {| msg_subject := subject;
     msg_from := email config;
     msg_to := to;
     msg_parts :=
       TextPart body :: (attachment_part <$> default [] attachments) |}.

(** [send_email] (lines 127 to 151).  No line of it mentions
    [MAX_ATTACHMENT_SIZE]. *)
Definition send_email (user_id : Z) (to subject body : string)
    (attachments : option (list file_info)) : M unit :=
  config ← get_user_config user_id;
  match config with
  | None => raise (PlainException "SMTP not configured")
  | Some config =>
    if negb (Py.truthy (smtp_server config))
    then raise (PlainException "SMTP not configured")
    else
      let msg := compose_message config to subject body attachments in
      with_SMTP (smtp_server config) (smtp_port config)
        (smtp_step SmtpStarttls;;
         smtp_step (SmtpLogin (email config) (password config));;
         smtp_step (SmtpSendMessage msg));;
      track_stat "emails_sent"
  end.

(** [ADMIN_IDS], read from the environment when the module is loaded. *)
Variable ADMIN_IDS : list Z.

(** [logs_handler] (lines 173 to 185). *)
Definition logs_handler (ev : event) : M unit :=
  try_except
    (if negb (bool_decide (sender_id ev ∈ ADMIN_IDS))
     then respond ev "⛔ Unauthorized"
     else
       f ← open_rb LOG_FILE;
       respond_file ev f;;
       logger INFO ("Admin " +:+ Py.str_of_int (sender_id ev) +:+ " downloaded logs"))
    (λ e, handle_error (Some ev) ("Logs error: " +:+ exn_str e) None).

(** [users_handler] (lines 187 to 209). *)
Definition users_handler (ev : event) : M unit :=
  try_except
    (if negb (bool_decide (sender_id ev ∈ ADMIN_IDS))
     then respond ev "⛔ Unauthorized"
     else
       users ← Redis.keys "user:*:email_config";
       let total_users := Z.of_nat (length users) in
       active_today ← read_stat "users_active";
       emails_sent ← read_stat "emails_sent";
       respond ev
         ("📊 Bot Statistics:" +:+ nl +:+ nl +:+
          "• Total Users: " +:+ Py.str_of_int total_users +:+ nl +:+
          "• Emails Sent: " +:+ format_val emails_sent +:+ nl +:+
          "• Active Today: " +:+ format_val active_today))
    (λ e, handle_error (Some ev) ("Users stats error: " +:+ exn_str e) None).

End Bot.

(** ** The conversation state machine

    [main.py] offers the 'configure' button and the three PendingSetup
    helpers ([save_temp_data], [get_temp_data], [delete_temp_data]) but holds
    no handler that drives them. *)
Inductive conv_state :=
| Idle
| AwaitingSmtpServer
| AwaitingSmtpPort
| AwaitingImapServer
| AwaitingImapPort
| AwaitingEmail
| AwaitingPassword
| Committing.

Inductive input :=
| Configure
| Text (s : string)
| Cancel.

Inductive reply :=
| Prompt (next : conv_state)
| InputValidationError
| Configured
| Cancelled
| Ignored.

Section Conversation.
Context {L : FernetLib}.
Variable cipher_suite : fernet.

(** Modelled from the spec: the Config Store operation [put] (4.2), missing
    from main.py.  It encrypts [email] and [password] before writing and
    overwrites any prior config entirely; the record it writes is the one
    [get_user_config] reads, with [mode = configured]. *)
Definition put_user_config (user_id : Z)
    (smtp_server smtp_port imap_server imap_port email password : string)
    : M unit :=
  enc_email ← encrypt_data cipher_suite email;
  enc_password ← encrypt_data cipher_suite password;
  Redis.delete (user_key user_id);;
  Redis.hset (user_key user_id)
    (<["smtp_server" := smtp_server]> (<["smtp_port" := smtp_port]>
     (<["imap_server" := imap_server]> (<["imap_port" := imap_port]>
     (<["email" := enc_email]> (<["password" := enc_password]>
     (<["mode" := "configured"]> ∅))))))).

(** Modelled from the spec: the cursor of PendingSetup (3), missing from
    main.py: the field [step] of the draft names the field expected next;
    no draft means [Idle]. *)
Definition state_of (pending : gmap string string) : conv_state :=
  match pending !! "step" with
  | Some "smtp_server" => AwaitingSmtpServer
  | Some "smtp_port" => AwaitingSmtpPort
  | Some "imap_server" => AwaitingImapServer
  | Some "imap_port" => AwaitingImapPort
  | Some "email" => AwaitingEmail
  | Some "password" => AwaitingPassword
  | _ => Idle
  end.

Fixpoint all_digits (s : string) : bool :=
  match s with
  | EmptyString => true
  | String c r => Py.between 48 57 c && all_digits r
  end.

(** Modelled from the spec: port validation (4.3), missing from main.py:
    a port is accepted when it is a positive integer. *)
Definition valid_port (s : string) : bool :=
  Py.truthy s && all_digits s &&
  match Py.int_of_bytes s with Some z => 0 <? z | None => false end.

(** Accept [value] for [field] and move the cursor to [next]. *)
Definition advance (user_id : Z) (field value next : string) : M unit :=
  save_temp_data user_id (<[field := value]> (<["step" := next]> ∅)).

(** Modelled from the spec: the transitions of the Conversation State
    Machine (4.3), missing from main.py.  'configure' opens a fresh draft
    (silently replacing one in progress); each state accepts its one field;
    a bad port re-prompts and leaves the draft alone; the password completes
    the draft, which is committed through [put_user_config] and then
    deleted; a failure while committing propagates and leaves the draft in
    place; cancellation discards the draft. *)
Definition step (user_id : Z) (i : input) : M reply :=
  match i with
  | Configure =>
    delete_temp_data user_id;;
    save_temp_data user_id (<["step" := "smtp_server"]> ∅);;
    mret (Prompt AwaitingSmtpServer)
  | Cancel =>
    delete_temp_data user_id;;
    mret Cancelled
  | Text s =>
    pending ← get_temp_data user_id;
    match state_of pending with
    | Idle | Committing => mret Ignored
    | AwaitingSmtpServer =>
      advance user_id "smtp_server" s "smtp_port";;
      mret (Prompt AwaitingSmtpPort)
    | AwaitingSmtpPort =>
      if valid_port s
      then advance user_id "smtp_port" s "imap_server";;
           mret (Prompt AwaitingImapServer)
      else mret InputValidationError
    | AwaitingImapServer =>
      advance user_id "imap_server" s "imap_port";;
      mret (Prompt AwaitingImapPort)
    | AwaitingImapPort =>
      if valid_port s
      then advance user_id "imap_port" s "email";;
           mret (Prompt AwaitingEmail)
      else mret InputValidationError
    | AwaitingEmail =>
      advance user_id "email" s "password";;
      mret (Prompt AwaitingPassword)
    | AwaitingPassword =>
      put_user_config user_id
        (default "" (pending !! "smtp_server"))
        (default "" (pending !! "smtp_port"))
        (default "" (pending !! "imap_server"))
        (default "" (pending !! "imap_port"))
        (default "" (pending !! "email"))
        s;;
      delete_temp_data user_id;;
      mret Configured
    end
  end.

(** The state a user is in: read off the stored draft. *)
Definition current_state (user_id : Z) (w : world) : conv_state :=
  match redis w !! temp_data_key user_id with
  | Some (RHash pending) => state_of pending
  | _ => Idle
  end.

(** Feeding a sequence of inputs, one handler run per input. *)
Fixpoint drive (user_id : Z) (inputs : list input) : M (list reply) :=
  match inputs with
  | [] => mret []
  | i :: rest =>
    r ← step user_id i;
    rs ← drive user_id rest;
    mret (r :: rs)
  end.

End Conversation.

(** ** A reference instance of the Fernet interface

    Used to run the handlers on concrete worlds.  The key check keeps the
    length and the alphabet class of a real key, and the two halves of a key
    are kept apart as in Fernet: a token carries the signing half of its key
    (standing for the HMAC) followed by the message, each byte as the two
    characters of its half-bytes, in an order that one bit of the encryption
    half decides.  Opening checks the signing half and nothing else: a key with
    another signing half is refused, and a key that shares it and differs in
    the encryption half opens the token to other bytes, which Fernet does
    when the padding of the result happens to be valid. *)
Module RefFernet.

Fixpoint ascii_only (s : string) : bool :=
  match s with
  | EmptyString => true
  | String c r => (Py.byte c <? 128)%N && ascii_only r
  end.

Definition key_ok (k : string) : bool :=
  (String.length k =? 44)%nat && ascii_only k.

Definition new (k : string) : option string :=
  if key_ok k then Some k else None.

Fixpoint armor (r : string) : string :=
  match r with
  | EmptyString => EmptyString
  | String c r' => String (ascii_of_N (65 + Py.byte c mod 26)) (armor r')
  end.

Definition generate_key (r : string) : string := armor r +:+ "AAAAAAAAAAA=".

(** The first 22 characters of a key stand for its signing half. *)
Fixpoint prefix (n : nat) (s : string) : string :=
  match n, s with
  | S n', String c r => String c (prefix n' r)
  | _, _ => EmptyString
  end.

Definition signing (k : string) : string := prefix 22 k.

(** One bit of the encryption half, taken from its first character. *)
Definition sealing (k : string) : bool :=
  match String.get 22 k with
  | Some c => N.odd (Py.byte c)
  | None => false
  end.

(** A half-byte as one character of the range 0x60 to 0x6f. *)
Definition half (b0 b1 b2 b3 : bool) : ascii :=
  Ascii b0 b1 b2 b3 false true true false.

Definition pair_of (swap : bool) (c : ascii) : string :=
  let '(Ascii b0 b1 b2 b3 b4 b5 b6 b7) := c in
  let hi := half b4 b5 b6 b7 in
  let lo := half b0 b1 b2 b3 in
  if swap then String lo (String hi EmptyString)
  else String hi (String lo EmptyString).

Fixpoint seal (swap : bool) (m : string) : string :=
  match m with
  | EmptyString => EmptyString
  | String c r => pair_of swap c +:+ seal swap r
  end.

Definition byte_of (swap : bool) (x y : ascii) : option ascii :=
  match x, y with
  | Ascii x0 x1 x2 x3 false true true false,
    Ascii y0 y1 y2 y3 false true true false =>
    Some (if swap then Ascii x0 x1 x2 x3 y0 y1 y2 y3
          else Ascii y0 y1 y2 y3 x0 x1 x2 x3)
  | _, _ => None
  end.

Fixpoint unseal (swap : bool) (t : string) : option string :=
  match t with
  | EmptyString => Some EmptyString
  | String x (String y r) =>
    match byte_of swap x y, unseal swap r with
    | Some c, Some m => Some (String c m)
    | _, _ => None
    end
  | String _ EmptyString => None
  end.

Definition encrypt (f nonce m : string) : string :=
  signing f +:+ seal (sealing f) m.

Fixpoint strip_prefix (p s : string) : option string :=
  match p with
  | EmptyString => Some s
  | String c p' =>
    match s with
    | String d s' => if Ascii.eqb c d then strip_prefix p' s' else None
    | EmptyString => None
    end
  end.

Definition decrypt (f tok : string) : option string :=
  match strip_prefix (signing f) tok with
  | Some sealed => unseal (sealing f) sealed
  | None => None
  end.

Definition lib : FernetLib :=
  Build_FernetLib string new generate_key encrypt decrypt.

End RefFernet.

(** ** Concrete worlds *)
Module Scenario.

Definition key_a : string := "kAkAkAkAkAkAkAkAkAkAkAkAkAkAkAkAkAkAkAkAkAk=".
Definition key_b : string := "kBkBkBkBkBkBkBkBkBkBkBkBkBkBkBkBkBkBkBkBkBk=".


(** An empty database, no faults, a mail server that accepts everything. *)
Definition quiet : world :=
  {| redis := ∅; redis_faults := []; environ := ∅;
     urandom := λ _, EmptyString; drawn := 0;
     smtp_peer := λ _, true; chat_faults := [];
     files := ∅; log := []; trace := [] |}.

Definition record (email_token password_token mode : string)
    : gmap string string :=
  <["smtp_server" := "smtp.example.com"]> (<["smtp_port" := "587"]>
  (<["imap_server" := "imap.example.com"]> (<["imap_port" := "993"]>
  (<["email" := email_token]> (<["password" := password_token]>
  (<["mode" := mode]> ∅)))))).

(** User 42 configured under [key_a]. *)
Definition configured : world :=
  with_redis
    (<[user_key 42 :=
         RHash (record (RefFernet.encrypt key_a "" "a@example.com")
                       (RefFernet.encrypt key_a "" "secret")
                       "configured")]> ∅)
    quiet.

(** The same record with its completeness marker left empty. *)
Definition unmarked : world :=
  with_redis
    (<[user_key 42 :=
         RHash (record (RefFernet.encrypt key_a "" "a@example.com")
                       (RefFernet.encrypt key_a "" "secret")
                       "")]> ∅)
    quiet.

(** The stored email is not a token at all. *)
Definition malformed : world :=
  with_redis
    (<[user_key 42 :=
         RHash (record "garbage" (RefFernet.encrypt key_a "" "secret")
                       "configured")]> ∅)
    quiet.

(** The stored password was sealed under another key. *)
Definition foreign : world :=
  with_redis
    (<[user_key 42 :=
         RHash (record (RefFernet.encrypt key_a "" "a@example.com")
                       (RefFernet.encrypt key_b "" "secret")
                       "configured")]> ∅)
    quiet.

(** Redis answers the first call and drops the connection on the second. *)
Definition flaky : world := with_redis_faults [false; true] configured.

(** The process environment carries a key; the database holds none. *)
Definition with_env_key : world :=
  with_environ (<["ENCRYPTION_KEY" := key_a]> ∅) quiet.

(** One attachment of 20 MiB + 1 byte (of zeros). *)
Definition oversized : file_info :=
  {| filename := "a.bin";
     content := fit (Z.to_nat (MAX_ATTACHMENT_SIZE + 1)) EmptyString |}.

Definition admins : list Z := [1001; 1002].

Definition stranger : event := {| sender_id := 42; chat_id := 42 |}.

Definition six_inputs : list input :=
  [Configure; Text "smtp.example.com"; Text "587"; Text "imap.example.com";
   Text "993"; Text "a@example.com"; Text "secret"].

End Scenario.

(** ** Notions used to state and prove the properties *)

(** The world after a Redis call was issued. *)
Definition entered (c : redis_cmd) (w : world) : world :=
  with_redis_faults (tail (redis_faults w))
    (with_trace (trace w ++ [RedisCall c]) w).

(** The next Redis call fails. *)
Definition faulty (w : world) : bool :=
  match redis_faults w with true :: _ => true | _ => false end.

(** No Redis call fails from here on. *)
Definition reliable (w : world) : Prop := ∀ b, b ∈ redis_faults w → b = false.

(** Nothing but the log differs. *)
Definition log_only (w w' : world) : Prop := w' = with_log (log w') w.

Section Preserves.
Variable R : relation world.

(** Running [m] relates the world before to the world after. *)
Definition preserves {A} (m : M A) : Prop := ∀ w, R w (snd (m w)).

End Preserves.

(** The key of a counter. *)
Definition stat (metric : string) : string := stats_key +:+ ":" +:+ metric.

(** The integer a counter key stands for: a missing key counts as 0. *)
Definition counter (db : gmap string rvalue) (key : string) : option Z :=
  match db !! key with
  | None => Some 0
  | Some (RString s) => Redis.int64_of_string s
  | Some (RHash _) => None
  end.

(** Bytes of attachment content handed to [send_email]. *)
Definition total_size (attachments : option (list file_info)) : Z :=
  foldr (λ f acc, Z.of_nat (String.length (content f)) + acc) 0
        (default [] attachments).

(** Where [setup_encryption] takes its key from. *)
Inductive key_source :=
| Persisted (key : string)
| Environment (key : string)
| Generated
| Unavailable (e : exn).

Definition env_source (w : world) : key_source :=
  match environ w !! "ENCRYPTION_KEY" with
  | Some k => if Py.truthy k then Environment k else Generated
  | None => Generated
  end.

Definition key_source_of (w : world) : key_source :=
  if faulty w then Unavailable ConnectionError
  else match redis w !! "fernet_key" with
       | Some (RHash _) => Unavailable Redis.wrongtype
       | Some (RString k) => if Py.truthy k then Persisted k else env_source w
       | None => env_source w
       end.

(** The draft of a user in [w]. *)
Definition draft (user_id : Z) (w : world) : option (gmap string string) :=
  match redis w !! temp_data_key user_id with
  | Some (RHash h) => Some h
  | _ => None
  end.

(** The fields an accepted input adds to the draft. *)
Definition accepted (field value next : string) : gmap string string :=
  <[field := value]> (<["step" := next]> ∅).

(** The transitions that accept a field: cursor, next cursor, next state,
    and whether the field is a port. *)
Definition transitions : list (string * string * conv_state * bool) :=
  [("smtp_server", "smtp_port", AwaitingSmtpPort, false);
   ("smtp_port", "imap_server", AwaitingImapServer, true);
   ("imap_server", "imap_port", AwaitingImapPort, false);
   ("imap_port", "email", AwaitingEmail, true);
   ("email", "password", AwaitingPassword, false)].

(** The record [put_user_config] writes. *)
Definition committed (smtp_server smtp_port imap_server imap_port
    enc_email enc_password : string) : gmap string string :=
  <["smtp_server" := smtp_server]> (<["smtp_port" := smtp_port]>
  (<["imap_server" := imap_server]> (<["imap_port" := imap_port]>
  (<["email" := enc_email]> (<["password" := enc_password]>
  (<["mode" := "configured"]> ∅)))))).

Section Notions.
Context {L : FernetLib}.

(** The key a fresh generation would produce in [w]. *)
Definition fresh_key (w : world) : string :=
  generate_key (fit 32 (urandom w (drawn w))).

(** The world after [n] further calls of [setup_encryption]. *)
Fixpoint after_calls (n : nat) (w : world) : world :=
  match n with
  | O => w
  | S n' => after_calls n' (snd (setup_encryption w))
  end.

(** The key [f] is established in [w]: a call that reaches Redis finds the
    bytes of [f] in the database or in the environment. *)
Definition settled (f : fernet) (w : world) : Prop :=
  ∃ k, new k = Some f ∧
    ∀ w', redis w' = redis w → environ w' = environ w → faulty w' = false →
      key_source_of w' = Persisted k ∨ key_source_of w' = Environment k.

Variable cipher_suite : fernet.

(** The part of [get_user_config] that builds the dict from a non-empty
    hash. *)
Definition read_config (config : gmap string string) : M (option user_config) :=
  smtp_server ← decode_bytes (default "" (config !! "smtp_server"));
  smtp_port ← from_option int_bytes (mret 0) (config !! "smtp_port");
  imap_server ← decode_bytes (default "" (config !! "imap_server"));
  imap_port ← from_option int_bytes (mret 0) (config !! "imap_port");
  email ←
    (if truthy_opt (config !! "email")
     then x ← decrypt_data cipher_suite (default "" (config !! "email")); mret (Some x)
     else mret None);
  password ←
    (if truthy_opt (config !! "password")
     then x ← decrypt_data cipher_suite (default "" (config !! "password")); mret (Some x)
     else mret None);
  mode ← decode_bytes (default "" (config !! "mode"));
  mret (Some {| smtp_server := smtp_server; smtp_port := smtp_port;
                imap_server := imap_server; imap_port := imap_port;
                email := email; password := password; mode := mode |}).

(** A stored credential is absent, or it opens under [cipher_suite] to
    [plain]. *)
Definition opens (field : option string) (plain : option string) : Prop :=
  if truthy_opt field
  then ∃ data, decrypt cipher_suite (default "" field) = Some data ∧ plain = Some data
  else plain = None.

End Notions.

(** The SMTP dialogue of [send_email]. *)
Definition dialogue (host : string) (port : Z) (user pass : option string)
    (msg : message) : M unit :=
  with_SMTP host port
    (smtp_step SmtpStarttls;;
     smtp_step (SmtpLogin user pass);;
     smtp_step (SmtpSendMessage msg)).

(** ** Further notions *)

(** The number of keys the pattern of [users_handler] selects. *)
Definition count_users (db : gmap string rvalue) : nat :=
  length (filter (λ k, Redis.glob "user:*:email_config" k = true)
                 (fst <$> map_to_list db)).

(** [n] successive calls of [track_stat]. *)
Fixpoint track_stats (n : nat) (metric : string) : M unit :=
  match n with
  | O => mret ()
  | S n' => track_stat metric;; track_stats n' metric
  end.

(** The value of [int(config.get(field, 0))]: [None] stands for
    ValueError. *)
Definition port_of (x : option string) : option Z :=
  match x with
  | Some b =>
    if (Py.int_max_str_digits <? Py.count_digits b)%N then None
    else Py.int_of_bytes b
  | None => Some 0
  end.

(** The four fields of a record that are read before its credentials
    decode. *)
Definition settings_readable (h : gmap string string) : Prop :=
  Py.utf8_valid (default "" (h !! "smtp_server")) = true ∧
  is_Some (port_of (h !! "smtp_port")) ∧
  Py.utf8_valid (default "" (h !! "imap_server")) = true ∧
  is_Some (port_of (h !! "imap_port")).

(** The records logged when [get_user_config] catches [e]: the one of
    [decrypt_data] for an InvalidToken, then its own. *)
Definition caught (user_id : Z) (e : exn) : list (level * string) :=
  (if is_InvalidToken e then [(ERROR, "Decryption error: " +:+ exn_str e)] else []) ++
  [(ERROR, "Config error for " +:+ Py.str_of_int user_id +:+ ": " +:+ exn_str e)].

Section MoreNotions.
Context {L : FernetLib}.
Variable cipher_suite : fernet.

(** The dict [c] is what [get_user_config] reads from the hash [h]. *)
Definition read_from (h : gmap string string) (c : user_config) : Prop :=
  smtp_server c = default "" (h !! "smtp_server") ∧
  port_of (h !! "smtp_port") = Some (smtp_port c) ∧
  imap_server c = default "" (h !! "imap_server") ∧
  port_of (h !! "imap_port") = Some (imap_port c) ∧
  opens cipher_suite (h !! "email") (email c) ∧
  opens cipher_suite (h !! "password") (password c) ∧
  mode c = default "" (h !! "mode").

(** The hash [h] reads as the dict [c]: every field decodes. *)
Definition readable (h : gmap string string) (c : user_config) : Prop :=
  read_from h c ∧
  Py.utf8_valid (smtp_server c) = true ∧ Py.utf8_valid (imap_server c) = true ∧
  Py.utf8_valid (mode c) = true ∧
  (∀ data, email c = Some data → Py.utf8_valid data = true) ∧
  (∀ data, password c = Some data → Py.utf8_valid data = true).

(** The user has a record in [w] that reads as [c]: what [get_user_config]
    returns a dict for. *)
Definition config_in (user_id : Z) (w : world) (c : user_config) : Prop :=
  faulty w = false ∧
  ∃ h, redis w !! user_key user_id = Some (RHash h) ∧ h ≠ ∅ ∧ readable h c.

(** A stored credential does not open under [cipher_suite]. *)
Definition sealed_otherwise (field : option string) : Prop :=
  truthy_opt field = true ∧ decrypt cipher_suite (default "" field) = None.

(** A stored credential is absent or opens to text. *)
Definition credential_readable (field : option string) : Prop :=
  ∃ plain, opens cipher_suite field plain ∧
    ∀ data, plain = Some data → Py.utf8_valid data = true.

End MoreNotions.

(** The calls [send_email] has issued since [w]. *)
Definition issued (w w' : world) : list io_event :=
  drop (length (trace w)) (trace w').

(** The next chat call fails. *)
Definition chat_faulty (w : world) : bool :=
  match chat_faults w with true :: _ => true | _ => false end.

(** The world after a chat call was issued. *)
Definition chatted (e : io_event) (w : world) : world :=
  with_chat_faults (tail (chat_faults w)) (with_trace (trace w ++ [e]) w).

(** Bytes that [repr] prints as they are between single quotes. *)
Fixpoint plain (s : string) : bool :=
  match s with
  | EmptyString => true
  | String c r =>
    let n := Py.byte c in
    (32 <=? n)%N && (n <? 127)%N && negb (n =? 39)%N && negb (n =? 92)%N && plain r
  end.

(** How [users_handler] prints a counter that holds [x]. *)
Definition shown (x : option Z) : string :=
  match x with
  | Some n => "b'" +:+ Py.str_of_int n +:+ "'"
  | None => "0"
  end.

(** Running from [w] to [w'] left the database, the environment and the
    entropy source alone, and issued only calls that satisfy [P]. *)
Definition observes (P : io_event → Prop) : relation world := λ w w',
  redis w' = redis w ∧ environ w' = environ w ∧ drawn w' = drawn w ∧
  ∃ evs, trace w' = trace w ++ evs ∧ Forall P evs.

(** The calls of a handler that only reads Redis and answers on the chat. *)
Definition reads_and_answers (e : io_event) : Prop :=
  match e with
  | RedisCall (GET _) | RedisCall (KEYS _) | ChatRespond _ _ => True
  | _ => False
  end.

(** The calls of a handler that only reads a file and answers on the chat. *)
Definition opens_and_answers (e : io_event) : Prop :=
  match e with
  | FileOpen _ | ChatRespond _ _ | ChatRespondFile _ _ => True
  | _ => False
  end.

(** Running from [w] to [w'] changed no user record and not their number. *)
Definition keeps_users : relation world := λ w w',
  (∀ u, redis w' !! user_key u = redis w !! user_key u) ∧
  count_users (redis w') = count_users (redis w).

(** ** Further concrete worlds *)
Module Cases.

(** The database holds [k] under 'fernet_key' and nothing else. *)
Definition stored_key (k : string) : world :=
  with_redis (<["fernet_key" := RString k]> ∅) Scenario.quiet.

(** The record of user 42 carries a port that is no number. *)
Definition bad_port : world :=
  with_redis
    (<[user_key 42 :=
         RHash (<["smtp_server" := "smtp.example.com"]>
                (<["smtp_port" := "smtp"]> ∅))]> ∅)
    Scenario.quiet.

(** What [get_user_config] returns for user 42 in [Scenario.configured]. *)
Definition profile : user_config :=
  {| smtp_server := "smtp.example.com"; smtp_port := 587;
     imap_server := "imap.example.com"; imap_port := 993;
     email := Some "a@example.com"; password := Some "secret";
     mode := "configured" |}.

Definition admin : event := {| sender_id := 1001; chat_id := 7 |}.

(** The log file exists. *)
Definition with_log_file : world :=
  {| redis := ∅; redis_faults := []; environ := ∅;
     urandom := λ _, EmptyString; drawn := 0;
     smtp_peer := λ _, true; chat_faults := [];
     files := <[LOG_FILE := "started"]> ∅; log := []; trace := [] |}.

(** Seventeen mails were counted; nobody was counted as active. *)
Definition counted : world :=
  with_redis (<[stat "emails_sent" := RString "17"]> ∅) Scenario.quiet.

End Cases.

(** * Properties *)

(** ** The Python runtime on small inputs *)

Example utf8_ascii : Py.utf8_valid "a@example.com" = true.
Proof. reflexivity. Qed.

Example utf8_lone_continuation :
  Py.utf8_valid (String (ascii_of_N 128) EmptyString) = false.
Proof. reflexivity. Qed.

Example utf8_no_entry : Py.utf8_valid "⛔ Unauthorized" = true.
Proof. reflexivity. Qed.

Example int_of_bytes_port : Py.int_of_bytes "587" = Some 587.
Proof. reflexivity. Qed.

Example int_of_bytes_padded : Py.int_of_bytes " -1_000 " = Some (-1000).
Proof. reflexivity. Qed.

Example int_of_bytes_word : Py.int_of_bytes "smtp" = None.
Proof. reflexivity. Qed.

Example repr_bytes_counter : Py.repr_bytes "17" = "b'17'".
Proof. reflexivity. Qed.

Example glob_user_key : Redis.glob "user:*:email_config" (user_key 42) = true.
Proof. reflexivity. Qed.

Example glob_temp_key : Redis.glob "user:*:email_config" (temp_data_key 42) = false.
Proof. reflexivity. Qed.

Lemma truthy_nonempty s : s ≠ "" → Py.truthy s = true.
Proof. by destruct s. Qed.

Lemma fit_cons n c r : fit (S n) (String c r) = String c (fit n r).
Proof. reflexivity. Qed.

Lemma fit_nil n : fit (S n) EmptyString = String zero (fit n EmptyString).
Proof. reflexivity. Qed.

Lemma length_fit n s : String.length (fit n s) = n.
Proof.
  revert s. induction n as [|n IH]; intros s; [reflexivity|].
  destruct s; rewrite ?fit_cons, ?fit_nil; simpl; by rewrite IH.
Qed.

Lemma utf8_valid_ascii_cons c s :
  (Py.byte c <? 128)%N = true → Py.utf8_valid (String c s) = Py.utf8_valid s.
Proof. intros Hc. simpl. by rewrite Hc. Qed.

(** Decimal strings and 64-bit counters. *)
Lemma to_int_proper z :
  Z.to_int z ≠ Decimal.Pos Decimal.Nil ∧ Z.to_int z ≠ Decimal.Neg Decimal.Nil.
Proof.
  destruct z as [|p|p]; simpl; split; try discriminate;
    intros [= H]; exact (DecimalPos.Unsigned.to_uint_nonnil p H).
Qed.

Lemma int64_of_string_str z :
  Redis.int64_min ≤ z ≤ Redis.int64_max →
  Redis.int64_of_string (Py.str_of_int z) = Some z.
Proof.
  intros [Hlo Hhi]. unfold Redis.int64_of_string, Py.str_of_int.
  destruct (to_int_proper z) as [H1 H2].
  rewrite NilZero.isi by assumption.
  rewrite DecimalZ.of_to, String.eqb_refl. simpl.
  apply Z.leb_le in Hlo, Hhi. rewrite Hlo, Hhi. reflexivity.
Qed.

Lemma int64_of_string_inv s z :
  Redis.int64_of_string s = Some z →
  s = Py.str_of_int z ∧ Redis.int64_min ≤ z ≤ Redis.int64_max.
Proof.
  unfold Redis.int64_of_string.
  destruct (NilZero.int_of_string s) as [d|]; [|done].
  destruct (String.eqb_spec (Py.str_of_int (Z.of_int d)) s) as [Hs|]; [|done].
  simpl.
  destruct (Z.leb_spec Redis.int64_min (Z.of_int d)); [|done].
  destruct (Z.leb_spec (Z.of_int d) Redis.int64_max); [|done].
  simpl. intros [= <-]. auto.
Qed.

(** ** Running handlers *)

Lemma bind_unfold {A B} (m : M A) (f : A → M B) w :
  (m ≫= f) w =
  match m w with
  | (Ok a, w') => f a w'
  | (Raise e, w') => (Raise e, w')
  end.
Proof. reflexivity. Qed.

Lemma bind_ok_inv {A B} (m : M A) (f : A → M B) w b :
  fst ((m ≫= f) w) = Ok b →
  ∃ a w1, m w = (Ok a, w1) ∧ fst (f a w1) = Ok b.
Proof.
  rewrite bind_unfold. destruct (m w) as [[a|e] w1]; [|done].
  intros H. by exists a, w1.
Qed.

Lemma try_except_unfold {A} (body : M A) handler w :
  try_except body handler w =
  match body w with
  | (Raise e, w') => handler e w'
  | r => r
  end.
Proof. reflexivity. Qed.

Ltac norm_trace :=
  unfold with_trace; simpl; rewrite <- ?app_assoc; reflexivity.

(** ** Frames *)
Section PreservesFacts.
Variable R : relation world.
Context `{!PreOrder R}.

Lemma preserves_ret {A} (a : A) : preserves R (mret a).
Proof. intros w. simpl. reflexivity. Qed.

Lemma preserves_raise {A} e : preserves R (@raise A e).
Proof. intros w. simpl. reflexivity. Qed.

Lemma preserves_bind {A B} (m : M A) (f : A → M B) :
  preserves R m → (∀ a, preserves R (f a)) → preserves R (m ≫= f).
Proof.
  intros Hm Hf w. rewrite bind_unfold.
  specialize (Hm w). destruct (m w) as [[a|e] w1]; simpl in *; [|done].
  etrans; [exact Hm|apply Hf].
Qed.

Lemma preserves_try_except {A} (m : M A) h :
  preserves R m → (∀ e, preserves R (h e)) → preserves R (try_except m h).
Proof.
  intros Hm Hh w. rewrite try_except_unfold.
  specialize (Hm w). destruct (m w) as [[a|e] w1]; simpl in *; [done|].
  etrans; [exact Hm|apply Hh].
Qed.

Lemma preserves_try_except_of {A} cls (m : M A) h :
  preserves R m → (∀ e, preserves R (h e)) → preserves R (try_except_of cls m h).
Proof.
  intros Hm Hh w. unfold try_except_of.
  specialize (Hm w). destruct (m w) as [[a|e] w1]; simpl in *; [done|].
  destruct (cls e); simpl; [|done].
  etrans; [exact Hm|apply Hh].
Qed.

End PreservesFacts.

Global Instance log_only_preorder : PreOrder log_only.
Proof.
  split.
  - intros []. reflexivity.
  - intros w1 w2 w3 H12 H23. unfold log_only in *.
    rewrite H23 at 1. rewrite H12 at 1. reflexivity.
Qed.

Lemma log_only_with_log l w : log_only w (with_log l w).
Proof. destruct w; reflexivity. Qed.

Lemma log_only_redis w w' : log_only w w' → redis w' = redis w.
Proof. intros ->. reflexivity. Qed.

Lemma log_only_trace w w' : log_only w w' → trace w' = trace w.
Proof. intros ->. reflexivity. Qed.

Lemma preserves_logger lvl text : preserves log_only (logger lvl text).
Proof. intros w. apply log_only_with_log. Qed.

Lemma preserves_decode_bytes b : preserves log_only (decode_bytes b).
Proof.
  unfold decode_bytes. destruct (Py.decode b);
    [apply preserves_ret|apply preserves_raise]; apply _.
Qed.

Lemma preserves_int_bytes b : preserves log_only (int_bytes b).
Proof.
  unfold int_bytes. destruct (Py.int_of_bytes b); [destruct (_ <? _)%N|];
    (apply preserves_ret || apply preserves_raise); apply _.
Qed.

Lemma reliable_faulty w : reliable w → faulty w = false.
Proof.
  unfold reliable, faulty. intros H.
  destruct (redis_faults w) as [|[] fs]; try reflexivity.
  discriminate (H true). apply list_elem_of_here.
Qed.

Lemma reliable_entered c w : reliable w → reliable (entered c w).
Proof.
  unfold reliable. simpl. intros H b Hb. apply H.
  destruct (redis_faults w); [done|]. simpl in Hb. by apply list_elem_of_further.
Qed.

Lemma reliable_with_redis d w : reliable w → reliable (with_redis d w).
Proof. done. Qed.

Lemma reliable_with_drawn n w : reliable w → reliable (with_drawn n w).
Proof. done. Qed.

Create HintDb world.
#[global] Hint Resolve reliable_entered reliable_with_redis reliable_with_drawn : world.

(** ** The Redis client, call by call *)

Lemma enter_unfold c w :
  Redis.enter c w =
  (if faulty w then Raise ConnectionError else Ok (), entered c w).
Proof.
  unfold Redis.enter, faulty, entered.
  destruct (redis_faults w) as [|[] ?]; reflexivity.
Qed.

Lemma get_unfold key w :
  Redis.get key w =
  (if faulty w then Raise ConnectionError
   else match redis w !! key with
        | None => Ok None
        | Some (RString s) => Ok (Some s)
        | Some (RHash _) => Raise Redis.wrongtype
        end,
   entered (GET key) w).
Proof.
  unfold Redis.get. rewrite bind_unfold, enter_unfold.
  destruct (faulty w); [reflexivity|].
  rewrite bind_unfold. simpl.
  destruct (redis w !! key) as [[s|h]|]; reflexivity.
Qed.

Lemma set_unfold key value w :
  Redis.set key value w =
  if faulty w then (Raise ConnectionError, entered (SET key value) w)
  else (Ok (), with_redis (<[key := RString value]> (redis w))
                 (entered (SET key value) w)).
Proof.
  unfold Redis.set. rewrite bind_unfold, enter_unfold.
  destruct (faulty w); reflexivity.
Qed.

Lemma hgetall_unfold key w :
  Redis.hgetall key w =
  (if faulty w then Raise ConnectionError
   else match redis w !! key with
        | None => Ok ∅
        | Some (RHash h) => Ok h
        | Some (RString _) => Raise Redis.wrongtype
        end,
   entered (HGETALL key) w).
Proof.
  unfold Redis.hgetall. rewrite bind_unfold, enter_unfold.
  destruct (faulty w); [reflexivity|].
  rewrite bind_unfold. simpl.
  destruct (redis w !! key) as [[s|h]|]; reflexivity.
Qed.

Lemma hset_unfold key mapping w :
  mapping ≠ ∅ →
  Redis.hset key mapping w =
  let w1 := entered (HSET key mapping) w in
  if faulty w then (Raise ConnectionError, w1)
  else match redis w !! key with
       | None => (Ok (), with_redis (<[key := RHash mapping]> (redis w)) w1)
       | Some (RHash h) =>
         (Ok (), with_redis (<[key := RHash (mapping ∪ h)]> (redis w)) w1)
       | Some (RString _) => (Raise Redis.wrongtype, w1)
       end.
Proof.
  intros Hne. unfold Redis.hset. rewrite decide_False by done.
  rewrite bind_unfold, enter_unfold. cbv zeta.
  destruct (faulty w); [reflexivity|].
  rewrite bind_unfold. simpl.
  destruct (redis w !! key) as [[s|h]|]; reflexivity.
Qed.

Lemma delete_unfold key w :
  Redis.delete key w =
  if faulty w then (Raise ConnectionError, entered (DEL key) w)
  else (Ok (), with_redis (delete key (redis w)) (entered (DEL key) w)).
Proof.
  unfold Redis.delete. rewrite bind_unfold, enter_unfold.
  destruct (faulty w); reflexivity.
Qed.

Lemma incr_unfold key w :
  Redis.incr key w =
  let w1 := entered (INCR key) w in
  if faulty w then (Raise ConnectionError, w1)
  else match counter (redis w) key with
       | Some n =>
         if n <? Redis.int64_max
         then (Ok (n + 1),
               with_redis (<[key := RString (Py.str_of_int (n + 1))]> (redis w)) w1)
         else (Raise (ResponseError "increment or decrement would overflow"), w1)
       | None =>
         (Raise match redis w !! key with
                | Some (RHash _) => Redis.wrongtype
                | _ => ResponseError "value is not an integer or out of range"
                end, w1)
       end.
Proof.
  unfold Redis.incr, counter. rewrite bind_unfold, enter_unfold.
  destruct (faulty w); [reflexivity|].
  rewrite bind_unfold. simpl.
  destruct (redis w !! key) as [[s|h]|]; [| reflexivity | reflexivity].
  destruct (Redis.int64_of_string s) as [n|]; [|reflexivity].
  destruct (n <? Redis.int64_max); reflexivity.
Qed.

(** ** The Config Store read path *)
Section BotFacts.
Context {L : FernetLib}.
Variable cipher_suite : fernet.

(** What [decrypt_data] returns. *)
Lemma decrypt_data_result tok w :
  fst (decrypt_data cipher_suite tok w) =
  match decrypt cipher_suite tok with
  | Some data => if Py.utf8_valid data then Ok data else Raise UnicodeDecodeError
  | None => Raise InvalidToken
  end.
Proof.
  unfold decrypt_data, try_except_of, decode_bytes, Py.decode.
  destruct (decrypt cipher_suite tok) as [data|]; simpl; [|reflexivity].
  destruct (Py.utf8_valid data); reflexivity.
Qed.

Lemma preserves_decrypt_data tok :
  preserves log_only (decrypt_data cipher_suite tok).
Proof.
  unfold decrypt_data. apply preserves_try_except_of; [apply _| |].
  - destruct (decrypt cipher_suite tok);
      [apply preserves_decode_bytes|apply preserves_raise; apply _].
  - intros e. apply preserves_bind; [apply _|apply preserves_logger|].
    intros _. apply preserves_raise; apply _.
Qed.

Lemma decode_bytes_inv b w s :
  fst (decode_bytes b w) = Ok s → s = b.
Proof.
  unfold decode_bytes, Py.decode. destruct (Py.utf8_valid b); [|done].
  by intros [= <-].
Qed.

(** Reading one credential field. *)
Lemma credential_inv field w plain :
  fst ((if truthy_opt field
        then x ← decrypt_data cipher_suite (default "" field); mret (Some x)
        else mret None) w) = Ok plain →
  opens cipher_suite field plain.
Proof.
  unfold opens. destruct (truthy_opt field); [|by intros [= <-]].
  intros (x & w1 & Hx & [= <-])%bind_ok_inv.
  apply (f_equal fst) in Hx. rewrite decrypt_data_result in Hx. simpl in Hx.
  destruct (decrypt cipher_suite (default "" field)) as [data|]; [|done].
  destruct (Py.utf8_valid data); [|done]. injection Hx as ->. by exists x.
Qed.

Lemma get_user_config_unfold user_id :
  get_user_config cipher_suite user_id =
  try_except
    (config ← Redis.hgetall (user_key user_id);
     if decide (config = ∅) then mret None else read_config cipher_suite config)
    (λ e,
       handle_error None
         ("Config error for " +:+ Py.str_of_int user_id +:+ ": " +:+ exn_str e)
         None;;
       mret None).
Proof. reflexivity. Qed.

Lemma preserves_read_config config :
  preserves log_only (read_config cipher_suite config).
Proof.
  unfold read_config.
  repeat (first
    [ apply preserves_bind; [apply _| |intros ?]
    | apply preserves_decode_bytes
    | apply preserves_int_bytes
    | apply preserves_decrypt_data
    | apply preserves_ret; apply _
    | match goal with |- preserves _ (from_option _ _ ?x) => destruct x; simpl end
    | match goal with |- preserves _ (if ?b then _ else _) => destruct b end ]).
Qed.

Lemma read_config_result config w c :
  fst (read_config cipher_suite config w) = Ok (Some c) →
  smtp_server c = default "" (config !! "smtp_server") ∧
  opens cipher_suite (config !! "email") (email c) ∧
  opens cipher_suite (config !! "password") (password c) ∧
  mode c = default "" (config !! "mode").
Proof.
  unfold read_config.
  intros (server & w1 & Hserver & H)%bind_ok_inv.
  apply bind_ok_inv in H as (port & w2 & _ & H).
  apply bind_ok_inv in H as (iserver & w3 & _ & H).
  apply bind_ok_inv in H as (iport & w4 & _ & H).
  apply bind_ok_inv in H as (e & w5 & He & H).
  apply bind_ok_inv in H as (p & w6 & Hp & H).
  apply bind_ok_inv in H as (m & w7 & Hm & [= <-]).
  apply (f_equal fst) in Hserver, He, Hp, Hm. simpl in *.
  apply decode_bytes_inv in Hserver, Hm.
  apply credential_inv in He, Hp. done.
Qed.

Lemma config_handler_unfold msg w :
  (handle_error None msg None;; mret (@None user_config)) w =
  (Ok None, with_log (log w ++ [(ERROR, msg)]) w).
Proof. reflexivity. Qed.

(** [get_user_config] never raises: it issues one HGETALL, may log, and a
    dict comes back only from a readable record whose credentials open. *)
Lemma get_user_config_spec user_id w :
  ∃ r w', get_user_config cipher_suite user_id w = (Ok r, w') ∧
    log_only (entered (HGETALL (user_key user_id)) w) w' ∧
    ∀ c, r = Some c →
      ∃ h, redis w !! user_key user_id = Some (RHash h) ∧
        smtp_server c = default "" (h !! "smtp_server") ∧
        opens cipher_suite (h !! "email") (email c) ∧
        opens cipher_suite (h !! "password") (password c) ∧
        mode c = default "" (h !! "mode").
Proof.
  rewrite get_user_config_unfold, try_except_unfold, bind_unfold, hgetall_unfold.
  set (w1 := entered _ w).
  assert (Hfail : ∀ (msg : string) w2, log_only w1 w2 →
            log_only w1 (with_log (log w2 ++ [(ERROR, msg)]) w2)).
  { intros msg w2 H. etrans; [exact H|apply log_only_with_log]. }
  destruct (faulty w).
  { rewrite config_handler_unfold. eexists _, _. split; [reflexivity|].
    split; [apply Hfail; reflexivity|done]. }
  destruct (redis w !! user_key user_id) as [[s|h]|] eqn:Hrec.
  - rewrite config_handler_unfold. eexists _, _. split; [reflexivity|].
    split; [apply Hfail; reflexivity|done].
  - destruct (decide (h = ∅)) as [->|Hne].
    { eexists _, _. split; [reflexivity|]. split; [reflexivity|done]. }
    pose proof (preserves_read_config h w1) as Hlog.
    pose proof (read_config_result h w1) as Hres.
    destruct (read_config cipher_suite h w1) as [[r|e] w2]; simpl in *.
    + eexists _, _. split; [reflexivity|]. split; [exact Hlog|].
      intros c ->. exists h. split; [reflexivity|]. by apply Hres.
    + rewrite config_handler_unfold. eexists _, _. split; [reflexivity|].
      split; [by apply Hfail|done].
  - rewrite decide_True by reflexivity.
    eexists _, _. split; [reflexivity|]. split; [reflexivity|done].
Qed.

(** ** Sending *)

Lemma dialogue_spec host port user pass msg w :
  ∃ r evs, dialogue host port user pass msg w = (r, with_trace (trace w ++ evs) w) ∧
    Forall (λ e, is_smtp e = true) evs ∧
    (∀ n, r = Ok n →
       evs = [SmtpConnect host port; SmtpStarttls; SmtpLogin user pass;
              SmtpSendMessage msg; SmtpQuit]).
Proof.
  unfold dialogue, with_SMTP, exit_SMTP, smtp_step.
  rewrite !bind_unfold. simpl.
  destruct (smtp_peer w (SmtpConnect host port)); simpl.
  2:{ eexists _, [_]. split; [reflexivity|]. split; [by repeat constructor|done]. }
  rewrite !bind_unfold. simpl.
  destruct (smtp_peer w SmtpStarttls); simpl.
  2:{ destruct (smtp_peer w SmtpQuit); eexists _, [_; _; _];
        (split; [norm_trace|]); (split; [by repeat constructor|done]). }
  rewrite !bind_unfold. simpl.
  destruct (smtp_peer w (SmtpLogin user pass)); simpl.
  2:{ destruct (smtp_peer w SmtpQuit); eexists _, [_; _; _; _];
        (split; [norm_trace|]); (split; [by repeat constructor|done]). }
  destruct (smtp_peer w (SmtpSendMessage msg)); simpl;
    destruct (smtp_peer w SmtpQuit);
    eexists _, [_; _; _; _; _]; (split; [norm_trace|]);
    (split; [by repeat constructor|done]).
Qed.

Lemma send_email_unfold user_id to subject body attachments w :
  send_email cipher_suite user_id to subject body attachments w =
  match get_user_config cipher_suite user_id w with
  | (Ok (Some config), w1) =>
    if Py.truthy (smtp_server config)
    then match dialogue (smtp_server config) (smtp_port config)
                 (email config) (password config)
                 (compose_message config to subject body attachments) w1 with
         | (Ok _, w2) => track_stat "emails_sent" w2
         | (Raise e, w2) => (Raise e, w2)
         end
    else (Raise (PlainException "SMTP not configured"), w1)
  | (Ok None, w1) => (Raise (PlainException "SMTP not configured"), w1)
  | (Raise e, w1) => (Raise e, w1)
  end.
Proof.
  unfold send_email. rewrite bind_unfold.
  destruct (get_user_config cipher_suite user_id w) as [[[c|]|e] w1]; try reflexivity.
  destruct (Py.truthy (smtp_server c)); simpl; [|reflexivity].
  rewrite bind_unfold.
  fold (dialogue (smtp_server c) (smtp_port c) (email c) (password c)
          (compose_message c to subject body attachments)).
  destruct (dialogue _ _ _ _ _ w1) as [[[]|e] w2]; reflexivity.
Qed.

End BotFacts.

(** [track_stat] always returns; the database is left as it was or the
    counter went up by one. *)
Lemma track_stat_spec metric w :
  ∃ w', track_stat metric w = (Ok (), w') ∧
    trace w' = trace w ++ [RedisCall (INCR (stat metric))] ∧
    (redis w' = redis w ∨
     ∃ n, counter (redis w) (stat metric) = Some n ∧
          counter (redis w') (stat metric) = Some (n + 1) ∧
          redis w' = <[stat metric := RString (Py.str_of_int (n + 1))]> (redis w)).
Proof.
  unfold track_stat. rewrite try_except_unfold, bind_unfold.
  fold (stat metric). rewrite incr_unfold. cbv zeta.
  destruct (faulty w).
  { eexists. split; [reflexivity|]. simpl. auto. }
  destruct (counter (redis w) (stat metric)) as [n|] eqn:Hn.
  - destruct (Z.ltb_spec n Redis.int64_max).
    + eexists. split; [reflexivity|]. simpl. split; [done|].
      right. exists n. split; [done|]. split; [|done].
      unfold counter. rewrite lookup_insert_eq.
      apply int64_of_string_str.
      unfold counter in Hn.
      destruct (redis w !! stat metric) as [[s|h]|]; [| done |].
      * apply int64_of_string_inv in Hn. lia.
      * injection Hn as <-. unfold Redis.int64_min, Redis.int64_max. lia.
    + eexists. split; [reflexivity|]. simpl. auto.
  - eexists. split; [reflexivity|]. simpl. auto.
Qed.

(** ** The Key Manager *)
Section KeyManagerFacts.
Context {L : FernetLib}.

Lemma new_Fernet_unfold key w :
  new_Fernet key w =
  (match new key with
   | Some f => Ok f
   | None => Raise (ValueError "Fernet key must be 32 url-safe base64-encoded bytes.")
   end, w).
Proof. unfold new_Fernet. by destruct (new key). Qed.

Lemma new_Fernet_ok k f w : Ok f = fst (new_Fernet k w) → new k = Some f.
Proof.
  rewrite new_Fernet_unfold. simpl. destruct (new k); [by intros [= ->]|done].
Qed.

(** The last branch of [setup_encryption], entered in [w0] after the GET
    issued in [w]: generate, persist, construct. *)
Lemma generation_spec w w0 :
  redis w0 = redis w → environ w0 = environ w →
  drawn w0 = drawn w → urandom w0 = urandom w →
  redis_faults w0 = tail (redis_faults w) →
  ∃ r w1,
    try_except
      (r ← os_urandom 32;
       let new_key := generate_key r in
       Redis.set "fernet_key" new_key;; new_Fernet new_key)
      (λ e, logger CRITICAL ("Encryption setup failed: " +:+ exn_str e);; raise e) w0
    = (r, w1) ∧ environ w1 = environ w ∧
    if faulty w0
    then r = Raise ConnectionError ∧ redis w1 = redis w
    else r = fst (new_Fernet (fresh_key w) w) ∧
         redis w1 = <["fernet_key" := RString (fresh_key w)]> (redis w) ∧
         redis_faults w1 = tail (tail (redis_faults w)).
Proof.
  intros Hd He Hn Hu Hfs.
  rewrite try_except_unfold, bind_unfold. unfold os_urandom.
  rewrite bind_unfold, set_unfold. simpl.
  change (faulty (with_drawn (S (drawn w0)) w0)) with (faulty w0).
  destruct (faulty w0) eqn:Hf0.
  { eexists _, _. split; [reflexivity|]. simpl. by rewrite He, Hd. }
  rewrite !new_Fernet_unfold. unfold fresh_key. rewrite Hu, Hn, Hd.
  destruct (new _); eexists _, _; (split; [reflexivity|]); simpl;
    by rewrite He, Hfs.
Qed.

Ltac use_truthy :=
  repeat match goal with
         | H : Py.truthy ?x = _ |- context [Py.truthy ?x] => rewrite H
         end.

Ltac setup_start Hf Hk :=
  unfold setup_encryption;
  rewrite !try_except_unfold, bind_unfold, get_unfold, Hf, Hk; simpl;
  use_truthy.

Ltac setup_env He :=
  rewrite bind_unfold; unfold getenv; simpl; rewrite He; simpl; use_truthy.

Ltac setup_constructs k :=
  unfold Py.encode; rewrite !new_Fernet_unfold;
  destruct (new k); eexists _, _; (split; [reflexivity|]); done.

Ltac setup_generates w Hf Hk He :=
  let r := fresh "r" in
  let w1 := fresh "w" in
  let Hrun := fresh "Hrun" in
  let Hrest := fresh "Hrest" in
  destruct (generation_spec w (entered (GET "fernet_key") w))
    as (r & w1 & Hrun & Hrest); try done;
  exists r, w1; split; [|exact Hrest]; rewrite <- Hrun;
  setup_start Hf Hk; setup_env He; reflexivity.

(** [setup_encryption], source by source. *)
Lemma setup_encryption_spec w :
  ∃ r w1, setup_encryption w = (r, w1) ∧ environ w1 = environ w ∧
    match key_source_of w with
    | Unavailable e => r = Raise e ∧ redis w1 = redis w
    | Persisted k | Environment k =>
      r = fst (new_Fernet k w) ∧ redis w1 = redis w ∧
      redis_faults w1 = tail (redis_faults w)
    | Generated =>
      if faulty (entered (GET "fernet_key") w)
      then r = Raise ConnectionError ∧ redis w1 = redis w
      else r = fst (new_Fernet (fresh_key w) w) ∧
           redis w1 = <["fernet_key" := RString (fresh_key w)]> (redis w) ∧
           redis_faults w1 = tail (tail (redis_faults w))
    end.
Proof.
  unfold key_source_of, env_source.
  destruct (faulty w) eqn:Hf.
  { unfold setup_encryption.
    rewrite try_except_unfold, bind_unfold, get_unfold, Hf.
    eexists _, _. split; [reflexivity|]. done. }
  destruct (redis w !! "fernet_key") as [[s|?]|] eqn:Hk.
  - destruct (Py.truthy s) eqn:Hs.
    { setup_start Hf Hk. setup_constructs s. }
    destruct (environ w !! "ENCRYPTION_KEY") as [e|] eqn:He;
      [destruct (Py.truthy e) eqn:Hte|].
    + setup_start Hf Hk. setup_env He. setup_constructs e.
    + setup_generates w Hf Hk He.
    + setup_generates w Hf Hk He.
  - setup_start Hf Hk. eexists _, _. split; [reflexivity|]. done.
  - destruct (environ w !! "ENCRYPTION_KEY") as [e|] eqn:He;
      [destruct (Py.truthy e) eqn:Hte|].
    + setup_start Hf Hk. setup_env He. setup_constructs e.
    + setup_generates w Hf Hk He.
    + setup_generates w Hf Hk He.
Qed.

Lemma key_source_of_ext w w' :
  faulty w' = faulty w → redis w' = redis w → environ w' = environ w →
  key_source_of w' = key_source_of w.
Proof. unfold key_source_of, env_source. by intros -> -> ->. Qed.

Lemma key_source_live w :
  (∀ e, key_source_of w ≠ Unavailable e) → faulty w = false.
Proof.
  unfold key_source_of. destruct (faulty w); [|done].
  intros H. by destruct (H ConnectionError).
Qed.

Context {HL : FernetLaws L}.

Lemma new_truthy k f : new k = Some f → Py.truthy k = true.
Proof.
  intros Hk. apply truthy_nonempty. intros ->.
  rewrite new_empty in Hk. discriminate.
Qed.

(** After a successful run the key is established. *)
Lemma setup_encryption_settles w f w1 :
  setup_encryption w = (Ok f, w1) → settled f w1.
Proof.
  intros Hrun.
  destruct (setup_encryption_spec w) as (r & w1' & Hrun' & Henv & Hcase).
  rewrite Hrun in Hrun'. injection Hrun' as <- <-.
  destruct (key_source_of w) as [k|k| |e] eqn:Hsrc.
  - destruct Hcase as (Hr & Hd & _). exists k. split; [by eapply new_Fernet_ok|].
    intros w' Hd' He' Hf. left. rewrite <- Hsrc.
    apply key_source_of_ext; [|congruence..].
    rewrite Hf. symmetry. apply key_source_live. intros e. by rewrite Hsrc.
  - destruct Hcase as (Hr & Hd & _). exists k. split; [by eapply new_Fernet_ok|].
    intros w' Hd' He' Hf. right. rewrite <- Hsrc.
    apply key_source_of_ext; [|congruence..].
    rewrite Hf. symmetry. apply key_source_live. intros e. by rewrite Hsrc.
  - destruct (faulty (entered (GET "fernet_key") w)); [by destruct Hcase|].
    destruct Hcase as (Hr & Hd & _). apply new_Fernet_ok in Hr.
    exists (fresh_key w). split; [done|].
    intros w' Hd' He' Hf. left. unfold key_source_of.
    by rewrite Hf, Hd', Hd, lookup_insert_eq, (new_truthy _ _ Hr).
  - by destruct Hcase.
Qed.

(** A call in a world where the key is established returns it, or fails on
    the connection; either way the key stays established. *)
Lemma settled_call f w :
  settled f w →
  ∃ r w1, setup_encryption w = (r, w1) ∧
    redis w1 = redis w ∧ environ w1 = environ w ∧
    r = (if faulty w then Raise ConnectionError else Ok f).
Proof.
  intros (k & Hk & Hsrc).
  destruct (setup_encryption_spec w) as (r & w1 & Hrun & Henv & Hcase).
  exists r, w1. split; [exact Hrun|].
  destruct (faulty w) eqn:Hf.
  - unfold key_source_of in Hcase. rewrite Hf in Hcase. by destruct Hcase.
  - destruct (Hsrc w eq_refl eq_refl Hf) as [Hs|Hs]; rewrite Hs in Hcase;
      destruct Hcase as (-> & Hd & _); by rewrite new_Fernet_unfold, Hk.
Qed.

Lemma settled_after_calls f n w : settled f w → settled f (after_calls n w).
Proof.
  revert w. induction n as [|n IH]; intros w Hw; [exact Hw|].
  cbn [after_calls]. apply IH.
  destruct (settled_call f w Hw) as (r & w1 & Hrun & Hd & He & _).
  rewrite Hrun. cbn [snd].
  destruct Hw as (k & Hk & Hsrc). exists k. split; [exact Hk|].
  intros w' Hd' He' Hf. apply Hsrc; congruence.
Qed.

End KeyManagerFacts.

(** ** The reference instance satisfies the laws *)

Lemma length_app_string (s t : string) :
  String.length (s +:+ t) = (String.length s + String.length t)%nat.
Proof. induction s as [|c s IH]; simpl; [reflexivity|by rewrite IH]. Qed.

Lemma length_armor r : String.length (RefFernet.armor r) = String.length r.
Proof. induction r as [|c r IH]; simpl; [reflexivity|by rewrite IH]. Qed.

Lemma ascii_only_app s t :
  RefFernet.ascii_only (s +:+ t) = RefFernet.ascii_only s && RefFernet.ascii_only t.
Proof.
  induction s as [|c s IH]; simpl; [reflexivity|].
  by rewrite IH, andb_assoc.
Qed.

Lemma ascii_only_armor r : RefFernet.ascii_only (RefFernet.armor r) = true.
Proof.
  induction r as [|c r IH]; simpl; [reflexivity|].
  rewrite IH, andb_true_r. unfold Py.byte.
  assert (65 + N_of_ascii c mod 26 < 128)%N as Hlt.
  { pose proof (N.mod_upper_bound (N_of_ascii c) 26). lia. }
  rewrite N_ascii_embedding by lia. by apply N.ltb_lt.
Qed.

Lemma strip_prefix_app f m : RefFernet.strip_prefix f (f +:+ m) = Some m.
Proof.
  induction f as [|c f IH]; simpl; [reflexivity|].
  by rewrite Ascii.eqb_refl.
Qed.

Lemma unseal_pair swap c t :
  RefFernet.unseal swap (RefFernet.pair_of swap c +:+ t) =
  String c <$> RefFernet.unseal swap t.
Proof.
  destruct swap, c as [b0 b1 b2 b3 b4 b5 b6 b7]; reflexivity.
Qed.

Lemma unseal_seal swap m : RefFernet.unseal swap (RefFernet.seal swap m) = Some m.
Proof.
  induction m as [|c m IH]; [reflexivity|].
  cbn [RefFernet.seal]. by rewrite unseal_pair, IH.
Qed.

Lemma half_ascii b0 b1 b2 b3 : (Py.byte (RefFernet.half b0 b1 b2 b3) <? 128)%N = true.
Proof. by destruct b0, b1, b2, b3. Qed.

Lemma ascii_only_pair swap c : RefFernet.ascii_only (RefFernet.pair_of swap c) = true.
Proof.
  destruct swap, c as [b0 b1 b2 b3 b4 b5 b6 b7];
    cbv beta iota zeta delta [RefFernet.pair_of RefFernet.ascii_only];
    by rewrite !half_ascii.
Qed.

Lemma ascii_only_seal swap m : RefFernet.ascii_only (RefFernet.seal swap m) = true.
Proof.
  induction m as [|c m IH]; [reflexivity|].
  cbn [RefFernet.seal]. by rewrite ascii_only_app, ascii_only_pair, IH.
Qed.

Lemma ascii_only_prefix n s :
  RefFernet.ascii_only s = true → RefFernet.ascii_only (RefFernet.prefix n s) = true.
Proof.
  revert s. induction n as [|n IH]; intros [|c s]; try reflexivity.
  simpl. intros [Hc Hs]%andb_true_iff. rewrite Hc. by apply IH.
Qed.

Lemma utf8_valid_ascii s : RefFernet.ascii_only s = true → Py.utf8_valid s = true.
Proof.
  induction s as [|c s IH]; [reflexivity|].
  simpl RefFernet.ascii_only. intros [Hc Hs]%andb_true_iff.
  rewrite utf8_valid_ascii_cons by done. by apply IH.
Qed.

Lemma utf8_valid_ascii_app f m :
  RefFernet.ascii_only f = true →
  Py.utf8_valid (f +:+ m) = Py.utf8_valid m.
Proof.
  induction f as [|c f IH]; [reflexivity|].
  simpl RefFernet.ascii_only. intros [Hc Hf]%andb_true_iff.
  change (String c f +:+ m) with (String c (f +:+ m)).
  rewrite utf8_valid_ascii_cons by done. by apply IH.
Qed.

Lemma ref_new_inv k f :
  RefFernet.new k = Some f →
  f = k ∧ String.length k = 44%nat ∧ RefFernet.ascii_only k = true.
Proof.
  unfold RefFernet.new, RefFernet.key_ok.
  destruct (Nat.eqb_spec (String.length k) 44); [|done].
  destruct (RefFernet.ascii_only k); [|done].
  by intros [= <-].
Qed.

Lemma ref_laws : FernetLaws RefFernet.lib.
Proof.
  split; simpl.
  - reflexivity.
  - intros r Hr. unfold RefFernet.new, RefFernet.key_ok, RefFernet.generate_key.
    rewrite length_app_string, length_armor, Hr, ascii_only_app, ascii_only_armor.
    simpl. by eexists.
  - intros k f nonce m _. unfold RefFernet.decrypt, RefFernet.encrypt.
    rewrite strip_prefix_app. apply unseal_seal.
  - intros k f nonce m (-> & _ & Hk)%ref_new_inv _.
    unfold RefFernet.encrypt, RefFernet.signing.
    rewrite utf8_valid_ascii_app by (by apply ascii_only_prefix).
    apply utf8_valid_ascii, ascii_only_seal.
Qed.

(** ** The conversation state machine, step by step *)

Lemma temp_key_not_user_key user_id : temp_data_key user_id ≠ user_key user_id.
Proof. unfold temp_data_key, user_key. simpl. discriminate. Qed.

Lemma accepted_nonempty field value next : accepted field value next ≠ ∅.
Proof. apply insert_non_empty. Qed.

Lemma lookup_accepted field value next (h : gmap string string) f :
  (accepted field value next ∪ h) !! f =
  if decide (f = field) then Some value
  else if decide (f = "step") then Some next else h !! f.
Proof.
  unfold accepted. rewrite lookup_union.
  repeat case_decide; subst; simplify_map_eq; try done; by rewrite union_Some_l.
Qed.

Lemma draft_insert user_id h w w' :
  redis w' = <[temp_data_key user_id := RHash h]> (redis w) →
  draft user_id w' = Some h ∧
  redis w' !! user_key user_id = redis w !! user_key user_id.
Proof.
  intros Hd. unfold draft. rewrite Hd, lookup_insert_eq. split; [done|].
  apply lookup_insert_ne, temp_key_not_user_key.
Qed.

Ltac in_table :=
  unfold transitions;
  repeat first [apply list_elem_of_here | apply list_elem_of_further].

Section ConversationFacts.
Context {L : FernetLib} {HL : FernetLaws L}.
Variable cipher_suite : fernet.
Variable key : string.
Hypothesis key_ok : new key = Some cipher_suite.

Lemma encrypt_data_spec s w :
  Py.utf8_valid s = true →
  encrypt_data cipher_suite s w =
  (Ok (encrypt cipher_suite (fit 16 (urandom w (drawn w))) s),
   with_drawn (S (drawn w)) w).
Proof.
  intros Hs. unfold encrypt_data, try_except_of. rewrite bind_unfold.
  unfold os_urandom, decode_bytes, Py.decode, Py.encode.
  by rewrite (token_text key cipher_suite _ s key_ok Hs).
Qed.

Lemma step_configure user_id w :
  reliable w →
  ∃ w', step cipher_suite user_id Configure w = (Ok (Prompt AwaitingSmtpServer), w') ∧
    reliable w' ∧
    redis w' = <[temp_data_key user_id := RHash (<["step" := "smtp_server"]> ∅)]>
                 (redis w).
Proof.
  intros Hrel. unfold step, delete_temp_data, save_temp_data.
  rewrite bind_unfold, delete_unfold, (reliable_faulty _ Hrel).
  rewrite bind_unfold, hset_unfold by apply insert_non_empty. cbv zeta.
  rewrite reliable_faulty by auto with world.
  simpl. rewrite lookup_delete_eq. eexists. split; [reflexivity|].
  split; [auto with world|]. simpl. by rewrite insert_delete_eq.
Qed.

(** A field is accepted: the cursor moves and the draft grows. *)
Lemma advance_spec user_id field value next w h :
  reliable w → draft user_id w = Some h →
  ∃ w', advance user_id field value next w = (Ok (), w') ∧
    reliable w' ∧
    redis w' = <[temp_data_key user_id := RHash (accepted field value next ∪ h)]>
                 (redis w).
Proof.
  intros Hrel Hh. unfold advance, save_temp_data, draft in *.
  fold (accepted field value next).
  rewrite hset_unfold by apply accepted_nonempty. cbv zeta.
  rewrite (reliable_faulty _ Hrel).
  destruct (redis w !! temp_data_key user_id) as [[s|h']|]; try done.
  injection Hh as ->. eexists. split; [reflexivity|].
  split; [auto with world|done].
Qed.

Lemma get_temp_data_spec user_id w h :
  reliable w → draft user_id w = Some h →
  get_temp_data user_id w = (Ok h, entered (HGETALL (temp_data_key user_id)) w).
Proof.
  intros Hrel Hh. unfold get_temp_data, draft in *.
  rewrite hgetall_unfold, (reliable_faulty _ Hrel).
  destruct (redis w !! temp_data_key user_id) as [[s|h']|]; try done.
  by injection Hh as ->.
Qed.

Lemma drive_cons user_id i rest w :
  drive cipher_suite user_id (i :: rest) w =
  match step cipher_suite user_id i w with
  | (Ok r, w') =>
    match drive cipher_suite user_id rest w' with
    | (Ok rs, w'') => (Ok (r :: rs), w'')
    | (Raise e, w'') => (Raise e, w'')
    end
  | (Raise e, w') => (Raise e, w')
  end.
Proof.
  cbn [drive]. rewrite bind_unfold.
  destruct (step cipher_suite user_id i w) as [[r|e] w']; [|reflexivity].
  rewrite bind_unfold.
  by destruct (drive cipher_suite user_id rest w') as [[rs|e] w''].
Qed.

Lemma step_accepts user_id s w h cursor next st port :
  (cursor, next, st, port) ∈ transitions →
  reliable w → draft user_id w = Some h → h !! "step" = Some cursor →
  (port = true → valid_port s = true) →
  ∃ w', step cipher_suite user_id (Text s) w = (Ok (Prompt st), w') ∧
    reliable w' ∧
    draft user_id w' = Some (accepted cursor s next ∪ h).
Proof.
  intros Hin Hrel Hh Hstep Hport. unfold step.
  rewrite bind_unfold, (get_temp_data_spec user_id w h Hrel Hh).
  unfold state_of. rewrite Hstep.
  assert (Hrel1 : reliable (entered (HGETALL (temp_data_key user_id)) w))
    by auto with world.
  assert (Hh1 : draft user_id (entered (HGETALL (temp_data_key user_id)) w) = Some h)
    by done.
  unfold transitions in Hin.
  repeat (apply elem_of_cons in Hin as [[= -> -> -> ->]|Hin]);
    [..|by apply elem_of_nil in Hin];
    try rewrite Hport by reflexivity;
    cbv iota; rewrite bind_unfold;
    match goal with
    | |- context [advance ?u ?f ?v ?n ?w0] =>
      destruct (advance_spec u f v n w0 h Hrel1 Hh1) as (w' & -> & Hrel' & Hd)
    end;
    exists w'; (split; [reflexivity|]); (split; [done|]);
    by apply (draft_insert _ _ _ _ Hd).
Qed.

Lemma step_commits user_id s w h :
  reliable w → draft user_id w = Some h → h !! "step" = Some "password" →
  Py.utf8_valid (default "" (h !! "email")) = true →
  Py.utf8_valid s = true →
  ∃ w' enc_email enc_password,
    step cipher_suite user_id (Text s) w = (Ok Configured, w') ∧
    decrypt cipher_suite enc_email = Some (default "" (h !! "email")) ∧
    decrypt cipher_suite enc_password = Some s ∧
    redis w' !! user_key user_id =
      Some (RHash (committed (default "" (h !! "smtp_server"))
                             (default "" (h !! "smtp_port"))
                             (default "" (h !! "imap_server"))
                             (default "" (h !! "imap_port"))
                             enc_email enc_password)) ∧
    redis w' !! temp_data_key user_id = None.
Proof.
  intros Hrel Hh Hstep Hemail Hs. unfold step.
  rewrite bind_unfold, (get_temp_data_spec user_id w h Hrel Hh).
  unfold state_of. rewrite Hstep. cbv iota.
  set (w1 := entered _ w).
  assert (Hrel1 : reliable w1) by (subst w1; auto with world).
  rewrite bind_unfold. unfold put_user_config.
  rewrite bind_unfold, (encrypt_data_spec _ _ Hemail).
  rewrite bind_unfold, (encrypt_data_spec _ _ Hs).
  set (w2 := with_drawn _ (with_drawn _ w1)).
  assert (Hrel2 : reliable w2) by (subst w2; auto with world).
  rewrite bind_unfold, delete_unfold, (reliable_faulty _ Hrel2).
  rewrite hset_unfold by apply insert_non_empty. cbv zeta.
  rewrite reliable_faulty by auto with world.
  simpl redis. rewrite lookup_delete_eq.
  unfold delete_temp_data.
  rewrite bind_unfold, delete_unfold, reliable_faulty by auto with world.
  eexists _, _, _. split; [reflexivity|].
  split; [by apply (decrypt_encrypt key)|].
  split; [by apply (decrypt_encrypt key)|].
  simpl redis. split.
  - rewrite lookup_delete_ne by apply temp_key_not_user_key.
    by rewrite lookup_insert_eq.
  - apply lookup_delete_eq.
Qed.

End ConversationFacts.

(** ** Administrative commands *)

Lemma respond_unfold ev text w :
  respond ev text w =
  let w' := with_chat_faults (tail (chat_faults w))
              (with_trace (trace w ++ [ChatRespond (chat_id ev) text]) w) in
  (match chat_faults w with true :: _ => Raise RPCError | _ => Ok () end, w').
Proof.
  unfold respond, chat_call. by destruct (chat_faults w) as [|[] ?].
Qed.

(** Turning a stranger away: one answer on the chat, nothing else. *)
Lemma refusal_spec (ADMIN_IDS : list Z) (rest : M unit) (label : exn → string) ev w :
  sender_id ev ∉ ADMIN_IDS →
  ∃ w', try_except
          (if negb (bool_decide (sender_id ev ∈ ADMIN_IDS))
           then respond ev "⛔ Unauthorized" else rest)
          (λ e, handle_error (Some ev) (label e) None) w = (Ok (), w') ∧
    trace w' = trace w ++ [ChatRespond (chat_id ev) "⛔ Unauthorized"] ∧
    redis w' = redis w.
Proof.
  intros Hnot. rewrite try_except_unfold, bool_decide_false by done.
  change (negb false) with true. cbv iota. rewrite respond_unfold. cbv zeta.
  destruct (chat_faults w) as [|[] ?]; eexists; (split; [reflexivity|done]).
Qed.

(** ** The read path, field by field *)

Lemma with_log_same w : with_log (log w ++ []) w = w.
Proof. destruct w. unfold with_log. simpl. by rewrite app_nil_r. Qed.

Lemma issued_app w w' evs : trace w' = trace w ++ evs → issued w w' = evs.
Proof. intros H. unfold issued. by rewrite H, drop_app_length. Qed.

Lemma decode_bytes_unfold b w :
  decode_bytes b w =
  (if Py.utf8_valid b then Ok b else Raise UnicodeDecodeError, w).
Proof. unfold decode_bytes, Py.decode. by destruct (Py.utf8_valid b). Qed.

Lemma port_unfold (x : option string) w :
  ∃ r, from_option int_bytes (mret 0) x w = (r, w) ∧
    match port_of x with
    | Some p => r = Ok p
    | None => ∃ msg, r = Raise (ValueError msg)
    end.
Proof.
  destruct x as [b|]; simpl; [|by eexists].
  unfold int_bytes.
  destruct (Py.int_of_bytes b) as [z|]; destruct (_ <? _)%N;
    eexists; (split; [reflexivity|]); try done; by eexists.
Qed.

Lemma port_of_literal (x : option string) p :
  port_of x = Some p → from_option Py.int_of_bytes (Some 0) x = Some p.
Proof.
  destruct x as [b|]; simpl; [|done]. by destruct (_ <? _)%N.
Qed.

Lemma caught_InvalidToken user_id e :
  caught user_id e = caught user_id InvalidToken → e = InvalidToken.
Proof. unfold caught. by destruct e. Qed.

Section ReadPath.
Context {L : FernetLib}.
Variable cipher_suite : fernet.

Lemma decrypt_data_unfold tok w :
  decrypt_data cipher_suite tok w =
  match decrypt cipher_suite tok with
  | Some data =>
    (if Py.utf8_valid data then Ok data else Raise UnicodeDecodeError, w)
  | None =>
    (Raise InvalidToken, with_log (log w ++ [(ERROR, "Decryption error: ")]) w)
  end.
Proof.
  unfold decrypt_data, try_except_of.
  destruct (decrypt cipher_suite tok) as [data|]; [|reflexivity].
  rewrite decode_bytes_unfold. by destruct (Py.utf8_valid data).
Qed.

Lemma credential_unfold field w :
  (if truthy_opt field
   then x ← decrypt_data cipher_suite (default "" field); mret (Some x)
   else mret None) w =
  if truthy_opt field
  then match decrypt cipher_suite (default "" field) with
       | Some data =>
         (if Py.utf8_valid data then Ok (Some data) else Raise UnicodeDecodeError, w)
       | None =>
         (Raise InvalidToken,
          with_log (log w ++ [(ERROR, "Decryption error: ")]) w)
       end
  else (Ok None, w).
Proof.
  destruct (truthy_opt field); [|reflexivity].
  rewrite bind_unfold, decrypt_data_unfold.
  destruct (decrypt cipher_suite (default "" field)) as [data|]; [|reflexivity].
  by destruct (Py.utf8_valid data).
Qed.

(** Reading one credential: it is absent or opens to text, or reading
    stops there. *)
Lemma credential_cases field w :
  (∃ plain, opens cipher_suite field plain ∧
     (∀ data, plain = Some data → Py.utf8_valid data = true) ∧
     (if truthy_opt field
      then x ← decrypt_data cipher_suite (default "" field); mret (Some x)
      else mret None) w = (Ok plain, w)) ∨
  (∃ e,
     (if truthy_opt field
      then x ← decrypt_data cipher_suite (default "" field); mret (Some x)
      else mret None) w =
     (Raise e,
      with_log (log w ++
        if is_InvalidToken e then [(ERROR, "Decryption error: ")] else []) w) ∧
     (e = InvalidToken ↔ sealed_otherwise cipher_suite field)).
Proof.
  rewrite credential_unfold. unfold opens, sealed_otherwise.
  destruct (truthy_opt field); [|left; eexists; split; [reflexivity|]; by split].
  destruct (decrypt cipher_suite (default "" field)) as [data|].
  - destruct (Py.utf8_valid data) eqn:Hv.
    + left. exists (Some data). split; [by exists data|]. split; [|done].
      by intros ? [= <-].
    + right. exists UnicodeDecodeError. simpl. rewrite with_log_same.
      split; [done|]. split; [done|]. by intros [_ ?].
  - right. exists InvalidToken. by split.
Qed.

Ltac stops e :=
  right; exists e; simpl; rewrite ?with_log_same; reflexivity.

(** [read_config] returns the dict of a readable hash and leaves the world
    alone, or raises, having logged at most the record of [decrypt_data]. *)
Lemma read_config_cases h w :
  (∃ c, readable cipher_suite h c ∧
        read_config cipher_suite h w = (Ok (Some c), w)) ∨
  (∃ e, read_config cipher_suite h w =
        (Raise e,
         with_log (log w ++
           if is_InvalidToken e then [(ERROR, "Decryption error: ")] else []) w)).
Proof.
  unfold read_config.
  rewrite bind_unfold, decode_bytes_unfold.
  destruct (Py.utf8_valid (default "" (h !! "smtp_server"))) eqn:Hs;
    [|stops UnicodeDecodeError].
  rewrite bind_unfold.
  destruct (port_unfold (h !! "smtp_port") w) as (r1 & -> & Hp1).
  destruct (port_of (h !! "smtp_port")) as [p1|] eqn:Hport1;
    [subst r1|destruct Hp1 as [msg ->]; stops (ValueError msg)].
  rewrite bind_unfold, decode_bytes_unfold.
  destruct (Py.utf8_valid (default "" (h !! "imap_server"))) eqn:Hi;
    [|stops UnicodeDecodeError].
  rewrite bind_unfold.
  destruct (port_unfold (h !! "imap_port") w) as (r2 & -> & Hp2).
  destruct (port_of (h !! "imap_port")) as [p2|] eqn:Hport2;
    [subst r2|destruct Hp2 as [msg ->]; stops (ValueError msg)].
  rewrite bind_unfold.
  destruct (credential_cases (h !! "email") w)
    as [(e & He & Hev & ->)|(x & -> & _)]; [|right; by exists x].
  rewrite bind_unfold.
  destruct (credential_cases (h !! "password") w)
    as [(p & Hp & Hpv & ->)|(x & -> & _)]; [|right; by exists x].
  rewrite bind_unfold, decode_bytes_unfold.
  destruct (Py.utf8_valid (default "" (h !! "mode"))) eqn:Hm;
    [|stops UnicodeDecodeError].
  left. eexists. split; [|reflexivity]. by repeat split.
Qed.

Lemma read_config_ok h w c :
  readable cipher_suite h c →
  read_config cipher_suite h w = (Ok (Some c), w).
Proof.
  intros ((Hs & Hp & His & Hip & He & Hpw & Hm) & Hvs & Hvi & Hvm & Hve & Hvp).
  assert (Hcred : ∀ field plain,
    opens cipher_suite field plain →
    (∀ data, plain = Some data → Py.utf8_valid data = true) →
    (if truthy_opt field
     then x ← decrypt_data cipher_suite (default "" field); mret (Some x)
     else mret None) w = (Ok plain, w)).
  { intros field plain Ho Hv. rewrite credential_unfold. unfold opens in Ho.
    destruct (truthy_opt field); [|by subst].
    destruct Ho as (data & -> & ->). by rewrite (Hv data). }
  unfold read_config.
  rewrite bind_unfold, decode_bytes_unfold, <- Hs, Hvs.
  rewrite bind_unfold.
  destruct (port_unfold (h !! "smtp_port") w) as (r1 & -> & Hp1).
  rewrite Hp in Hp1. subst r1.
  rewrite bind_unfold, decode_bytes_unfold, <- His, Hvi.
  rewrite bind_unfold.
  destruct (port_unfold (h !! "imap_port") w) as (r2 & -> & Hp2).
  rewrite Hip in Hp2. subst r2.
  rewrite bind_unfold, (Hcred _ _ He Hve).
  rewrite bind_unfold, (Hcred _ _ Hpw Hvp).
  rewrite bind_unfold, decode_bytes_unfold, <- Hm, Hvm.
  by destruct c.
Qed.

(** Reading stops with InvalidToken at the first credential that does not
    open, when the fields before it are readable. *)
Lemma read_config_sealed h w :
  settings_readable h →
  sealed_otherwise cipher_suite (h !! "email") ∨
  credential_readable cipher_suite (h !! "email") ∧
  sealed_otherwise cipher_suite (h !! "password") →
  read_config cipher_suite h w =
    (Raise InvalidToken, with_log (log w ++ [(ERROR, "Decryption error: ")]) w).
Proof.
  intros (Hs & [p1 Hp1] & Hi & [p2 Hp2]) Hbad.
  assert (Hsealed : ∀ field,
    sealed_otherwise cipher_suite field →
    (if truthy_opt field
     then x ← decrypt_data cipher_suite (default "" field); mret (Some x)
     else mret None) w =
    (Raise InvalidToken, with_log (log w ++ [(ERROR, "Decryption error: ")]) w)).
  { intros field [Ht Hd]. by rewrite credential_unfold, Ht, Hd. }
  unfold read_config.
  rewrite bind_unfold, decode_bytes_unfold, Hs.
  rewrite bind_unfold.
  destruct (port_unfold (h !! "smtp_port") w) as (r1 & -> & Hr1).
  rewrite Hp1 in Hr1. subst r1.
  rewrite bind_unfold, decode_bytes_unfold, Hi.
  rewrite bind_unfold.
  destruct (port_unfold (h !! "imap_port") w) as (r2 & -> & Hr2).
  rewrite Hp2 in Hr2. subst r2.
  rewrite bind_unfold.
  destruct Hbad as [He|[(plain & Ho & Hv) Hp]].
  - by rewrite (Hsealed _ He).
  - rewrite credential_unfold. unfold opens in Ho.
    destruct (truthy_opt (h !! "email")).
    + destruct Ho as (data & -> & ->). rewrite (Hv data eq_refl).
      rewrite bind_unfold. by rewrite (Hsealed _ Hp).
    + rewrite bind_unfold. by rewrite (Hsealed _ Hp).
Qed.

(** [get_user_config], outcome by outcome: the dict of the user's record,
    None for a user without a record, or None after logging what was
    caught. *)
Lemma get_user_config_cases user_id w :
  let w1 := entered (HGETALL (user_key user_id)) w in
  (∃ c, config_in cipher_suite user_id w c ∧
        get_user_config cipher_suite user_id w = (Ok (Some c), w1)) ∨
  (faulty w = false ∧
   (redis w !! user_key user_id = None ∨
    redis w !! user_key user_id = Some (RHash ∅)) ∧
   get_user_config cipher_suite user_id w = (Ok None, w1)) ∨
  (∃ e, get_user_config cipher_suite user_id w =
        (Ok None, with_log (log w ++ caught user_id e) w1)).
Proof.
  cbv zeta.
  rewrite get_user_config_unfold, try_except_unfold, bind_unfold, hgetall_unfold.
  set (w1 := entered _ w).
  destruct (faulty w) eqn:Hf.
  { right. right. exists ConnectionError. by rewrite config_handler_unfold. }
  destruct (redis w !! user_key user_id) as [[s|h]|] eqn:Hrec.
  - right. right. exists Redis.wrongtype. by rewrite config_handler_unfold.
  - destruct (decide (h = ∅)) as [->|Hne].
    { right. left. auto. }
    destruct (read_config_cases h w1) as [(c & Hc & ->)|(e & ->)].
    + left. exists c. split; [|reflexivity]. split; [done|]. by exists h.
    + right. right. exists e. rewrite config_handler_unfold.
      unfold caught. simpl. rewrite <- app_assoc.
      by destruct e.
  - rewrite decide_True by reflexivity. right. left. auto.
Qed.

Lemma get_user_config_ok user_id w c :
  config_in cipher_suite user_id w c →
  get_user_config cipher_suite user_id w =
    (Ok (Some c), entered (HGETALL (user_key user_id)) w).
Proof.
  intros (Hf & h & Hrec & Hne & Hc).
  rewrite get_user_config_unfold, try_except_unfold, bind_unfold, hgetall_unfold.
  rewrite Hf, Hrec, decide_False by done.
  by rewrite (read_config_ok h _ c).
Qed.

(** A record with a credential that does not open is caught as
    InvalidToken when the fields before it are readable. *)
Lemma get_user_config_sealed user_id w h :
  faulty w = false →
  redis w !! user_key user_id = Some (RHash h) →
  h ≠ ∅ →
  settings_readable h →
  sealed_otherwise cipher_suite (h !! "email") ∨
  credential_readable cipher_suite (h !! "email") ∧
  sealed_otherwise cipher_suite (h !! "password") →
  get_user_config cipher_suite user_id w =
    (Ok None,
     with_log (log w ++ caught user_id InvalidToken)
       (entered (HGETALL (user_key user_id)) w)).
Proof.
  intros Hf Hrec Hne Hset Hbad.
  rewrite get_user_config_unfold, try_except_unfold, bind_unfold, hgetall_unfold.
  rewrite Hf, Hrec, decide_False by done.
  rewrite (read_config_sealed h _ Hset Hbad), config_handler_unfold.
  unfold caught. simpl. by rewrite <- app_assoc.
Qed.

Lemma sealed_nonempty (h : gmap string string) field :
  sealed_otherwise cipher_suite (h !! field) → h ≠ ∅.
Proof. intros [Ht _] ->. by rewrite lookup_empty in Ht. Qed.

End ReadPath.

(** ** The mail dialogue and the counter, case by case *)

(** The ways the SMTP dialogue can go: the connection is refused, or the
    block runs up to its first refused step and is left through QUIT. *)
Lemma dialogue_scripts host port user pass msg w :
  let c := SmtpConnect host port in
  let l := SmtpLogin user pass in
  let m := SmtpSendMessage msg in
  ∃ r evs, dialogue host port user pass msg w = (r, with_trace (trace w ++ evs) w) ∧
    ((r = Raise (SMTPException c) ∧ evs = [c]) ∨
     ∃ rb body,
       ((rb = Raise (SMTPException SmtpStarttls) ∧ body = [SmtpStarttls]) ∨
        (rb = Raise (SMTPException l) ∧ body = [SmtpStarttls; l]) ∨
        (rb = Raise (SMTPException m) ∧ body = [SmtpStarttls; l; m]) ∨
        (rb = Ok () ∧ body = [SmtpStarttls; l; m])) ∧
       evs = c :: body ++ [SmtpQuit] ∧
       r = if smtp_peer w SmtpQuit then rb else Raise (SMTPException SmtpQuit)).
Proof.
  cbv zeta.
  unfold dialogue, with_SMTP, exit_SMTP, smtp_step.
  rewrite !bind_unfold. simpl.
  destruct (smtp_peer w (SmtpConnect host port)); simpl.
  2:{ eexists _, [_]. split; [reflexivity|]. by left. }
  rewrite !bind_unfold. simpl.
  destruct (smtp_peer w SmtpStarttls); simpl.
  2:{ destruct (smtp_peer w SmtpQuit); eexists _, _;
        (split; [norm_trace|]); right; eexists _, _;
        (split; [by left|]); split; reflexivity. }
  rewrite !bind_unfold. simpl.
  destruct (smtp_peer w (SmtpLogin user pass)); simpl.
  2:{ destruct (smtp_peer w SmtpQuit); eexists _, _;
        (split; [norm_trace|]); right; eexists _, _;
        (split; [right; by left|]); split; reflexivity. }
  destruct (smtp_peer w (SmtpSendMessage msg)); simpl.
  - destruct (smtp_peer w SmtpQuit); eexists _, _;
      (split; [norm_trace|]); right; eexists _, _;
      (split; [by repeat right|]); split; reflexivity.
  - destruct (smtp_peer w SmtpQuit); eexists _, _;
      (split; [norm_trace|]); right; eexists _, _;
      (split; [right; right; by left|]); split; reflexivity.
Qed.

Lemma counter_range db key n :
  counter db key = Some n → Redis.int64_min ≤ n ≤ Redis.int64_max.
Proof.
  unfold counter. destruct (db !! key) as [[s|h]|].
  - intros H. apply int64_of_string_inv in H as [_ H]. exact H.
  - intros H. discriminate H.
  - intros [= <-]. unfold Redis.int64_min, Redis.int64_max. lia.
Qed.

Lemma counter_after_incr db key n :
  counter db key = Some n → n < Redis.int64_max →
  counter (<[key := RString (Py.str_of_int (n + 1))]> db) key = Some (n + 1).
Proof.
  intros Hn Hlt. apply counter_range in Hn.
  unfold counter. rewrite lookup_insert_eq. apply int64_of_string_str. lia.
Qed.

(** The outcome of [track_stat], case by case. *)
Lemma track_stat_unfold metric w :
  track_stat metric w =
  let w1 := entered (INCR (stat metric)) w in
  let failed (e : exn) :=
    (Ok (), with_log (log w ++ [(ERROR, "Stat tracking error: " +:+ exn_str e)]) w1) in
  if faulty w then failed ConnectionError
  else match counter (redis w) (stat metric) with
       | Some n =>
         if n <? Redis.int64_max
         then (Ok (), with_redis
                        (<[stat metric := RString (Py.str_of_int (n + 1))]> (redis w)) w1)
         else failed (ResponseError "increment or decrement would overflow")
       | None =>
         failed match redis w !! stat metric with
                | Some (RHash _) => Redis.wrongtype
                | _ => ResponseError "value is not an integer or out of range"
                end
       end.
Proof.
  unfold track_stat. rewrite try_except_unfold, bind_unfold.
  fold (stat metric). rewrite incr_unfold. cbv zeta.
  destruct (faulty w); [reflexivity|].
  destruct (counter (redis w) (stat metric)) as [n|]; [|reflexivity].
  destruct (n <? Redis.int64_max); reflexivity.
Qed.

(** The dialogue starts with the connection, and what it raises is an SMTP
    error. *)
Lemma dialogue_head host port user pass msg w :
  ∃ r evs,
    dialogue host port user pass msg w =
      (r, with_trace (trace w ++ SmtpConnect host port :: evs) w) ∧
    ∀ e, r = Raise e → ∃ ev, e = SMTPException ev.
Proof.
  destruct (dialogue_scripts host port user pass msg w) as (r & evs & Hrun & Hcases).
  cbv zeta in Hcases.
  destruct Hcases as [[-> ->]|(rb & body & Hbody & -> & ->)].
  - eexists _, []. split; [exact Hrun|]. intros e [= <-]. by eexists.
  - eexists _, _. split; [exact Hrun|]. intros e.
    destruct (smtp_peer w SmtpQuit); [|intros [= <-]; by eexists].
    destruct Hbody as [[-> _]|[[-> _]|[[-> _]|[-> _]]]];
      intros [= <-]; by eexists.
Qed.

(** * The claims *)

Import Scenario.

(** ** C1: the attachment ceiling *)

(** For the configured user 42 and a mail server that accepts everything,
    [send_email] succeeds whatever the attachments are: their size is never
    looked at. *)
Lemma send_email_any_size attachments :
  let r := send_email (L := RefFernet.lib) key_a 42 "b@example.com" "Hi" "body"
             attachments configured in
  fst r = Ok () ∧
  trace (snd r) =
    [RedisCall (HGETALL "user:42:email_config");
     SmtpConnect "smtp.example.com" 587; SmtpStarttls;
     SmtpLogin (Some "a@example.com") (Some "secret");
     SmtpSendMessage
       {| msg_subject := "Hi"; msg_from := Some "a@example.com";
          msg_to := "b@example.com";
          msg_parts :=
            TextPart "body" :: (attachment_part <$> default [] attachments) |};
     SmtpQuit; RedisCall (INCR "bot:stats:emails_sent")].
Proof. vm_compute. split; reflexivity. Qed.

Lemma total_size_single f :
  total_size (Some [f]) = Z.of_nat (String.length (content f)).
Proof. unfold total_size. simpl. lia. Qed.

(** C1.  The claim asks that attachments totalling more than 20 MiB be
    rejected before any send.  [main.py] declares [MAX_ATTACHMENT_SIZE] and
    never consults it: a single attachment of 20 MiB + 1 byte, handed to
    [send_email] for the configured user 42, is composed into the message,
    transmitted to the mail server, and the call succeeds. *)
Theorem send_email_accepts_oversized :
  total_size (Some [oversized]) = MAX_ATTACHMENT_SIZE + 1 ∧
  let r := send_email (L := RefFernet.lib) key_a 42 "b@example.com" "Hi" "body"
             (Some [oversized]) configured in
  fst r = Ok () ∧
  SmtpSendMessage
    {| msg_subject := "Hi"; msg_from := Some "a@example.com";
       msg_to := "b@example.com";
       msg_parts := [TextPart "body"; attachment_part oversized] |}
    ∈ trace (snd r).
Proof.
  split.
  - rewrite total_size_single. unfold oversized. cbn [content].
    rewrite length_fit, Z2Nat.id by (unfold MAX_ATTACHMENT_SIZE; lia).
    reflexivity.
  - destruct (send_email_any_size (Some [oversized])) as [Hok Htrace].
    split; [exact Hok|]. rewrite Htrace.
    do 4 apply list_elem_of_further. apply list_elem_of_here.
Qed.

(** ** C2: decryption errors on the read path *)

(** C2, as written, fails.  User 42's stored email is not a token
    ([malformed]) or the stored password was sealed under another key
    ([foreign]): [decrypt_data] raises InvalidToken, and [get_user_config]
    returns [None] (absent) in place of propagating it. *)
Lemma get_user_config_malformed_counterexample :
  redis malformed !! user_key 42 =
    Some (RHash (record "garbage" (RefFernet.encrypt key_a "" "secret") "configured")) ∧
  fst (decrypt_data (L := RefFernet.lib) key_a "garbage" malformed) = Raise InvalidToken ∧
  fst (get_user_config (L := RefFernet.lib) key_a 42 malformed) = Ok None ∧
  fst (get_user_config (L := RefFernet.lib) key_a 42 foreign) = Ok None.
Proof. vm_compute. repeat split; reflexivity. Qed.

(** C2, amended.  When the stored record of a user holds an email or
    password ciphertext that does not open under the process key,
    [decrypt_data] logs 'Decryption error: ' and raises InvalidToken to its
    caller, and [get_user_config] catches what was raised: it logs 'Config
    error for <id>: ...', returns [None] and leaves the database as it
    was.  What it catches is that InvalidToken, so that both records are
    logged, whenever the fields read before the credential are readable. *)
Theorem get_user_config_absorbs_decryption_error
    {L : FernetLib} (cipher_suite : fernet) user_id w h :
  redis w !! user_key user_id = Some (RHash h) →
  sealed_otherwise cipher_suite (h !! "email") ∨
  sealed_otherwise cipher_suite (h !! "password") →
  (∀ tok w0, decrypt cipher_suite tok = None →
     ∃ w1, decrypt_data cipher_suite tok w0 = (Raise InvalidToken, w1) ∧
       log w1 = log w0 ++ [(ERROR, "Decryption error: ")] ∧
       redis w1 = redis w0) ∧
  ∃ w' detail,
    let absorbed :=
      (ERROR, "Config error for " +:+ Py.str_of_int user_id +:+ ": " +:+ detail) in
    get_user_config cipher_suite user_id w = (Ok None, w') ∧
    redis w' = redis w ∧
    (log w' = log w ++ [absorbed] ∨
     log w' = log w ++ [(ERROR, "Decryption error: "); absorbed]) ∧
    (faulty w = false →
     settings_readable h →
     sealed_otherwise cipher_suite (h !! "email") ∨
     credential_readable cipher_suite (h !! "email") →
     log w' = log w ++ [(ERROR, "Decryption error: "); absorbed]).
Proof.
  intros Hrec Hbad. split.
  { intros tok w0 Htok. rewrite decrypt_data_unfold, Htok.
    eexists. split; [reflexivity|]. by split. }
  assert (Hne : h ≠ ∅) by (destruct Hbad; by eapply sealed_nonempty).
  destruct (get_user_config_cases cipher_suite user_id w)
    as [(c & Hc & _)|[(_ & Hno & _)|(e & Hrun)]].
  - exfalso. destruct Hc as (_ & h' & Hh' & _ & Hr & _).
    assert (h' = h) as -> by congruence.
    destruct Hr as (_ & _ & _ & _ & He & Hp & _).
    unfold opens, sealed_otherwise in *.
    destruct Hbad as [[Ht Hn]|[Ht Hn]]; rewrite Ht in *.
    + destruct He as (? & ? & _). congruence.
    + destruct Hp as (? & ? & _). congruence.
  - exfalso. destruct Hno as [Hno|Hno]; rewrite Hrec in Hno; [done|].
    by injection Hno as ->.
  - eexists _, (exn_str e). cbv zeta. split; [exact Hrun|]. split; [done|].
    split.
    { simpl. unfold caught. destruct (is_InvalidToken e) eqn:He; [|by left].
      right. by destruct e. }
    intros Hf Hset Hemail.
    assert (Hcase : sealed_otherwise cipher_suite (h !! "email") ∨
                    credential_readable cipher_suite (h !! "email") ∧
                    sealed_otherwise cipher_suite (h !! "password")).
    { destruct Hemail as [He|He]; [by left|].
      destruct Hbad as [Hb|Hb]; [by left|by right]. }
    rewrite (get_user_config_sealed cipher_suite user_id w h Hf Hrec Hne Hset Hcase)
      in Hrun.
    injection Hrun as Hw. apply app_inv_head in Hw. symmetry in Hw.
    apply caught_InvalidToken in Hw. by subst e.
Qed.

Lemma get_user_config_absorbs_witness :
  let h := record "garbage" (RefFernet.encrypt key_a "" "secret") "configured" in
  redis malformed !! user_key 42 = Some (RHash h) ∧
  sealed_otherwise (L := RefFernet.lib) key_a (h !! "email") ∧
  ∃ w' detail,
    get_user_config (L := RefFernet.lib) key_a 42 malformed = (Ok None, w') ∧
    redis w' = redis malformed ∧
    log w' = [(ERROR, "Decryption error: ");
              (ERROR, "Config error for 42: " +:+ detail)].
Proof.
  intros h.
  assert (Hrec : redis malformed !! user_key 42 = Some (RHash h))
    by (vm_compute; reflexivity).
  assert (Hbad : sealed_otherwise (L := RefFernet.lib) key_a (h !! "email"))
    by (split; vm_compute; reflexivity).
  split; [exact Hrec|]. split; [exact Hbad|].
  destruct (get_user_config_absorbs_decryption_error (L := RefFernet.lib)
              key_a 42 malformed h Hrec (or_introl Hbad))
    as (_ & w' & detail & Hrun & Hdb & _ & Hlog).
  exists w', detail. split; [exact Hrun|]. split; [exact Hdb|].
  apply Hlog; [reflexivity| |by left].
  repeat split; try (vm_compute; reflexivity); eexists; vm_compute; reflexivity.
Defined.

(** ** C3: the precondition of [send_email] *)

(** C3, as written, fails.  User 42 has a record whose [mode] is empty, not
    'configured', and whose [smtp_server] is set: [send_email] does not
    fail, it connects to the mail server, sends and counts the message. *)
Lemma send_email_unmarked_counterexample :
  redis unmarked !! user_key 42 =
    Some (RHash (record (RefFernet.encrypt key_a "" "a@example.com")
                        (RefFernet.encrypt key_a "" "secret") "")) ∧
  let r := send_email (L := RefFernet.lib) key_a 42 "b@example.com" "Hi" "body"
             None unmarked in
  fst r = Ok () ∧
  SmtpConnect "smtp.example.com" 587 ∈ trace (snd r) ∧
  redis (snd r) !! "bot:stats:emails_sent" = Some (RString "1").
Proof.
  split; [vm_compute; reflexivity|].
  vm_compute. split; [reflexivity|]. split; [|reflexivity].
  apply list_elem_of_further, list_elem_of_here.
Qed.

(** C3, amended.  [send_email] fails with Exception('SMTP not configured')
    after its one HGETALL, sending nothing to the mail server and leaving
    the database, hence the [emails_sent] counter, unchanged, whenever the
    user has no usable record: the connection fails, no record exists, the
    key holds no hash, or the record is empty, cannot be read or reads with
    an empty [smtp_server].  In every other case, a record that reads as a
    dict with a non-empty [smtp_server], whatever its [mode] is, the call is
    not refused: it goes on to connect to the server of the record. *)
Theorem send_email_not_configured
    {L : FernetLib} (cipher_suite : fernet) user_id to subject body attachments w :
  (faulty w = true ∨
   redis w !! user_key user_id = None ∨
   (∃ s, redis w !! user_key user_id = Some (RString s)) ∨
   (∃ h, redis w !! user_key user_id = Some (RHash h) ∧
         ∀ c, readable cipher_suite h c → smtp_server c = "") →
   ∃ w', send_email cipher_suite user_id to subject body attachments w =
           (Raise (PlainException "SMTP not configured"), w') ∧
     trace w' = trace w ++ [RedisCall (HGETALL (user_key user_id))] ∧
     redis w' = redis w) ∧
  (∀ c, config_in cipher_suite user_id w c → smtp_server c ≠ "" →
   ∃ r w' evs,
     send_email cipher_suite user_id to subject body attachments w = (r, w') ∧
     r ≠ Raise (PlainException "SMTP not configured") ∧
     trace w' = trace w ++
       RedisCall (HGETALL (user_key user_id)) ::
       SmtpConnect (smtp_server c) (smtp_port c) :: evs).
Proof.
  split.
  - intros Hno. rewrite send_email_unfold.
    destruct (get_user_config_cases cipher_suite user_id w)
      as [(c & Hc & ->)|[(_ & _ & ->)|(e & ->)]]; [|by eexists..].
    destruct Hc as (Hf & h & Hh & _ & Hr).
    destruct Hno as [Hno|[Hno|[[s Hno]|(h' & Hh' & Hall)]]]; try congruence.
    assert (h' = h) as -> by congruence.
    rewrite (Hall c Hr). by eexists.
  - intros c Hc Hsrv. rewrite send_email_unfold.
    rewrite (get_user_config_ok cipher_suite user_id w c Hc).
    rewrite (truthy_nonempty _ Hsrv).
    set (w1 := entered _ w).
    destruct (dialogue_head (smtp_server c) (smtp_port c) (email c) (password c)
                (compose_message c to subject body attachments) w1)
      as (r & evs & -> & Hr).
    destruct r as [[]|e].
    + match goal with
      | |- context [track_stat "emails_sent" ?w2] =>
        destruct (track_stat_spec "emails_sent" w2) as (w' & -> & Ht & _)
      end.
      eexists _, _, _. split; [reflexivity|]. split; [done|].
      rewrite Ht. simpl. rewrite <- !app_assoc. reflexivity.
    + destruct (Hr e eq_refl) as [ev ->].
      eexists _, _, _. split; [reflexivity|]. split; [done|].
      simpl. rewrite <- !app_assoc. reflexivity.
Qed.

Lemma send_email_not_configured_witness :
  (∃ w', send_email (L := RefFernet.lib) key_a 42 "b@example.com" "Hi" "body" None quiet =
           (Raise (PlainException "SMTP not configured"), w') ∧
     trace w' = trace quiet ++ [RedisCall (HGETALL (user_key 42))] ∧
     redis w' = redis quiet) ∧
  (∃ w', send_email (L := RefFernet.lib) key_a 42 "b@example.com" "Hi" "body" None
           malformed =
           (Raise (PlainException "SMTP not configured"), w') ∧
     trace w' = trace malformed ++ [RedisCall (HGETALL (user_key 42))] ∧
     redis w' = redis malformed) ∧
  ∃ r w' evs,
    send_email (L := RefFernet.lib) key_a 42 "b@example.com" "Hi" "body" None
      unmarked = (r, w') ∧
    r ≠ Raise (PlainException "SMTP not configured") ∧
    trace w' = trace unmarked ++
      RedisCall (HGETALL (user_key 42)) :: SmtpConnect "smtp.example.com" 587 :: evs.
Proof.
  split; [|split].
  - apply (proj1 (send_email_not_configured (L := RefFernet.lib) key_a 42
                    "b@example.com" "Hi" "body" None quiet)).
    right. left. reflexivity.
  - apply (proj1 (send_email_not_configured (L := RefFernet.lib) key_a 42
                    "b@example.com" "Hi" "body" None malformed)).
    right. right. right.
    exists (record "garbage" (RefFernet.encrypt key_a "" "secret") "configured").
    split; [vm_compute; reflexivity|].
    intros c ((_ & _ & _ & _ & He & _) & _). exfalso.
    unfold opens in He.
    change (truthy_opt (record "garbage" (RefFernet.encrypt key_a "" "secret")
                          "configured" !! "email")) with true in He.
    destruct He as (data & Hd & _). vm_compute in Hd. discriminate Hd.
  - apply (proj2 (send_email_not_configured (L := RefFernet.lib) key_a 42
                    "b@example.com" "Hi" "body" None unmarked)
             {| smtp_server := "smtp.example.com"; smtp_port := 587;
                imap_server := "imap.example.com"; imap_port := 993;
                email := Some "a@example.com"; password := Some "secret";
                mode := "" |}); [|discriminate].
    split; [reflexivity|].
    exists (record (RefFernet.encrypt key_a "" "a@example.com")
                   (RefFernet.encrypt key_a "" "secret") "").
    split; [vm_compute; reflexivity|]. split; [apply insert_non_empty|].
    split.
    + repeat split; try (vm_compute; reflexivity).
      * exists "a@example.com". split; vm_compute; reflexivity.
      * exists "secret". split; vm_compute; reflexivity.
    + repeat split; try reflexivity; intros data [= <-]; reflexivity.
Defined.

(** ** C4: completeness of the conversation state machine *)

(** C4.  From [Idle], with Redis reachable, the 'configure' event followed
    by six well-formed inputs (SMTP server, SMTP port, IMAP server, IMAP
    port, email, password) is answered by the six prompts and the
    confirmation; the Config Store then holds the user's record with
    [mode = configured], the four settings as entered and the two
    credentials sealed under the process key; the PendingSetup record is
    gone and the user is back in [Idle]. *)
Theorem six_inputs_configure
    {L : FernetLib} {HL : FernetLaws L} (cipher_suite : fernet) key
    user_id w server port imap iport email password :
  new key = Some cipher_suite →
  current_state user_id w = Idle →
  reliable w →
  valid_port port = true → valid_port iport = true →
  Py.utf8_valid email = true → Py.utf8_valid password = true →
  ∃ w' enc_email enc_password,
    drive cipher_suite user_id
      [Configure; Text server; Text port; Text imap; Text iport;
       Text email; Text password] w =
      (Ok [Prompt AwaitingSmtpServer; Prompt AwaitingSmtpPort;
           Prompt AwaitingImapServer; Prompt AwaitingImapPort;
           Prompt AwaitingEmail; Prompt AwaitingPassword; Configured], w') ∧
    redis w' !! user_key user_id =
      Some (RHash (committed server port imap iport enc_email enc_password)) ∧
    committed server port imap iport enc_email enc_password !! "mode" =
      Some "configured" ∧
    decrypt cipher_suite enc_email = Some email ∧
    decrypt cipher_suite enc_password = Some password ∧
    redis w' !! temp_data_key user_id = None ∧
    current_state user_id w' = Idle.
Proof.
  intros Hkey _ Hrel Hport Hiport Hemail Hpassword.
  destruct (step_configure cipher_suite user_id w Hrel)
    as (w1 & Hrun1 & Hrel1 & Hd1).
  apply draft_insert in Hd1 as [Hd1 _].
  destruct (step_accepts cipher_suite user_id server w1 _
              "smtp_server" "smtp_port" AwaitingSmtpPort false
              ltac:(in_table) Hrel1 Hd1 ltac:(by simplify_map_eq) ltac:(done))
    as (w2 & Hrun2 & Hrel2 & Hd2).
  destruct (step_accepts cipher_suite user_id port w2 _
              "smtp_port" "imap_server" AwaitingImapServer true
              ltac:(in_table) Hrel2 Hd2
              ltac:(by rewrite lookup_accepted) ltac:(done))
    as (w3 & Hrun3 & Hrel3 & Hd3).
  destruct (step_accepts cipher_suite user_id imap w3 _
              "imap_server" "imap_port" AwaitingImapPort false
              ltac:(in_table) Hrel3 Hd3
              ltac:(by rewrite lookup_accepted) ltac:(done))
    as (w4 & Hrun4 & Hrel4 & Hd4).
  destruct (step_accepts cipher_suite user_id iport w4 _
              "imap_port" "email" AwaitingEmail true
              ltac:(in_table) Hrel4 Hd4
              ltac:(by rewrite lookup_accepted) ltac:(done))
    as (w5 & Hrun5 & Hrel5 & Hd5).
  destruct (step_accepts cipher_suite user_id email w5 _
              "email" "password" AwaitingPassword false
              ltac:(in_table) Hrel5 Hd5
              ltac:(by rewrite lookup_accepted) ltac:(done))
    as (w6 & Hrun6 & Hrel6 & Hd6).
  destruct (step_commits cipher_suite key Hkey user_id password w6 _ Hrel6 Hd6
              ltac:(by rewrite lookup_accepted)
              ltac:(by rewrite lookup_accepted)
              Hpassword)
    as (w7 & enc_email & enc_password & Hrun7 & Hdec_e & Hdec_p & Hrec & Htemp).
  repeat (rewrite !lookup_accepted in Hrec, Hdec_e;
          repeat (case_decide; try done)).
  simpl in Hrec, Hdec_e.
  exists w7, enc_email, enc_password.
  split.
  { rewrite drive_cons, Hrun1, drive_cons, Hrun2, drive_cons, Hrun3,
      drive_cons, Hrun4, drive_cons, Hrun5, drive_cons, Hrun6,
      drive_cons, Hrun7.
    reflexivity. }
  split; [exact Hrec|]. split; [by simplify_map_eq|].
  split; [exact Hdec_e|]. split; [exact Hdec_p|]. split; [exact Htemp|].
  unfold current_state. by rewrite Htemp.
Qed.

Lemma reliable_quiet : reliable quiet.
Proof. intros b Hb. by apply elem_of_nil in Hb. Defined.

Lemma six_inputs_configure_witness :
  new (FernetLib := RefFernet.lib) key_a = Some key_a ∧
  current_state 42 quiet = Idle ∧
  reliable quiet ∧
  valid_port "587" = true ∧ valid_port "993" = true ∧
  Py.utf8_valid "a@example.com" = true ∧ Py.utf8_valid "secret" = true ∧
  ∃ w' enc_email enc_password,
    drive (L := RefFernet.lib) key_a 42 six_inputs quiet =
      (Ok [Prompt AwaitingSmtpServer; Prompt AwaitingSmtpPort;
           Prompt AwaitingImapServer; Prompt AwaitingImapPort;
           Prompt AwaitingEmail; Prompt AwaitingPassword; Configured], w') ∧
    redis w' !! user_key 42 =
      Some (RHash (committed "smtp.example.com" "587" "imap.example.com" "993"
                             enc_email enc_password)) ∧
    committed "smtp.example.com" "587" "imap.example.com" "993"
              enc_email enc_password !! "mode" = Some "configured" ∧
    decrypt (FernetLib := RefFernet.lib) key_a enc_email = Some "a@example.com" ∧
    decrypt (FernetLib := RefFernet.lib) key_a enc_password = Some "secret" ∧
    redis w' !! temp_data_key 42 = None ∧
    current_state 42 w' = Idle.
Proof.
  repeat (split; [reflexivity || exact reliable_quiet|]).
  exact (six_inputs_configure (HL := ref_laws) key_a key_a 42 quiet
           "smtp.example.com" "587" "imap.example.com" "993"
           "a@example.com" "secret"
           eq_refl eq_refl reliable_quiet eq_refl eq_refl eq_refl eq_refl).
Defined.

(** Scenario B: after the six inputs, [get_user_config] returns the record
    with [mode = configured] and the email in clear. *)
Example scenario_b :
  fst (get_user_config (L := RefFernet.lib) key_a 42
         (snd (drive (L := RefFernet.lib) key_a 42 six_inputs quiet))) =
  Ok (Some {| smtp_server := "smtp.example.com"; smtp_port := 587;
              imap_server := "imap.example.com"; imap_port := 993;
              email := Some "a@example.com"; password := Some "secret";
              mode := "configured" |}).
Proof. vm_compute. reflexivity. Qed.

(** A port that is not a number re-prompts and leaves the draft alone. *)
Example bad_port_is_refused :
  let w := snd (drive (L := RefFernet.lib) key_a 42
                  [Configure; Text "smtp.example.com"] quiet) in
  let r := step (L := RefFernet.lib) key_a 42 (Text "five") w in
  fst r = Ok InputValidationError ∧ redis (snd r) = redis w ∧
  current_state 42 (snd r) = AwaitingSmtpPort.
Proof. vm_compute. repeat split; reflexivity. Qed.

(** ** C5: the round trip *)




(** A key with another signing half is refused. *)
Example foreign_key_is_refused :
  fst (decrypt_data (L := RefFernet.lib) key_b
         (RefFernet.encrypt key_a "" "secret") quiet) = Raise InvalidToken.
Proof. reflexivity. Qed.

(** ** C6: counting sent mail *)

(** C6, as written, fails.  User 42 is configured and the mail server
    accepts the message, but the Redis connection drops on the increment:
    [send_email] succeeds and the [emails_sent] counter is not
    incremented. *)
Lemma send_email_flaky_counterexample :
  let r := send_email (L := RefFernet.lib) key_a 42 "b@example.com" "Hi" "body"
             None flaky in
  fst r = Ok () ∧
  SmtpQuit ∈ trace (snd r) ∧
  counter (redis flaky) (stat "emails_sent") = Some 0 ∧
  counter (redis (snd r)) (stat "emails_sent") = Some 0 ∧
  ∃ detail, log (snd r) = [(ERROR, "Stat tracking error: " +:+ detail)].
Proof.
  cbv zeta. split; [vm_compute; reflexivity|].
  split; [apply list_elem_of_In; vm_compute; tauto|].
  split; [vm_compute; reflexivity|]. split; [vm_compute; reflexivity|].
  eexists. vm_compute. reflexivity.
Qed.

(** C6, amended.  A successful [send_email] has issued, after the SMTP
    dialogue, exactly one increment of [emails_sent].  When that increment
    succeeds (the connection holds and the counter is an integer below the
    64-bit maximum) the counter has gone up by exactly one and nothing was
    logged; when it fails the database is as it was, the failure was logged
    as 'Stat tracking error: ...', and the call succeeds all the same.  A
    failing [send_email] leaves the database unchanged and issues no
    increment. *)
Theorem send_email_counter
    {L : FernetLib} (cipher_suite : fernet) user_id to subject body attachments w :
  let key := stat "emails_sent" in
  let not_recorded (w' : world) :=
    redis w' = redis w ∧
    ∃ detail, log w' = log w ++ [(ERROR, "Stat tracking error: " +:+ detail)] in
  match send_email cipher_suite user_id to subject body attachments w with
  | (Ok _, w') =>
    (∃ c, trace w' = trace w ++
            [RedisCall (HGETALL (user_key user_id));
             SmtpConnect (smtp_server c) (smtp_port c); SmtpStarttls;
             SmtpLogin (email c) (password c);
             SmtpSendMessage (compose_message c to subject body attachments);
             SmtpQuit; RedisCall (INCR key)]) ∧
    match (if faulty (entered (HGETALL (user_key user_id)) w) then None
           else counter (redis w) key) with
    | Some n =>
      if n <? Redis.int64_max
      then counter (redis w') key = Some (n + 1) ∧
           redis w' = <[key := RString (Py.str_of_int (n + 1))]> (redis w) ∧
           log w' = log w
      else not_recorded w'
    | None => not_recorded w'
    end
  | (Raise _, w') =>
    redis w' = redis w ∧
    ∃ evs, trace w' = trace w ++ evs ∧ ∀ key, RedisCall (INCR key) ∉ evs
  end.
Proof.
  cbv zeta. rewrite send_email_unfold.
  assert (Hno : ∀ key, RedisCall (INCR key) ∉ [RedisCall (HGETALL (user_key user_id))]).
  { intros key H%list_elem_of_singleton. discriminate H. }
  destruct (get_user_config_cases cipher_suite user_id w)
    as [(c & _ & ->)|[(_ & _ & ->)|(e & ->)]];
    [|split; [done|by eexists]..].
  destruct (Py.truthy (smtp_server c)); [|split; [done|by eexists]].
  set (w1 := entered _ w).
  destruct (dialogue_spec (smtp_server c) (smtp_port c) (email c) (password c)
              (compose_message c to subject body attachments) w1)
    as (r & evs & -> & Hsmtp & Hok).
  destruct r as [[]|e].
  - rewrite (Hok () eq_refl), track_stat_unfold. cbv zeta.
    match goal with
    | |- context [faulty (with_trace ?t w1)] =>
      change (faulty (with_trace t w1)) with (faulty w1);
      change (redis (with_trace t w1)) with (redis w)
    end.
    destruct (faulty w1).
    { split; [exists c; simpl; by rewrite <- !app_assoc|]. split; [done|by eexists]. }
    destruct (counter (redis w) (stat "emails_sent")) as [n|] eqn:Hn.
    + destruct (Z.ltb_spec n Redis.int64_max).
      * split; [exists c; simpl; by rewrite <- !app_assoc|].
        split; [by apply counter_after_incr|done].
      * split; [exists c; simpl; by rewrite <- !app_assoc|].
        split; [done|by eexists].
    + split; [exists c; simpl; by rewrite <- !app_assoc|].
      split; [done|by eexists].
  - simpl. split; [done|]. exists ([RedisCall (HGETALL (user_key user_id))] ++ evs).
    split; [by rewrite <- app_assoc|].
    intros key [Hin|Hin]%elem_of_app; [by apply (Hno key)|].
    rewrite Forall_forall in Hsmtp. apply list_elem_of_In, Hsmtp in Hin.
    discriminate Hin.
Qed.

(** Scenario D: on the configured world the counter goes from 0 to 1. *)
Example scenario_d :
  let r := send_email (L := RefFernet.lib) key_a 42 "b@example.com" "Hi" "body"
             None configured in
  fst r = Ok () ∧
  counter (redis configured) (stat "emails_sent") = Some 0 ∧
  counter (redis (snd r)) (stat "emails_sent") = Some 1.
Proof. vm_compute. repeat split; reflexivity. Qed.

(** ** C7: idempotence of [setup_encryption] *)

(** C7.  Once [setup_encryption] has returned a key, from the database, the
    environment or a fresh generation, every later call returns that same
    key: after any number [n] of further calls, the next call returns the
    key of the first one whenever it returns a key, and it does return it
    (leaving the database alone) unless the Redis connection fails. *)
Theorem setup_encryption_idempotent
    {L : FernetLib} {HL : FernetLaws L} w (f1 : fernet) w1 n :
  setup_encryption w = (Ok f1, w1) →
  let wn := after_calls n w1 in
  (faulty wn = false →
   ∃ w', setup_encryption wn = (Ok f1, w') ∧ redis w' = redis wn) ∧
  (∀ f2 w', setup_encryption wn = (Ok f2, w') → f2 = f1).
Proof.
  intros Hrun wn.
  assert (Hset : settled f1 wn)
    by (apply settled_after_calls; by eapply setup_encryption_settles).
  destruct (settled_call f1 wn Hset) as (r & w' & Hcall & Hd & _ & Hr).
  split.
  - intros Hf. rewrite Hf in Hr. subst r. by exists w'.
  - intros f2 w'' Hcall'. rewrite Hcall in Hcall'. injection Hcall' as -> <-.
    destruct (faulty wn); [discriminate Hr|]. by injection Hr as ->.
Qed.

Lemma setup_encryption_idempotent_witness :
  let f1 : @fernet RefFernet.lib := "AAAAAAAAAAAAAAAAAAAAAAAAAAAAAAAAAAAAAAAAAAA=" in
  let w1 := snd (setup_encryption (L := RefFernet.lib) quiet) in
  let wn := after_calls (L := RefFernet.lib) 2 w1 in
  setup_encryption (L := RefFernet.lib) quiet = (Ok f1, w1) ∧
  (faulty wn = false →
   ∃ w', setup_encryption (L := RefFernet.lib) wn = (Ok f1, w') ∧
         redis w' = redis wn) ∧
  (∀ f2 w', setup_encryption (L := RefFernet.lib) wn = (Ok f2, w') → f2 = f1).
Proof.
  intros f1 w1 wn.
  assert (Hrun : setup_encryption (L := RefFernet.lib) quiet = (Ok f1, w1))
    by (vm_compute; reflexivity).
  split; [exact Hrun|].
  exact (setup_encryption_idempotent (HL := ref_laws) quiet f1 w1 2 Hrun).
Defined.

(** Two calls on an empty database: the first generates and persists a key,
    the second reads it back. *)
Example setup_twice :
  let first := setup_encryption (L := RefFernet.lib) quiet in
  let second := setup_encryption (L := RefFernet.lib) (snd first) in
  fst first = fst second ∧
  trace (snd second) =
    [RedisCall (GET "fernet_key");
     RedisCall (SET "fernet_key" "AAAAAAAAAAAAAAAAAAAAAAAAAAAAAAAAAAAAAAAAAAA=");
     RedisCall (GET "fernet_key")].
Proof. vm_compute. split; reflexivity. Qed.

(** ** C8: best-effort counters *)

(** C8.  [track_stat] returns normally in every world, whatever happens to
    the increment, so whatever follows it in the operation being measured
    runs; and reading a metric that was never recorded yields 0. *)
Theorem track_stat_is_best_effort :
  (∀ metric w, ∃ w', track_stat metric w = (Ok (), w')) ∧
  (∀ A metric (rest : M A) w, ∃ w', (track_stat metric;; rest) w = rest w') ∧
  (∀ metric w, faulty w = false → redis w !! stat metric = None →
     fst (read_stat metric w) = Ok (PyInt 0)).
Proof.
  split; [|split].
  - intros metric w. destruct (track_stat_spec metric w) as (w' & Hrun & _).
    by exists w'.
  - intros A metric rest w.
    destruct (track_stat_spec metric w) as (w' & Hrun & _).
    exists w'. by rewrite bind_unfold, Hrun.
  - intros metric w Hf Hnone. unfold read_stat. fold (stat metric).
    by rewrite bind_unfold, get_unfold, Hf, Hnone.
Qed.

Lemma track_stat_is_best_effort_witness :
  (∃ w', track_stat "emails_sent" (with_redis_faults [true] quiet) = (Ok (), w')) ∧
  faulty quiet = false ∧
  redis quiet !! stat "emails_sent" = None ∧
  fst (read_stat "emails_sent" quiet) = Ok (PyInt 0).
Proof.
  split; [exact (proj1 track_stat_is_best_effort "emails_sent" _)|].
  split; [reflexivity|]. split; [reflexivity|].
  exact (proj2 (proj2 track_stat_is_best_effort) "emails_sent" quiet eq_refl eq_refl).
Defined.

(** A connection that drops on the increment is logged, not raised. *)
Example track_stat_logs_failure :
  let r := track_stat "users_active" (with_redis_faults [true] quiet) in
  fst r = Ok () ∧
  log (snd r) = [(ERROR, "Stat tracking error: Error connecting to redis")].
Proof. vm_compute. split; reflexivity. Qed.

(** ** C9: the administrative allow-list *)

(** C9.  When the sender of a /logs or /users message is not in
    [ADMIN_IDS], the handler returns after a single outward call, the
    answer '⛔ Unauthorized': the log file is not opened, Redis is not
    queried, no statistics are reported and the database is unchanged. *)
Theorem admin_commands_refuse_strangers (ADMIN_IDS : list Z) ev w :
  sender_id ev ∉ ADMIN_IDS →
  (∃ w', logs_handler ADMIN_IDS ev w = (Ok (), w') ∧
     trace w' = trace w ++ [ChatRespond (chat_id ev) "⛔ Unauthorized"] ∧
     redis w' = redis w) ∧
  (∃ w', users_handler ADMIN_IDS ev w = (Ok (), w') ∧
     trace w' = trace w ++ [ChatRespond (chat_id ev) "⛔ Unauthorized"] ∧
     redis w' = redis w).
Proof.
  intros Hnot. split.
  - unfold logs_handler.
    match goal with
    | |- ∃ w', try_except (if _ then _ else ?rest) _ w = _ ∧ _ =>
      exact (refusal_spec ADMIN_IDS rest (λ e, "Logs error: " +:+ exn_str e) ev w Hnot)
    end.
  - unfold users_handler.
    match goal with
    | |- ∃ w', try_except (if _ then _ else ?rest) _ w = _ ∧ _ =>
      exact (refusal_spec ADMIN_IDS rest
               (λ e, "Users stats error: " +:+ exn_str e) ev w Hnot)
    end.
Qed.

Lemma stranger_is_no_admin : sender_id stranger ∉ admins.
Proof.
  intros H. unfold admins in H.
  repeat (apply elem_of_cons in H as [H|H]; [discriminate H|]).
  by apply elem_of_nil in H.
Defined.

Lemma admin_commands_refuse_strangers_witness :
  (sender_id stranger ∉ admins) ∧
  (∃ w', logs_handler admins stranger quiet = (Ok (), w') ∧
     trace w' = trace quiet ++ [ChatRespond (chat_id stranger) "⛔ Unauthorized"] ∧
     redis w' = redis quiet) ∧
  (∃ w', users_handler admins stranger quiet = (Ok (), w') ∧
     trace w' = trace quiet ++ [ChatRespond (chat_id stranger) "⛔ Unauthorized"] ∧
     redis w' = redis quiet).
Proof.
  split; [exact stranger_is_no_admin|].
  exact (admin_commands_refuse_strangers admins stranger quiet stranger_is_no_admin).
Defined.

(** An administrator is served: the log file is opened and sent. *)
Example admin_gets_logs :
  let w := snd (logs_handler admins {| sender_id := 1001; chat_id := 7 |} quiet) in
  trace w = [FileOpen "email_bot.log"] ∧
  log w = [(ERROR, "Logs error: [Errno 2] No such file or directory: 'email_bot.log'")].
Proof. vm_compute. split; reflexivity. Qed.

(** ** C10: the environment key is not persisted *)

(** C10, as written, fails in its last clause.  The environment holds the
    key that encodes 32 zero bytes and the entropy source yields 32 zero
    bytes: the first run returns the environment key and persists nothing,
    and the later run, without the variable, generates and returns that
    very key. *)
Lemma environment_key_reproduced_counterexample :
  let k := "AAAAAAAAAAAAAAAAAAAAAAAAAAAAAAAAAAAAAAAAAAA=" in
  let w := with_environ (<["ENCRYPTION_KEY" := k]> ∅) quiet in
  let first := setup_encryption (L := RefFernet.lib) w in
  let later := setup_encryption (L := RefFernet.lib) (with_environ ∅ (snd first)) in
  redis w !! "fernet_key" = None ∧
  fst first = Ok k ∧
  redis (snd first) !! "fernet_key" = None ∧
  fst later = Ok k.
Proof. vm_compute. repeat split; reflexivity. Qed.

(** C10, amended.  With no key in the database and a valid key (text
    that UTF-8 can encode) in ENCRYPTION_KEY, [setup_encryption] returns the
    environment key and leaves the database unchanged.  A later run on that
    database without the variable does not recover it: it generates a key
    from 32 fresh random bytes, persists that key and returns it.  The key
    of the later run is the environment key only when the random bytes
    encode it. *)
Theorem environment_key_not_persisted
    {L : FernetLib} {HL : FernetLaws L} w k (f : fernet) :
  faulty w = false →
  redis w !! "fernet_key" = None →
  environ w !! "ENCRYPTION_KEY" = Some k →
  Py.utf8_valid k = true →
  new k = Some f →
  ∃ w1, setup_encryption w = (Ok f, w1) ∧ redis w1 = redis w ∧
    ∀ w2, redis w2 = redis w1 → environ w2 !! "ENCRYPTION_KEY" = None →
      reliable w2 →
      ∃ f' w3, setup_encryption w2 = (Ok f', w3) ∧
        new (fresh_key w2) = Some f' ∧
        redis w3 = <["fernet_key" := RString (fresh_key w2)]> (redis w2) ∧
        (f' = f ↔ new (fresh_key w2) = new k).
Proof.
  intros Hf Hnone Henv _ Hk.
  destruct (setup_encryption_spec w) as (r & w1 & Hrun & _ & Hcase).
  unfold key_source_of, env_source in Hcase.
  rewrite Hf, Hnone, Henv, (new_truthy k f Hk) in Hcase.
  destruct Hcase as (-> & Hd & _).
  rewrite new_Fernet_unfold, Hk in Hrun. simpl in Hrun.
  exists w1. split; [exact Hrun|]. split; [exact Hd|].
  intros w2 Hd2 Henv2 Hrel.
  destruct (setup_encryption_spec w2) as (r & w3 & Hrun2 & _ & Hcase).
  unfold key_source_of, env_source in Hcase.
  rewrite (reliable_faulty _ Hrel), Hd2, Hd, Hnone, Henv2 in Hcase.
  rewrite (reliable_faulty _ (reliable_entered _ _ Hrel)) in Hcase.
  destruct Hcase as (-> & Hd3 & _).
  destruct (generate_key_ok (fit 32 (urandom w2 (drawn w2)))) as [f' Hf'];
    [apply length_fit|].
  fold (fresh_key w2) in Hf'.
  rewrite new_Fernet_unfold, Hf' in Hrun2. simpl in Hrun2.
  exists f', w3. split; [exact Hrun2|]. split; [exact Hf'|].
  split; [by rewrite Hd3, Hd2, Hd|].
  rewrite Hf', Hk. split; [by intros ->|by intros [= ->]].
Qed.

Lemma environment_key_not_persisted_witness :
  faulty with_env_key = false ∧
  redis with_env_key !! "fernet_key" = None ∧
  environ with_env_key !! "ENCRYPTION_KEY" = Some key_a ∧
  new (FernetLib := RefFernet.lib) key_a = Some key_a ∧
  ∃ w1, setup_encryption (L := RefFernet.lib) with_env_key = (Ok key_a, w1) ∧
    redis w1 = redis with_env_key ∧
    ∀ w2, redis w2 = redis w1 → environ w2 !! "ENCRYPTION_KEY" = None →
      reliable w2 →
      ∃ (f' : @fernet RefFernet.lib) w3,
        setup_encryption (L := RefFernet.lib) w2 = (Ok f', w3) ∧
        new (FernetLib := RefFernet.lib) (fresh_key (L := RefFernet.lib) w2) = Some f' ∧
        redis w3 =
          <["fernet_key" := RString (fresh_key (L := RefFernet.lib) w2)]> (redis w2) ∧
        (f' = key_a ↔
         new (FernetLib := RefFernet.lib) (fresh_key (L := RefFernet.lib) w2) =
         new (FernetLib := RefFernet.lib) key_a).
Proof.
  repeat (split; [reflexivity|]).
  exact (environment_key_not_persisted (HL := ref_laws) with_env_key key_a key_a
           eq_refl eq_refl eq_refl eq_refl eq_refl).
Defined.

(** On the scenario: the first run takes the environment key and writes
    nothing; a run without the variable persists a generated key. *)
Example environment_then_fresh :
  let first := setup_encryption (L := RefFernet.lib) with_env_key in
  let later := setup_encryption (L := RefFernet.lib)
                 (with_environ ∅ (snd first)) in
  fst first = Ok key_a ∧ redis (snd first) = ∅ ∧
  fst later = Ok "AAAAAAAAAAAAAAAAAAAAAAAAAAAAAAAAAAAAAAAAAAA=" ∧
  redis (snd later) !! "fernet_key" =
    Some (RString "AAAAAAAAAAAAAAAAAAAAAAAAAAAAAAAAAAAAAAAAAAA=").
Proof. vm_compute. repeat split; reflexivity. Qed.

(** * Further properties *)

(** ** Keys and the pattern of [users_handler] *)

Lemma str_of_int_inj z z' : Py.str_of_int z = Py.str_of_int z' → z = z'.
Proof.
  unfold Py.str_of_int. intros H.
  apply (f_equal NilZero.int_of_string) in H.
  destruct (to_int_proper z) as [? ?], (to_int_proper z') as [? ?].
  rewrite !NilZero.isi in H by assumption.
  injection H as H. by apply DecimalZ.to_int_inj.
Qed.

Lemma app_inj_r (a b s : string) : a +:+ s = b +:+ s → a = b.
Proof.
  revert b. induction a as [|c a IH]; intros [|d b] H; simpl in H.
  - reflexivity.
  - apply (f_equal String.length) in H. simpl in H.
    rewrite !length_app_string in H. simpl in H. lia.
  - apply (f_equal String.length) in H. simpl in H.
    rewrite !length_app_string in H. simpl in H. lia.
  - injection H as -> H. f_equal. by apply IH.
Qed.

Lemma user_key_inj u u' : user_key u = user_key u' → u = u'.
Proof.
  unfold user_key. intros H. apply String.app_inj in H.
  apply app_inj_r in H. by apply str_of_int_inj.
Qed.

Lemma temp_data_key_inj u u' : temp_data_key u = temp_data_key u' → u = u'.
Proof.
  unfold temp_data_key. intros H. apply String.app_inj in H.
  by apply str_of_int_inj.
Qed.

Lemma stat_inj m m' : stat m = stat m' → m = m'.
Proof. unfold stat, stats_key. intros H. by do 2 apply String.app_inj in H. Qed.

(** X1.  The Redis keys of [main.py] never collide: [user_key] and
    [temp_data_key] are injective in the user id, and no user record key,
    draft key, counter key or the key 'fernet_key' equals one of another
    kind. *)
Theorem redis_keys_apart u u' m :
  (user_key u = user_key u' ↔ u = u') ∧
  (temp_data_key u = temp_data_key u' ↔ u = u') ∧
  user_key u ≠ temp_data_key u' ∧
  user_key u ≠ stat m ∧ temp_data_key u ≠ stat m ∧
  user_key u ≠ "fernet_key" ∧ temp_data_key u ≠ "fernet_key" ∧
  stat m ≠ "fernet_key".
Proof.
  split; [split; [apply user_key_inj|by intros ->]|].
  split; [split; [apply temp_data_key_inj|by intros ->]|].
  unfold user_key, temp_data_key, stat, stats_key. simpl.
  repeat split; discriminate.
Qed.

Lemma glob_star_unfold p s :
  Redis.glob (String "*" p) s =
  Redis.glob p s ||
  match s with
  | String _ s' => Redis.glob (String "*" p) s'
  | EmptyString => false
  end.
Proof. destruct s; reflexivity. Qed.

Lemma glob_star p (s t : string) :
  Redis.glob p t = true → Redis.glob (String "*" p) (s +:+ t) = true.
Proof.
  intros Ht. induction s as [|c s IH].
  - change ("" +:+ t) with t. by rewrite glob_star_unfold, Ht.
  - change (String c s +:+ t) with (String c (s +:+ t)).
    rewrite glob_star_unfold, IH. apply orb_true_r.
Qed.

Lemma glob_user_key_any u : Redis.glob "user:*:email_config" (user_key u) = true.
Proof.
  unfold user_key.
  change (Redis.glob "user:*:email_config" ("user:" +:+ Py.str_of_int u +:+ ":email_config"))
    with (Redis.glob "*:email_config" (Py.str_of_int u +:+ ":email_config")).
  by apply glob_star.
Qed.

(** X2.  The pattern 'user:*:email_config' that [users_handler]
    passes to KEYS matches the record key of every user and matches no
    draft key, no counter key and not 'fernet_key'. *)
Theorem users_pattern_selects_config_keys u m :
  Redis.glob "user:*:email_config" (user_key u) = true ∧
  Redis.glob "user:*:email_config" (temp_data_key u) = false ∧
  Redis.glob "user:*:email_config" (stat m) = false ∧
  Redis.glob "user:*:email_config" "fernet_key" = false.
Proof. split; [apply glob_user_key_any|by repeat split]. Qed.

Lemma count_users_perm (l l' : list (string * rvalue)) :
  l ≡ₚ l' →
  length (filter (λ k, Redis.glob "user:*:email_config" k = true) (fst <$> l)) =
  length (filter (λ k, Redis.glob "user:*:email_config" k = true) (fst <$> l')).
Proof. intros H. by rewrite H. Qed.

Lemma count_users_insert_new db key v :
  db !! key = None →
  count_users (<[key := v]> db) =
  ((if Redis.glob "user:*:email_config" key then 1 else 0) + count_users db)%nat.
Proof.
  intros Hnone. unfold count_users.
  rewrite (count_users_perm _ _ (map_to_list_insert db key v Hnone)).
  rewrite fmap_cons, filter_cons. simpl fst.
  destruct (Redis.glob "user:*:email_config" key) eqn:Hg.
  - rewrite decide_True by done. reflexivity.
  - rewrite decide_False by done. reflexivity.
Qed.

Lemma count_users_delete db key :
  Redis.glob "user:*:email_config" key = false →
  count_users (delete key db) = count_users db.
Proof.
  intros Hg. destruct (db !! key) as [v|] eqn:Hk.
  - rewrite <- (insert_delete_id db key v Hk) at 2.
    rewrite count_users_insert_new by apply lookup_delete_eq.
    by rewrite Hg.
  - by rewrite delete_id.
Qed.

Lemma count_users_insert_other db key v :
  Redis.glob "user:*:email_config" key = false →
  count_users (<[key := v]> db) = count_users db.
Proof.
  intros Hg. rewrite <- insert_delete_eq.
  rewrite count_users_insert_new by apply lookup_delete_eq.
  rewrite Hg. by apply count_users_delete.
Qed.

Lemma count_users_insert_record db u v :
  count_users (<[user_key u := v]> db) =
  match db !! user_key u with
  | None => S (count_users db)
  | Some _ => count_users db
  end.
Proof.
  pose proof (glob_user_key_any u) as Hg.
  destruct (db !! user_key u) as [v0|] eqn:Hk.
  - rewrite <- insert_delete_eq.
    rewrite count_users_insert_new by apply lookup_delete_eq.
    rewrite <- (insert_delete_id db (user_key u) v0 Hk) at 2.
    rewrite (count_users_insert_new (delete _ db)) by apply lookup_delete_eq.
    reflexivity.
  - rewrite count_users_insert_new by done. by rewrite Hg.
Qed.

(** X3.  The number [users_handler] reports as total users counts
    the user records: it is 0 on an empty database, goes up by one when a
    record is written for a user who had none, stays when a record is
    overwritten, goes down by one when a record is removed, and does not
    move when a key outside the pattern is written or removed. *)
Theorem total_users_counts_records db u v key :
  count_users ∅ = 0%nat ∧
  count_users (<[user_key u := v]> db) =
    match db !! user_key u with
    | None => S (count_users db)
    | Some _ => count_users db
    end ∧
  match db !! user_key u with
  | None => count_users (delete (user_key u) db) = count_users db
  | Some _ => S (count_users (delete (user_key u) db)) = count_users db
  end ∧
  match Redis.glob "user:*:email_config" key with
  | true => True
  | false => count_users (<[key := v]> db) = count_users db ∧
             count_users (delete key db) = count_users db
  end.
Proof.
  split; [reflexivity|]. split; [apply count_users_insert_record|]. split.
  - destruct (db !! user_key u) as [v0|] eqn:Hk.
    + rewrite <- (insert_delete_id db (user_key u) v0 Hk) at 2.
      rewrite count_users_insert_new by apply lookup_delete_eq.
      by rewrite glob_user_key_any.
    + by rewrite delete_id.
  - destruct (Redis.glob "user:*:email_config" key) eqn:Hg; [done|].
    split; [by apply count_users_insert_other|by apply count_users_delete].
Qed.

(** ** Counters *)

Lemma track_stat_footprint metric w key :
  key ≠ stat metric →
  redis (snd (track_stat metric w)) !! key = redis w !! key.
Proof.
  intros Hne. rewrite track_stat_unfold. cbv zeta.
  destruct (faulty w); [reflexivity|].
  destruct (counter (redis w) (stat metric)) as [n|]; [|reflexivity].
  destruct (n <? Redis.int64_max); [|reflexivity].
  simpl. by rewrite lookup_insert_ne.
Qed.

(** X4.  [track_stat] returns normally in every world, and its effect
    is determined by the counter: a readable counter below the 64-bit
    maximum goes up by one and nothing is logged; at the maximum, on a
    value that is no integer, on a hash or on a dropped connection the
    database is unchanged and one ERROR record 'Stat tracking error: ...'
    is logged. *)
Theorem track_stat_outcome metric w :
  ∃ w', track_stat metric w = (Ok (), w') ∧
    match (if faulty w then None else counter (redis w) (stat metric)) with
    | Some n =>
      if n <? Redis.int64_max
      then counter (redis w') (stat metric) = Some (n + 1) ∧ log w' = log w
      else redis w' = redis w ∧
           log w' = log w ++
             [(ERROR, "Stat tracking error: increment or decrement would overflow")]
    | None =>
      redis w' = redis w ∧
      ∃ msg, log w' = log w ++ [(ERROR, "Stat tracking error: " +:+ msg)]
    end.
Proof.
  rewrite track_stat_unfold. cbv zeta.
  destruct (faulty w).
  { eexists. split; [reflexivity|]. simpl. eauto. }
  destruct (counter (redis w) (stat metric)) as [n|] eqn:Hn.
  - destruct (Z.ltb_spec n Redis.int64_max).
    + eexists. split; [reflexivity|]. simpl. split; [|done].
      by apply counter_after_incr.
    + eexists. split; [reflexivity|]. done.
  - eexists. split; [reflexivity|]. simpl. eauto.
Qed.

(** X5.  [track_stat metric] changes no key but the counter of
    [metric]: every other counter, every user record and every draft is as
    before. *)
Theorem track_stat_touches_one_key metric w :
  let w' := snd (track_stat metric w) in
  (∀ key, key ≠ stat metric → redis w' !! key = redis w !! key) ∧
  (∀ other, other ≠ metric →
     counter (redis w') (stat other) = counter (redis w) (stat other)) ∧
  (∀ u, redis w' !! user_key u = redis w !! user_key u) ∧
  (∀ u, draft u w' = draft u w).
Proof.
  intros w'. split; [intros key; apply track_stat_footprint|].
  split; [|split].
  - intros other Hne. unfold counter. subst w'.
    rewrite track_stat_footprint; [done|]. intros H%stat_inj. done.
  - intros u. apply track_stat_footprint.
    unfold user_key, stat, stats_key. simpl. discriminate.
  - intros u. unfold draft. subst w'. rewrite track_stat_footprint; [done|].
    unfold temp_data_key, stat, stats_key. simpl. discriminate.
Qed.

Lemma track_stats_counts_gen n : ∀ metric w c,
  reliable w →
  counter (redis w) (stat metric) = Some c →
  c + Z.of_nat n ≤ Redis.int64_max →
  ∃ w', track_stats n metric w = (Ok (), w') ∧
    counter (redis w') (stat metric) = Some (c + Z.of_nat n) ∧
    reliable w' ∧ log w' = log w.
Proof.
  induction n as [|n IH]; intros metric w c Hrel Hc Hmax.
  - exists w. split; [reflexivity|]. rewrite Z.add_0_r. done.
  - cbn [track_stats]. rewrite bind_unfold, track_stat_unfold. cbv zeta.
    rewrite (reliable_faulty _ Hrel), Hc.
    destruct (Z.ltb_spec c Redis.int64_max); [|lia].
    set (w1 := with_redis _ _).
    destruct (IH metric w1 (c + 1)) as (w' & Hrun & Hc' & Hrel' & Hlog).
    + subst w1. auto with world.
    + subst w1. simpl. by apply counter_after_incr.
    + lia.
    + exists w'. split; [exact Hrun|]. split; [|done].
      rewrite Hc'. f_equal. lia.
Qed.

(** X6.  On a reliable connection [n] calls of [track_stat metric]
    raise the counter by exactly [n], as long as the 64-bit maximum is not
    passed, and log nothing. *)
Theorem track_stats_counts n metric w c :
  reliable w →
  counter (redis w) (stat metric) = Some c →
  c + Z.of_nat n ≤ Redis.int64_max →
  ∃ w', track_stats n metric w = (Ok (), w') ∧
    counter (redis w') (stat metric) = Some (c + Z.of_nat n) ∧
    log w' = log w.
Proof.
  intros Hrel Hc Hmax.
  destruct (track_stats_counts_gen n metric w c Hrel Hc Hmax)
    as (w' & Hrun & Hc' & _ & Hlog).
  by exists w'.
Qed.


Lemma track_stats_counts_witness :
  counter (redis quiet) (stat "emails_sent") = Some 0 ∧
  ∃ w', track_stats 3 "emails_sent" quiet = (Ok (), w') ∧
    counter (redis w') (stat "emails_sent") = Some 3 ∧
    log w' = log quiet.
Proof.
  split; [reflexivity|].
  apply (track_stats_counts 3 "emails_sent" quiet 0 reliable_quiet eq_refl).
  unfold Redis.int64_max. simpl. lia.
Defined.

Section ReadFacts.
Context {L : FernetLib}.
Variable cipher_suite : fernet.

(** [get_user_config], with the link from the dict to the stored hash. *)
Lemma get_user_config_source user_id w :
  ∃ r w', get_user_config cipher_suite user_id w = (Ok r, w') ∧
    log_only (entered (HGETALL (user_key user_id)) w) w' ∧
    ∀ c, r = Some c →
      faulty w = false ∧
      ∃ h, redis w !! user_key user_id = Some (RHash h) ∧
           read_from cipher_suite h c.
Proof.
  destruct (get_user_config_cases cipher_suite user_id w)
    as [(c & Hc & ->)|[(_ & _ & ->)|(e & ->)]].
  - eexists _, _. split; [reflexivity|]. split; [reflexivity|].
    intros ? [= <-]. destruct Hc as (Hf & h & Hh & _ & Hr & _).
    split; [done|]. by exists h.
  - eexists _, _. split; [reflexivity|]. split; [reflexivity|done].
  - eexists _, _. split; [reflexivity|]. split; [apply log_only_with_log|done].
Qed.

(** X7.  [get_user_config] never raises: it returns a dict or None,
    issues exactly one Redis call (HGETALL on the user's key), leaves the
    database untouched, and returns None when the user has no record or the
    connection fails. *)
Theorem get_user_config_never_raises user_id w :
  ∃ r w', get_user_config cipher_suite user_id w = (Ok r, w') ∧
    redis w' = redis w ∧
    trace w' = trace w ++ [RedisCall (HGETALL (user_key user_id))] ∧
    drawn w' = drawn w ∧
    (redis w !! user_key user_id = None → r = None) ∧
    (faulty w = true → r = None).
Proof.
  destruct (get_user_config_source user_id w) as (r & w' & Hrun & Hlog & Hres).
  exists r, w'. split; [exact Hrun|]. rewrite Hlog. simpl.
  repeat split; try done.
  - intros Hnone. destruct r as [c|]; [|done].
    destruct (Hres c eq_refl) as (_ & h & Hh & _). congruence.
  - intros Hf. destruct r as [c|]; [|done].
    destruct (Hres c eq_refl) as (Hf' & _). congruence.
Qed.

(** X8.  For a well-formed record (text fields valid UTF-8, ports
    that [int] accepts, which excludes literals of more than 4300 digits,
    credentials that open under the key to valid UTF-8)
    [get_user_config] returns the dict read off the record, field by field,
    and logs nothing. *)
Theorem get_user_config_reads_record user_id w h c :
  faulty w = false →
  redis w !! user_key user_id = Some (RHash h) →
  h ≠ ∅ →
  read_from cipher_suite h c →
  Py.utf8_valid (smtp_server c) = true → Py.utf8_valid (imap_server c) = true →
  Py.utf8_valid (mode c) = true →
  (∀ data, email c = Some data → Py.utf8_valid data = true) →
  (∀ data, password c = Some data → Py.utf8_valid data = true) →
  get_user_config cipher_suite user_id w =
    (Ok (Some c), entered (HGETALL (user_key user_id)) w).
Proof.
  intros Hf Hrec Hne Hread Hvs Hvi Hvm Hve Hvp.
  apply get_user_config_ok. split; [exact Hf|]. exists h.
  split; [exact Hrec|]. split; [exact Hne|]. split; [exact Hread|].
  exact (conj Hvs (conj Hvi (conj Hvm (conj Hve Hvp)))).
Qed.

(** X9.  A record whose 'smtp_port' is not an integer literal makes
    [get_user_config] return None and log one ERROR record 'Config error
    for <id>: ' followed by the text of the ValueError (of which the model
    keeps 'invalid literal for int() with base 10', without the literal);
    the ValueError does not reach the caller. *)
Theorem get_user_config_rejects_bad_port user_id w h port :
  faulty w = false →
  redis w !! user_key user_id = Some (RHash h) →
  Py.utf8_valid (default "" (h !! "smtp_server")) = true →
  h !! "smtp_port" = Some port →
  Py.int_of_bytes port = None →
  get_user_config cipher_suite user_id w =
    (Ok None,
     with_log (log w ++ [(ERROR, "Config error for " +:+ Py.str_of_int user_id +:+
                                 ": invalid literal for int() with base 10")])
       (entered (HGETALL (user_key user_id)) w)).
Proof.
  intros Hf Hrec Hvs Hport Hbad.
  rewrite get_user_config_unfold, try_except_unfold, bind_unfold, hgetall_unfold.
  rewrite Hf, Hrec.
  rewrite decide_False by (intros ->; by rewrite lookup_empty in Hport).
  unfold read_config.
  rewrite bind_unfold, decode_bytes_unfold, Hvs.
  rewrite bind_unfold, Hport. simpl. unfold int_bytes. rewrite Hbad.
  reflexivity.
Qed.

End ReadFacts.


Lemma get_user_config_reads_record_witness :
  get_user_config (L := RefFernet.lib) key_a 42 configured =
    (Ok (Some Cases.profile), entered (HGETALL (user_key 42)) configured).
Proof.
  apply (get_user_config_reads_record (L := RefFernet.lib) key_a 42 configured
           (record (RefFernet.encrypt key_a "" "a@example.com")
                   (RefFernet.encrypt key_a "" "secret") "configured")
           Cases.profile).
  - reflexivity.
  - vm_compute. reflexivity.
  - apply insert_non_empty.
  - repeat split; try (vm_compute; reflexivity).
    + exists "a@example.com". split; vm_compute; reflexivity.
    + exists "secret". split; vm_compute; reflexivity.
  - reflexivity.
  - reflexivity.
  - reflexivity.
  - intros data [= <-]. reflexivity.
  - intros data [= <-]. reflexivity.
Defined.

Lemma get_user_config_rejects_bad_port_witness :
  Py.int_of_bytes "smtp" = None ∧
  get_user_config (L := RefFernet.lib) key_a 42 Cases.bad_port =
    (Ok None,
     with_log [(ERROR, "Config error for 42: invalid literal for int() with base 10")]
       (entered (HGETALL (user_key 42)) Cases.bad_port)).
Proof.
  split; [reflexivity|].
  apply (get_user_config_rejects_bad_port (L := RefFernet.lib) key_a 42 Cases.bad_port
           (<["smtp_server" := "smtp.example.com"]> (<["smtp_port" := "smtp"]> ∅))
           "smtp").
  - reflexivity.
  - vm_compute. reflexivity.
  - vm_compute. reflexivity.
  - vm_compute. reflexivity.
  - reflexivity.
Defined.

Section SendFacts.
Context {L : FernetLib}.
Variable cipher_suite : fernet.

(** [send_email], case by case: the record is unusable, or the dialogue runs
    on what the record holds and the counter is touched after a full one. *)
Lemma send_email_cases user_id to subject body attachments w :
  let w0 := entered (HGETALL (user_key user_id)) w in
  ∃ r w', send_email cipher_suite user_id to subject body attachments w = (r, w') ∧
    ((r = Raise (PlainException "SMTP not configured") ∧ log_only w0 w') ∨
     (∃ c h w1 r1 evs,
        log_only w0 w1 ∧
        faulty w = false ∧
        redis w !! user_key user_id = Some (RHash h) ∧
        read_from cipher_suite h c ∧
        Py.truthy (smtp_server c) = true ∧
        dialogue (smtp_server c) (smtp_port c) (email c) (password c)
          (compose_message c to subject body attachments) w1
          = (r1, with_trace (trace w1 ++ evs) w1) ∧
        evs ⊆ [SmtpConnect (smtp_server c) (smtp_port c); SmtpStarttls;
               SmtpLogin (email c) (password c);
               SmtpSendMessage (compose_message c to subject body attachments);
               SmtpQuit] ∧
        match r1 with
        | Ok _ => (r, w') = track_stat "emails_sent" (with_trace (trace w1 ++ evs) w1)
        | Raise e => r = Raise e ∧ w' = with_trace (trace w1 ++ evs) w1
        end)).
Proof.
  cbv zeta. rewrite send_email_unfold.
  destruct (get_user_config_source cipher_suite user_id w)
    as (rc & w1 & Hrun & Hlog & Hres).
  rewrite Hrun. destruct rc as [c|].
  2:{ eexists _, _. split; [reflexivity|]. by left. }
  destruct (Py.truthy (smtp_server c)) eqn:Hs.
  2:{ eexists _, _. split; [reflexivity|]. by left. }
  destruct (Hres c eq_refl) as (Hf & h & Hh & Hread).
  destruct (dialogue_scripts (smtp_server c) (smtp_port c) (email c) (password c)
              (compose_message c to subject body attachments) w1)
    as (r1 & evs & Hd & Hcases).
  rewrite Hd. cbv zeta in Hcases.
  assert (Hsub : evs ⊆ [SmtpConnect (smtp_server c) (smtp_port c); SmtpStarttls;
               SmtpLogin (email c) (password c);
               SmtpSendMessage (compose_message c to subject body attachments);
               SmtpQuit]).
  { destruct Hcases as [[_ ->]|(rb & steps & Hbody & -> & _)];
      [intros e; rewrite !elem_of_cons; tauto|].
    destruct Hbody as [[_ ->]|[[_ ->]|[[_ ->]|[_ ->]]]];
      intros e; simpl; rewrite !elem_of_cons; tauto. }
  clear Hcases.
  destruct r1 as [[]|e].
  - destruct (track_stat "emails_sent" (with_trace (trace w1 ++ evs) w1))
      as [r w'] eqn:Ht.
    exists r, w'. split; [reflexivity|]. right.
    exists c, h, w1, (Ok ()), evs. rewrite Ht. done.
  - eexists _, _. split; [reflexivity|]. right.
    exists c, h, w1, (Raise e), evs. done.
Qed.

(** X10.  When the Redis connection fails, [send_email] raises 'SMTP
    not configured' (the connection error is absorbed by [get_user_config]
    and only logged) and makes no call but the failed HGETALL. *)
Theorem send_email_without_redis user_id to subject body attachments w :
  faulty w = true →
  send_email cipher_suite user_id to subject body attachments w =
    (Raise (PlainException "SMTP not configured"),
     with_log (log w ++ [(ERROR, "Config error for " +:+ Py.str_of_int user_id +:+
                                 ": " +:+ exn_str ConnectionError)])
       (entered (HGETALL (user_key user_id)) w)).
Proof.
  intros Hf. rewrite send_email_unfold, get_user_config_unfold, try_except_unfold.
  rewrite bind_unfold, hgetall_unfold, Hf, config_handler_unfold. reflexivity.
Qed.

(** X11.  The outward calls of [send_email] follow a fixed set of
    scripts, all starting with the HGETALL of the user's record: nothing
    more when the record is unusable; a refused connection; or, once
    connected, the block up to its first refused step (STARTTLS, login,
    sending) or to its end, always followed by QUIT.  When QUIT is answered,
    the exception raised is the one of the refused step, and after a full
    block the call succeeds and the increment of 'emails_sent' follows.
    When QUIT is refused, its exception is the one raised, also after a
    full block: the message was handed over and is not counted. *)
Theorem send_email_scripts user_id to subject body attachments w :
  ∃ r w' evs,
    send_email cipher_suite user_id to subject body attachments w = (r, w') ∧
    issued w w' = RedisCall (HGETALL (user_key user_id)) :: evs ∧
    ((r = Raise (PlainException "SMTP not configured") ∧ evs = []) ∨
     ∃ c,
       let msg := compose_message c to subject body attachments in
       let co := SmtpConnect (smtp_server c) (smtp_port c) in
       let lo := SmtpLogin (email c) (password c) in
       let me := SmtpSendMessage msg in
       (r = Raise (SMTPException co) ∧ evs = [co]) ∨
       ∃ rb steps,
         ((rb = Raise (SMTPException SmtpStarttls) ∧ steps = [SmtpStarttls]) ∨
          (rb = Raise (SMTPException lo) ∧ steps = [SmtpStarttls; lo]) ∨
          (rb = Raise (SMTPException me) ∧ steps = [SmtpStarttls; lo; me]) ∨
          (rb = Ok () ∧ steps = [SmtpStarttls; lo; me])) ∧
         if smtp_peer w SmtpQuit
         then r = rb ∧
              evs = co :: steps ++ SmtpQuit ::
                    match rb with
                    | Ok _ => [RedisCall (INCR (stat "emails_sent"))]
                    | Raise _ => []
                    end
         else r = Raise (SMTPException SmtpQuit) ∧
              evs = co :: steps ++ [SmtpQuit]).
Proof.
  rewrite send_email_unfold.
  destruct (get_user_config_cases cipher_suite user_id w)
    as [(c & _ & ->)|[(_ & _ & ->)|(e & ->)]].
  2,3: eexists _, _, []; (split; [reflexivity|]);
       (split; [by apply issued_app|]); by left.
  destruct (Py.truthy (smtp_server c)) eqn:Hs.
  2:{ eexists _, _, []. split; [reflexivity|]. split; [by apply issued_app|]. by left. }
  set (w1 := entered _ w).
  destruct (dialogue_scripts (smtp_server c) (smtp_port c) (email c) (password c)
              (compose_message c to subject body attachments) w1)
    as (r1 & evs & -> & Hcases).
  cbv zeta in Hcases.
  change (smtp_peer w1 SmtpQuit) with (smtp_peer w SmtpQuit) in Hcases.
  destruct Hcases as [[-> ->]|(rb & steps & Hbody & -> & ->)].
  { eexists _, _, _. split; [reflexivity|].
    split; [apply issued_app; simpl; rewrite <- app_assoc; reflexivity|].
    right. exists c. cbv zeta. by left. }
  destruct (smtp_peer w SmtpQuit) eqn:Hq.
  - destruct rb as [[]|e].
    + match goal with
      | |- context [track_stat "emails_sent" ?w2] =>
        destruct (track_stat_spec "emails_sent" w2) as (w' & -> & Ht & _)
      end.
      eexists _, _, _. split; [reflexivity|].
      split.
      { apply issued_app. rewrite Ht. simpl. rewrite <- !app_assoc. reflexivity. }
      right. exists c. cbv zeta. right. exists (Ok ()), steps.
      split; [exact Hbody|]. split; [reflexivity|].
      simpl. by rewrite <- app_assoc.
    + eexists _, _, _. split; [reflexivity|].
      split; [apply issued_app; simpl; rewrite <- app_assoc; reflexivity|].
      right. exists c. cbv zeta. right. exists (Raise e), steps.
      split; [exact Hbody|]. by split.
  - eexists _, _, _. split; [reflexivity|].
    split; [apply issued_app; simpl; rewrite <- app_assoc; reflexivity|].
    right. exists c. cbv zeta. right. exists rb, steps.
    split; [exact Hbody|]. by split.
Qed.

Lemma track_stat_db metric w :
  redis (snd (track_stat metric w)) = redis w ∨
  ∃ v, redis (snd (track_stat metric w)) = <[stat metric := RString v]> (redis w).
Proof.
  rewrite track_stat_unfold. cbv zeta.
  destruct (faulty w); [by left|].
  destruct (counter (redis w) (stat metric)) as [n|]; [|by left].
  destruct (n <? Redis.int64_max); [|by left].
  right. by eexists.
Qed.

Lemma send_email_db user_id to subject body attachments w :
  let w' := snd (send_email cipher_suite user_id to subject body attachments w) in
  redis w' = redis w ∨
  ∃ v, redis w' = <[stat "emails_sent" := RString v]> (redis w).
Proof.
  cbv zeta.
  destruct (send_email_cases user_id to subject body attachments w)
    as (r & w' & Hrun & Hcases).
  rewrite Hrun. simpl. cbv zeta in Hcases.
  destruct Hcases as [[_ Hlog]|(c & h & w1 & r1 & evs & Hlog & _ & _ & _ & _ & _ & _ & Hend)].
  { left. by rewrite Hlog. }
  assert (H1 : redis w1 = redis w) by (by rewrite Hlog).
  destruct r1 as [[]|e].
  - apply (f_equal snd) in Hend. simpl in Hend. subst w'.
    destruct (track_stat_db "emails_sent" (with_trace (trace w1 ++ evs) w1))
      as [H|[v H]]; rewrite H; simpl; rewrite H1; [by left|right; by exists v].
  - destruct Hend as [_ ->]. by left.
Qed.

(** X12.  Whatever [send_email] sends on the mail channel comes from
    the record of the calling user: the host and port of the connection
    are the record's 'smtp_server' and 'smtp_port', the login uses the
    credentials the record's 'email' and 'password' open to, and the message
    goes from that address to the given recipient with the given subject. *)
Theorem send_email_uses_own_record user_id to subject body attachments w :
  let evs :=
    issued w (snd (send_email cipher_suite user_id to subject body attachments w)) in
  Forall (λ e, is_smtp e = false) evs ∨
  ∃ h, redis w !! user_key user_id = Some (RHash h) ∧
    Forall (λ e,
      match e with
      | SmtpConnect host port =>
        host = default "" (h !! "smtp_server") ∧
        from_option Py.int_of_bytes (Some 0) (h !! "smtp_port") = Some port
      | SmtpLogin user pass =>
        opens cipher_suite (h !! "email") user ∧
        opens cipher_suite (h !! "password") pass
      | SmtpSendMessage msg =>
        opens cipher_suite (h !! "email") (msg_from msg) ∧
        msg_to msg = to ∧ msg_subject msg = subject
      | _ => True
      end) evs.
Proof.
  cbv zeta.
  destruct (send_email_cases user_id to subject body attachments w)
    as (r & w' & Hrun & Hcases).
  rewrite Hrun. simpl. cbv zeta in Hcases.
  destruct Hcases as [[_ Hlog]|(c & h & w1 & r1 & evs & Hlog & _ & Hh & Hread & _ & _ & Hsub & Hend)].
  { left. rewrite (issued_app w w' [RedisCall (HGETALL (user_key user_id))]).
    - by repeat constructor.
    - by rewrite Hlog. }
  right. exists h. split; [exact Hh|].
  destruct Hread as (Hs & Hp & _ & _ & He & Hpw & _).
  apply port_of_literal in Hp.
  assert (Hevs : Forall (λ e,
      match e with
      | SmtpConnect host port =>
        host = default "" (h !! "smtp_server") ∧
        from_option Py.int_of_bytes (Some 0) (h !! "smtp_port") = Some port
      | SmtpLogin user pass =>
        opens cipher_suite (h !! "email") user ∧
        opens cipher_suite (h !! "password") pass
      | SmtpSendMessage msg =>
        opens cipher_suite (h !! "email") (msg_from msg) ∧
        msg_to msg = to ∧ msg_subject msg = subject
      | _ => True
      end) evs).
  { apply list.Forall_forall. intros e He'. apply Hsub in He'.
    rewrite !elem_of_cons, elem_of_nil in He'.
    destruct He' as [->|[->|[->|[->|[->|[]]]]]]; done. }
  assert (H1 : trace w1 = trace w ++ [RedisCall (HGETALL (user_key user_id))])
    by (by rewrite Hlog).
  destruct r1 as [[]|e].
  - destruct (track_stat_spec "emails_sent" (with_trace (trace w1 ++ evs) w1))
      as (w2 & Ht & Htr & _).
    rewrite Ht in Hend. injection Hend as -> ->.
    rewrite (issued_app w w2
               (RedisCall (HGETALL (user_key user_id)) :: evs ++
                [RedisCall (INCR (stat "emails_sent"))])).
    + constructor; [done|]. apply Forall_app. split; [exact Hevs|]. by repeat constructor.
    + rewrite Htr. simpl. rewrite H1, <- !app_assoc. reflexivity.
  - destruct Hend as [_ ->].
    rewrite (issued_app w _ (RedisCall (HGETALL (user_key user_id)) :: evs)).
    + by constructor.
    + simpl. rewrite H1, <- !app_assoc. reflexivity.
Qed.

(** X13.  [send_email] writes nothing to Redis but the counter
    'emails_sent': user records, drafts and the stored key are as before,
    and so are the environment and the entropy source, whether it succeeds
    or fails. *)
Theorem send_email_writes_only_counter user_id to subject body attachments w :
  let w' := snd (send_email cipher_suite user_id to subject body attachments w) in
  (∀ key, key ≠ stat "emails_sent" → redis w' !! key = redis w !! key) ∧
  (∀ u, redis w' !! user_key u = redis w !! user_key u) ∧
  (∀ u, draft u w' = draft u w) ∧
  redis w' !! "fernet_key" = redis w !! "fernet_key" ∧
  environ w' = environ w ∧ drawn w' = drawn w.
Proof.
  cbv zeta.
  assert (Hkey : ∀ key, key ≠ stat "emails_sent" →
            redis (snd (send_email cipher_suite user_id to subject body attachments w))
              !! key = redis w !! key).
  { intros key Hne.
    destruct (send_email_db user_id to subject body attachments w) as [H|[v H]];
      cbv zeta in H; rewrite H; [done|]. by rewrite lookup_insert_ne. }
  split; [exact Hkey|].
  split; [intros u; by apply Hkey|].
  split; [intros u; unfold draft; by rewrite Hkey|].
  split; [by apply Hkey|].
  destruct (send_email_cases user_id to subject body attachments w)
    as (r & w' & Hrun & Hcases).
  rewrite Hrun. simpl. cbv zeta in Hcases.
  destruct Hcases as [[_ Hlog]|(c & h & w1 & r1 & evs & Hlog & _ & _ & _ & _ & _ & _ & Hend)].
  { by rewrite Hlog. }
  assert (H1 : environ w1 = environ w ∧ drawn w1 = drawn w)
    by (by rewrite Hlog).
  destruct r1 as [[]|e].
  - apply (f_equal snd) in Hend. simpl in Hend. subst w'.
    rewrite track_stat_unfold. cbv zeta.
    destruct (faulty _); [done|].
    destruct (counter _ _) as [n|]; [|done].
    by destruct (n <? Redis.int64_max).
  - by destruct Hend as [_ ->].
Qed.

End SendFacts.


Lemma send_email_without_redis_witness :
  send_email (L := RefFernet.lib) key_a 42 "b@example.com" "Hi" "body" None
    (with_redis_faults [true] configured) =
  (Raise (PlainException "SMTP not configured"),
   with_log [(ERROR, "Config error for 42: Error connecting to redis")]
     (entered (HGETALL (user_key 42)) (with_redis_faults [true] configured))).
Proof.
  exact (send_email_without_redis (L := RefFernet.lib) key_a 42 "b@example.com"
           "Hi" "body" None (with_redis_faults [true] configured) eq_refl).
Defined.

Section KeyFacts.
Context {L : FernetLib}.

Lemma setup_encryption_stored w k :
  faulty w = false →
  redis w !! "fernet_key" = Some (RString k) →
  Py.truthy k = true →
  setup_encryption w =
  match new k with
  | Some f => (Ok f, entered (GET "fernet_key") w)
  | None =>
    (Raise (ValueError "Fernet key must be 32 url-safe base64-encoded bytes."),
     with_log (log w ++
       [(CRITICAL, "Encryption setup failed: " +:+
                   "Fernet key must be 32 url-safe base64-encoded bytes.")])
       (entered (GET "fernet_key") w))
  end.
Proof.
  intros Hf Hk Ht. unfold setup_encryption.
  rewrite try_except_unfold, bind_unfold, get_unfold, Hf, Hk. simpl.
  rewrite Ht, new_Fernet_unfold. by destruct (new k).
Qed.

(** X14.  A valid key stored under 'fernet_key' is the one
    [setup_encryption] returns, whatever the environment holds: after the
    single GET nothing is written, generated or logged. *)
Theorem setup_encryption_persisted_key_wins w k f env :
  faulty w = false →
  redis w !! "fernet_key" = Some (RString k) →
  new k = Some f →
  Py.truthy k = true →
  setup_encryption (with_environ env w) =
    (Ok f, with_environ env (entered (GET "fernet_key") w)).
Proof.
  intros Hf Hk Hnew Ht.
  rewrite (setup_encryption_stored _ k) by done. by rewrite Hnew.
Qed.

(** X15.  A non-empty stored key that Fernet rejects makes
    [setup_encryption] raise the ValueError and log it as CRITICAL: there is
    no fallback to the environment key or to a fresh key, and the stored
    value is not replaced. *)
Theorem setup_encryption_corrupt_key_is_fatal w k env :
  faulty w = false →
  redis w !! "fernet_key" = Some (RString k) →
  Py.truthy k = true →
  new k = None →
  setup_encryption (with_environ env w) =
    (Raise (ValueError "Fernet key must be 32 url-safe base64-encoded bytes."),
     with_environ env
       (with_log (log w ++
          [(CRITICAL, "Encryption setup failed: " +:+
                      "Fernet key must be 32 url-safe base64-encoded bytes.")])
          (entered (GET "fernet_key") w))).
Proof.
  intros Hf Hk Ht Hnew.
  rewrite (setup_encryption_stored _ k) by done. by rewrite Hnew.
Qed.

(** X16.  When the first Redis call fails, [setup_encryption]
    raises the ConnectionError and logs it as CRITICAL; a key in the
    environment is not used. *)
Theorem setup_encryption_without_redis w :
  faulty w = true →
  setup_encryption w =
    (Raise ConnectionError,
     with_log (log w ++
       [(CRITICAL, "Encryption setup failed: " +:+ exn_str ConnectionError)])
       (entered (GET "fernet_key") w)).
Proof.
  intros Hf. unfold setup_encryption.
  by rewrite try_except_unfold, bind_unfold, get_unfold, Hf.
Qed.

(** The outcome of a run that finds no usable key stored and none in the
    environment. *)
Lemma setup_encryption_generates w :
  faulty w = false →
  (redis w !! "fernet_key" = None ∨ redis w !! "fernet_key" = Some (RString "")) →
  (environ w !! "ENCRYPTION_KEY" = None ∨ environ w !! "ENCRYPTION_KEY" = Some "") →
  let w1 := with_drawn (S (drawn w)) (entered (GET "fernet_key") w) in
  let w2 := entered (SET "fernet_key" (fresh_key w)) w1 in
  let failed (e : exn) (w' : world) :=
    (@Raise fernet e,
     with_log (log w ++ [(CRITICAL, "Encryption setup failed: " +:+ exn_str e)]) w') in
  setup_encryption w =
  if faulty w1 then failed ConnectionError w2
  else
    let w3 := with_redis (<["fernet_key" := RString (fresh_key w)]> (redis w)) w2 in
    match new (fresh_key w) with
    | Some f => (Ok f, w3)
    | None =>
      failed (ValueError "Fernet key must be 32 url-safe base64-encoded bytes.") w3
    end.
Proof.
  intros Hf Hk He. cbv zeta. unfold setup_encryption.
  rewrite try_except_unfold, bind_unfold, get_unfold, Hf.
  assert (Hget :
    (match redis w !! "fernet_key" with
     | Some (RString s) => Ok (Some s)
     | Some (RHash _) => Raise Redis.wrongtype
     | None => Ok None
     end = Ok None ∨
     match redis w !! "fernet_key" with
     | Some (RString s) => Ok (Some s)
     | Some (RHash _) => Raise Redis.wrongtype
     | None => Ok None
     end = Ok (Some ""))).
  { destruct Hk as [->| ->]; auto. }
  assert (Henv : truthy_opt (environ w !! "ENCRYPTION_KEY") = false).
  { by destruct He as [->| ->]. }
  destruct Hget as [-> | ->]; simpl;
    rewrite bind_unfold; unfold getenv; simpl; rewrite Henv;
    rewrite bind_unfold; unfold os_urandom; cbv beta iota;
    rewrite bind_unfold, set_unfold; simpl;
    change (faulty (with_drawn (S (drawn w)) (entered (GET "fernet_key") w)))
      with (faulty (entered (GET "fernet_key") w));
    (destruct (faulty (entered (GET "fernet_key") w)); [reflexivity|]);
    rewrite new_Fernet_unfold; unfold fresh_key;
    by destruct (new _).
Qed.

Lemma setup_encryption_db w :
  redis (snd (setup_encryption w)) = redis w ∨
  ∃ v, redis (snd (setup_encryption w)) = <["fernet_key" := RString v]> (redis w).
Proof.
  destruct (setup_encryption_spec w) as (r & w1 & Hrun & _ & Hcase).
  rewrite Hrun. simpl.
  destruct (key_source_of w).
  - left. tauto.
  - left. tauto.
  - destruct (faulty _); [left; tauto|]. right. eexists. apply Hcase.
  - left. tauto.
Qed.

(** X17.  [setup_encryption] writes no key but 'fernet_key': user
    records, drafts and counters are as before, and so is the environment. *)
Theorem setup_encryption_writes_only_key w :
  let w' := snd (setup_encryption w) in
  (∀ key, key ≠ "fernet_key" → redis w' !! key = redis w !! key) ∧
  (∀ u, redis w' !! user_key u = redis w !! user_key u) ∧
  (∀ u, draft u w' = draft u w) ∧
  (∀ m, counter (redis w') (stat m) = counter (redis w) (stat m)) ∧
  environ w' = environ w.
Proof.
  cbv zeta.
  assert (Hkey : ∀ key, key ≠ "fernet_key" →
            redis (snd (setup_encryption w)) !! key = redis w !! key).
  { intros key Hne. destruct (setup_encryption_db w) as [H|[v H]]; rewrite H;
      [done|]. by rewrite lookup_insert_ne. }
  split; [exact Hkey|].
  split; [intros u; by apply Hkey|].
  split; [intros u; unfold draft; by rewrite Hkey|].
  split; [intros m; unfold counter; by rewrite Hkey|].
  destruct (setup_encryption_spec w) as (r & w1 & Hrun & Henv & _).
  by rewrite Hrun.
Qed.

Lemma setup_encryption_log w :
  log (snd (setup_encryption w)) = log w ++
    match fst (setup_encryption w) with
    | Ok _ => []
    | Raise e => [(CRITICAL, "Encryption setup failed: " +:+ exn_str e)]
    end.
Proof.
  unfold setup_encryption.
  rewrite try_except_unfold, bind_unfold, get_unfold.
  destruct (faulty w); [reflexivity|].
  assert (Hnew : ∀ k w',
    log w' = log w →
    log (snd (match new_Fernet k w' with
              | (Raise e, w'') =>
                (logger CRITICAL ("Encryption setup failed: " +:+ exn_str e);;
                 @raise fernet e) w''
              | r => r
              end)) =
    log w ++
    match fst (match new_Fernet k w' with
               | (Raise e, w'') =>
                 (logger CRITICAL ("Encryption setup failed: " +:+ exn_str e);;
                  @raise fernet e) w''
               | r => r
               end) with
    | Ok _ => []
    | Raise e => [(CRITICAL, "Encryption setup failed: " +:+ exn_str e)]
    end).
  { intros k w' Hl. rewrite new_Fernet_unfold.
    destruct (new k); simpl; rewrite Hl; [by rewrite app_nil_r|done]. }
  assert (Hgen :
    log (snd (match (env ← getenv "ENCRYPTION_KEY";
                     if truthy_opt env then new_Fernet (Py.encode (default "" env))
                     else
                       r ← os_urandom 32;
                       let new_key := generate_key r in
                       Redis.set "fernet_key" new_key;; new_Fernet new_key)
                    (entered (GET "fernet_key") w) with
              | (Raise e, w'') =>
                (logger CRITICAL ("Encryption setup failed: " +:+ exn_str e);;
                 @raise fernet e) w''
              | r => r
              end)) =
    log w ++
    match fst (match (env ← getenv "ENCRYPTION_KEY";
                     if truthy_opt env then new_Fernet (Py.encode (default "" env))
                     else
                       r ← os_urandom 32;
                       let new_key := generate_key r in
                       Redis.set "fernet_key" new_key;; new_Fernet new_key)
                    (entered (GET "fernet_key") w) with
               | (Raise e, w'') =>
                 (logger CRITICAL ("Encryption setup failed: " +:+ exn_str e);;
                  @raise fernet e) w''
               | r => r
               end) with
    | Ok _ => []
    | Raise e => [(CRITICAL, "Encryption setup failed: " +:+ exn_str e)]
    end).
  { rewrite bind_unfold. unfold getenv. simpl.
    destruct (truthy_opt _); [by apply Hnew|].
    rewrite bind_unfold. unfold os_urandom. rewrite bind_unfold, set_unfold. simpl.
    destruct (faulty _); [reflexivity|]. by apply Hnew. }
  destruct (redis w !! "fernet_key") as [[s|h]|]; simpl.
  - destruct (Py.truthy s); [by apply Hnew|exact Hgen].
  - reflexivity.
  - exact Hgen.
Qed.

Context {HL : FernetLaws L}.

(** X18.  An empty stored key and an empty ENCRYPTION_KEY count as
    absent: [setup_encryption] then draws 32 bytes, stores the key generated
    from them under 'fernet_key' (overwriting an empty value) and returns
    it, with exactly the calls GET and SET. *)
Theorem setup_encryption_replaces_empty_key w :
  faulty w = false →
  faulty (entered (GET "fernet_key") w) = false →
  (redis w !! "fernet_key" = None ∨ redis w !! "fernet_key" = Some (RString "")) →
  (environ w !! "ENCRYPTION_KEY" = None ∨ environ w !! "ENCRYPTION_KEY" = Some "") →
  ∃ f, new (fresh_key w) = Some f ∧
    setup_encryption w =
      (Ok f,
       with_redis (<["fernet_key" := RString (fresh_key w)]> (redis w))
         (entered (SET "fernet_key" (fresh_key w))
            (with_drawn (S (drawn w)) (entered (GET "fernet_key") w)))).
Proof.
  intros Hf Hf1 Hk He.
  rewrite (setup_encryption_generates w Hf Hk He). cbv zeta.
  change (faulty (with_drawn (S (drawn w)) (entered (GET "fernet_key") w)))
    with (faulty (entered (GET "fernet_key") w)).
  rewrite Hf1.
  destruct (generate_key_ok (fit 32 (urandom w (drawn w)))) as [f Hnew];
    [apply length_fit|].
  exists f. unfold fresh_key at 1 2. by rewrite Hnew.
Qed.

(** X19.  A run of [setup_encryption] that raises has written
    nothing and has logged exactly one CRITICAL record carrying the text of
    the exception; a run that returns has logged nothing. *)
Theorem setup_encryption_failure_keeps_database w :
  match setup_encryption w with
  | (Ok _, w') => log w' = log w
  | (Raise e, w') =>
    redis w' = redis w ∧
    log w' = log w ++ [(CRITICAL, "Encryption setup failed: " +:+ exn_str e)]
  end.
Proof.
  pose proof (setup_encryption_log w) as Hlog.
  destruct (setup_encryption_spec w) as (r & w1 & Hrun & _ & Hcase).
  rewrite Hrun in *. simpl in Hlog.
  destruct r as [f|e].
  - by rewrite app_nil_r in Hlog.
  - split; [|done].
    destruct (key_source_of w); try tauto.
    destruct (faulty _); [tauto|].
    destruct Hcase as (Hr & _).
    rewrite new_Fernet_unfold in Hr. simpl in Hr.
    destruct (generate_key_ok (fit 32 (urandom w (drawn w)))) as [f Hnew];
      [apply length_fit|].
    unfold fresh_key in Hr. by rewrite Hnew in Hr.
Qed.

End KeyFacts.


Lemma setup_encryption_persisted_key_wins_witness :
  setup_encryption (L := RefFernet.lib)
    (with_environ (<["ENCRYPTION_KEY" := key_b]> ∅) (Cases.stored_key key_a)) =
  (Ok key_a,
   with_environ (<["ENCRYPTION_KEY" := key_b]> ∅)
     (entered (GET "fernet_key") (Cases.stored_key key_a))).
Proof.
  apply (setup_encryption_persisted_key_wins (L := RefFernet.lib)
           (Cases.stored_key key_a) key_a key_a).
  - reflexivity.
  - vm_compute. reflexivity.
  - reflexivity.
  - reflexivity.
Defined.

Lemma setup_encryption_corrupt_key_is_fatal_witness :
  new (FernetLib := RefFernet.lib) "not a key" = None ∧
  setup_encryption (L := RefFernet.lib)
    (with_environ (<["ENCRYPTION_KEY" := key_a]> ∅) (Cases.stored_key "not a key")) =
  (Raise (ValueError "Fernet key must be 32 url-safe base64-encoded bytes."),
   with_environ (<["ENCRYPTION_KEY" := key_a]> ∅)
     (with_log
        [(CRITICAL, "Encryption setup failed: " +:+
                    "Fernet key must be 32 url-safe base64-encoded bytes.")]
        (entered (GET "fernet_key") (Cases.stored_key "not a key")))).
Proof.
  split; [reflexivity|].
  apply (setup_encryption_corrupt_key_is_fatal (L := RefFernet.lib)
           (Cases.stored_key "not a key") "not a key").
  - reflexivity.
  - vm_compute. reflexivity.
  - reflexivity.
  - reflexivity.
Defined.

Lemma setup_encryption_without_redis_witness :
  environ with_env_key !! "ENCRYPTION_KEY" = Some key_a ∧
  setup_encryption (L := RefFernet.lib) (with_redis_faults [true] with_env_key) =
  (Raise ConnectionError,
   with_log [(CRITICAL, "Encryption setup failed: Error connecting to redis")]
     (entered (GET "fernet_key") (with_redis_faults [true] with_env_key))).
Proof.
  split; [vm_compute; reflexivity|].
  exact (setup_encryption_without_redis (L := RefFernet.lib)
           (with_redis_faults [true] with_env_key) eq_refl).
Defined.

Lemma setup_encryption_replaces_empty_key_witness :
  redis (Cases.stored_key "") !! "fernet_key" = Some (RString "") ∧
  ∃ f : @fernet RefFernet.lib,
    new (FernetLib := RefFernet.lib)
      (fresh_key (L := RefFernet.lib) (Cases.stored_key "")) = Some f ∧
    setup_encryption (L := RefFernet.lib) (Cases.stored_key "") =
      (Ok f,
       with_redis
         (<["fernet_key" := RString (fresh_key (L := RefFernet.lib) (Cases.stored_key ""))]>
            (redis (Cases.stored_key "")))
         (entered (SET "fernet_key" (fresh_key (L := RefFernet.lib) (Cases.stored_key "")))
            (with_drawn 1 (entered (GET "fernet_key") (Cases.stored_key ""))))).
Proof.
  assert (Hk : redis (Cases.stored_key "") !! "fernet_key" = Some (RString ""))
    by (vm_compute; reflexivity).
  split; [exact Hk|].
  apply (setup_encryption_replaces_empty_key (HL := ref_laws) (Cases.stored_key "")).
  - reflexivity.
  - reflexivity.
  - right. exact Hk.
  - left. vm_compute. reflexivity.
Defined.

Lemma setup_encryption_failure_keeps_database_witness :
  match setup_encryption (L := RefFernet.lib) (with_redis_faults [true] quiet) with
  | (Ok _, w') => log w' = log (with_redis_faults [true] quiet)
  | (Raise e, w') =>
    redis w' = redis (with_redis_faults [true] quiet) ∧
    log w' = log (with_redis_faults [true] quiet) ++
             [(CRITICAL, "Encryption setup failed: " +:+ exn_str e)]
  end.
Proof.
  exact (setup_encryption_failure_keeps_database (HL := ref_laws)
           (with_redis_faults [true] quiet)).
Defined.

(** ** Printing counters *)

Lemma plain_uint u : plain (NilEmpty.string_of_uint u) = true.
Proof. induction u; simpl; auto. Qed.

Lemma plain_str_of_int z : plain (Py.str_of_int z) = true.
Proof.
  assert (H : ∀ u, plain (NilZero.string_of_uint u) = true).
  { intros u. unfold NilZero.string_of_uint. destruct u; try apply plain_uint.
    reflexivity. }
  unfold Py.str_of_int, NilZero.string_of_int.
  destruct (Z.to_int z) as [u|u]; [apply H|].
  change (plain (String "-" (NilZero.string_of_uint u)))
    with (plain (NilZero.string_of_uint u)). apply H.
Qed.

Lemma truthy_str_of_int z : Py.truthy (Py.str_of_int z) = true.
Proof.
  unfold Py.str_of_int, NilZero.string_of_int, NilZero.string_of_uint.
  destruct (Z.to_int z) as [u|u]; destruct u; reflexivity.
Qed.

Lemma plain_no_quote s :
  plain s = true →
  existsb (λ x, (Py.byte x =? 39)%N) (list_ascii_of_string s) = false.
Proof.
  induction s as [|c s IH]; [done|]. simpl.
  intros H. repeat (apply andb_true_iff in H as [H ?]).
  rewrite IH by done. by destruct (Py.byte c =? 39)%N.
Qed.

Lemma repr_body_plain s :
  plain s = true → Py.repr_body (ascii_of_N 39) s = s.
Proof.
  induction s as [|c s IH]; [done|]. intros H.
  pose proof H as H'. simpl in H'.
  repeat (apply andb_true_iff in H' as [H' ?]).
  cbn [Py.repr_body]. cbv zeta. rewrite IH by done.
  change (Py.byte (ascii_of_N 39)) with 39%N.
  apply N.leb_le in H'.
  repeat match goal with
         | H : negb _ = true |- _ => apply negb_true_iff in H
         | H : (_ <? _)%N = true |- _ => apply N.ltb_lt in H
         | H : (_ =? _)%N = false |- _ => apply N.eqb_neq in H
         end.
  destruct (N.eqb_spec (Py.byte c) 39); [done|].
  destruct (N.eqb_spec (Py.byte c) 92); [done|].
  destruct (N.eqb_spec (Py.byte c) 9); [lia|].
  destruct (N.eqb_spec (Py.byte c) 10); [lia|].
  destruct (N.eqb_spec (Py.byte c) 13); [lia|].
  destruct (N.ltb_spec (Py.byte c) 32); [lia|].
  destruct (N.leb_spec 127 (Py.byte c)); [lia|].
  reflexivity.
Qed.

Lemma repr_bytes_plain s :
  plain s = true → Py.repr_bytes s = "b'" +:+ s +:+ "'".
Proof.
  intros H. unfold Py.repr_bytes, Py.quote_of. cbv zeta.
  rewrite (plain_no_quote s H). cbn [andb].
  by rewrite repr_body_plain.
Qed.

Lemma format_stored x :
  format_val (or_zero (Py.str_of_int <$> x)) = shown x.
Proof.
  destruct x as [n|]; [|reflexivity]. simpl.
  rewrite truthy_str_of_int. simpl.
  apply repr_bytes_plain, plain_str_of_int.
Qed.

(** ** Calls of the handlers *)

Lemma chat_call_unfold e w :
  chat_call e w = (if chat_faulty w then Raise RPCError else Ok (), chatted e w).
Proof. unfold chat_call, chat_faulty, chatted. by destruct (chat_faults w) as [|[] ?]. Qed.

Lemma open_rb_unfold path w :
  open_rb path w =
  (match files w !! path with
   | Some data => Ok data
   | None => Raise (FileNotFoundError path)
   end, with_trace (trace w ++ [FileOpen path]) w).
Proof.
  unfold open_rb. rewrite bind_unfold. unfold emit. rewrite bind_unfold.
  unfold listing. simpl. by destruct (files w !! path).
Qed.

Lemma keys_unfold pattern w :
  Redis.keys pattern w =
  (if faulty w then Raise ConnectionError
   else Ok (filter (λ k, Redis.glob pattern k = true) (fst <$> map_to_list (redis w))),
   entered (KEYS pattern) w).
Proof.
  unfold Redis.keys. rewrite bind_unfold, enter_unfold.
  by destruct (faulty w).
Qed.

Lemma handle_error_silent ev msg w :
  handle_error ev msg None w = (Ok (), with_log (log w ++ [(ERROR, msg)]) w).
Proof. unfold handle_error. rewrite bind_unfold. unfold logger. by destruct ev. Qed.

Lemma read_stat_unfold metric w :
  read_stat metric w =
  (if faulty w then Raise ConnectionError
   else match redis w !! stat metric with
        | None => Ok (PyInt 0)
        | Some (RString s) => Ok (or_zero (Some s))
        | Some (RHash _) => Raise Redis.wrongtype
        end,
   entered (GET (stat metric)) w).
Proof.
  unfold read_stat. fold (stat metric). rewrite bind_unfold, get_unfold.
  destruct (faulty w); [reflexivity|].
  by destruct (redis w !! stat metric) as [[s|h]|].
Qed.

(** ** Frames of the handlers *)

Global Instance observes_preorder P : PreOrder (observes P).
Proof.
  split.
  - intros w. repeat split. exists []. by rewrite app_nil_r.
  - intros w1 w2 w3 (Hd & He & Hn & evs & Ht & HP)
                    (Hd' & He' & Hn' & evs' & Ht' & HP').
    repeat split; try congruence.
    exists (evs ++ evs'). split; [by rewrite Ht', Ht, app_assoc|].
    by apply Forall_app.
Qed.

Lemma observes_emit P e w w' :
  redis w' = redis w → environ w' = environ w → drawn w' = drawn w →
  trace w' = trace w ++ [e] → P e → observes P w w'.
Proof. intros. repeat split; try done. exists [e]. by repeat constructor. Qed.

Lemma observes_log P l w : observes P w (with_log l w).
Proof. repeat split. exists []. by rewrite app_nil_r. Qed.

Section HandlerFacts.
Variable ADMIN_IDS : list Z.

Lemma preserves_chat_call P e : P e → preserves (observes P) (chat_call e).
Proof. intros HP w. rewrite chat_call_unfold. by apply (observes_emit P e). Qed.

Lemma preserves_handle_error P ev msg :
  preserves (observes P) (handle_error ev msg None).
Proof. intros w. rewrite handle_error_silent. apply observes_log. Qed.

Lemma preserves_logs_handler ev :
  preserves (observes opens_and_answers) (logs_handler ADMIN_IDS ev).
Proof.
  unfold logs_handler. apply preserves_try_except; [apply _| |].
  - destruct (negb _).
    + by apply preserves_chat_call.
    + apply preserves_bind; [apply _| |].
      * intros w. rewrite open_rb_unfold. by apply (observes_emit _ (FileOpen LOG_FILE)).
      * intros f. apply preserves_bind; [apply _| |].
        -- by apply preserves_chat_call.
        -- intros _ w. apply observes_log.
  - intros e. apply preserves_handle_error.
Qed.

Lemma preserves_read_stat metric :
  preserves (observes reads_and_answers) (read_stat metric).
Proof.
  intros w. rewrite read_stat_unfold.
  by apply (observes_emit _ (RedisCall (GET (stat metric)))).
Qed.

Lemma preserves_users_handler ev :
  preserves (observes reads_and_answers) (users_handler ADMIN_IDS ev).
Proof.
  unfold users_handler. apply preserves_try_except; [apply _| |].
  - destruct (negb _).
    + by apply preserves_chat_call.
    + apply preserves_bind; [apply _| |].
      * intros w. rewrite keys_unfold.
        by apply (observes_emit _ (RedisCall (KEYS "user:*:email_config"))).
      * intros users. cbv zeta.
        apply preserves_bind; [apply _|apply preserves_read_stat|]. intros a.
        apply preserves_bind; [apply _|apply preserves_read_stat|]. intros s.
        by apply preserves_chat_call.
  - intros e. apply preserves_handle_error.
Qed.

Lemma try_except_handled (body : M unit) h w :
  (∀ e w1, fst (h e w1) = Ok ()) → fst (try_except body h w) = Ok ().
Proof.
  intros Hh. rewrite try_except_unfold.
  destruct (body w) as [[[]|e] w1]; [done|apply Hh].
Qed.

(** X20.  [logs_handler] and [users_handler] never raise, for any
    sender, and never write to Redis: the database, the environment and the
    entropy source are as before.  [logs_handler] issues no Redis and no
    mail call; [users_handler] issues only KEYS, GET and the answer on the
    chat. *)
Theorem admin_handlers_only_read ev w :
  (∃ w', logs_handler ADMIN_IDS ev w = (Ok (), w') ∧
         observes opens_and_answers w w') ∧
  (∃ w', users_handler ADMIN_IDS ev w = (Ok (), w') ∧
         observes reads_and_answers w w').
Proof.
  split.
  - pose proof (preserves_logs_handler ev w) as Hobs.
    assert (Hok : fst (logs_handler ADMIN_IDS ev w) = Ok ()).
    { apply try_except_handled. intros e w1. by rewrite handle_error_silent. }
    destruct (logs_handler ADMIN_IDS ev w) as [r w']. simpl in *. subst r.
    by exists w'.
  - pose proof (preserves_users_handler ev w) as Hobs.
    assert (Hok : fst (users_handler ADMIN_IDS ev w) = Ok ()).
    { apply try_except_handled. intros e w1. by rewrite handle_error_silent. }
    destruct (users_handler ADMIN_IDS ev w) as [r w']. simpl in *. subst r.
    by exists w'.
Qed.

(** X21.  For an administrator, [logs_handler] opens the log file
    and sends what it holds at that moment to the sender's chat, then logs
    'Admin <id> downloaded logs'.  When the file is missing or the upload
    fails, one ERROR record 'Logs error: ...' is logged and the
    administrator receives no message about it, since [handle_error] is
    called without a user message.  Redis is not touched. *)
Theorem logs_handler_admin ev w :
  sender_id ev ∈ ADMIN_IDS →
  ∃ w', logs_handler ADMIN_IDS ev w = (Ok (), w') ∧
    redis w' = redis w ∧
    match files w !! LOG_FILE with
    | None =>
      issued w w' = [FileOpen LOG_FILE] ∧
      ∃ detail, log w' = log w ++ [(ERROR, "Logs error: " +:+ detail)]
    | Some data =>
      issued w w' = [FileOpen LOG_FILE; ChatRespondFile (chat_id ev) data] ∧
      if chat_faulty w
      then ∃ detail, log w' = log w ++ [(ERROR, "Logs error: " +:+ detail)]
      else log w' = log w ++
             [(INFO, "Admin " +:+ Py.str_of_int (sender_id ev) +:+
                     " downloaded logs")]
    end.
Proof.
  intros Hadmin. unfold logs_handler.
  rewrite try_except_unfold, bool_decide_true by done.
  change (negb true) with false. cbv iota.
  rewrite bind_unfold, open_rb_unfold.
  destruct (files w !! LOG_FILE) as [data|].
  - rewrite bind_unfold. unfold respond_file. rewrite chat_call_unfold.
    change (chat_faulty (with_trace (trace w ++ [FileOpen LOG_FILE]) w))
      with (chat_faulty w).
    destruct (chat_faulty w).
    + rewrite handle_error_silent. eexists. split; [reflexivity|].
      split; [done|]. split; [|by eexists].
      apply issued_app. simpl. by rewrite <- app_assoc.
    + eexists. split; [reflexivity|]. split; [done|]. split; [|done].
      apply issued_app. simpl. by rewrite <- app_assoc.
  - rewrite handle_error_silent. eexists. split; [reflexivity|].
    split; [done|]. split; [by apply issued_app|by eexists].
Qed.

(** X22.  For an administrator on a reliable connection,
    [users_handler] issues KEYS and two GETs and answers with the number of
    user records and the two counters, emails sent before active today; a
    counter that was never incremented prints as 0 and a counter holding n
    prints as b'n', the repr of the bytes Redis returns. *)
Theorem users_handler_report ev w (active sent : option Z) :
  sender_id ev ∈ ADMIN_IDS →
  reliable w →
  redis w !! stat "users_active" = (RString ∘ Py.str_of_int) <$> active →
  redis w !! stat "emails_sent" = (RString ∘ Py.str_of_int) <$> sent →
  ∃ w', users_handler ADMIN_IDS ev w = (Ok (), w') ∧
    redis w' = redis w ∧
    log w' = (if chat_faulty w
              then log w ++ [(ERROR, "Users stats error: " +:+ exn_str RPCError)]
              else log w) ∧
    issued w w' =
      [RedisCall (KEYS "user:*:email_config");
       RedisCall (GET (stat "users_active"));
       RedisCall (GET (stat "emails_sent"));
       ChatRespond (chat_id ev)
         ("📊 Bot Statistics:" +:+ nl +:+ nl +:+
          "• Total Users: " +:+
            Py.str_of_int (Z.of_nat (count_users (redis w))) +:+ nl +:+
          "• Emails Sent: " +:+ shown sent +:+ nl +:+
          "• Active Today: " +:+ shown active)].
Proof.
  intros Hadmin Hrel Hactive Hsent. unfold users_handler.
  rewrite try_except_unfold, bool_decide_true by done.
  change (negb true) with false. cbv iota.
  rewrite bind_unfold, keys_unfold, (reliable_faulty _ Hrel). cbv zeta.
  set (w1 := entered (KEYS _) w).
  assert (Hrel1 : reliable w1) by (subst w1; auto with world).
  rewrite bind_unfold, read_stat_unfold, (reliable_faulty _ Hrel1).
  change (redis w1) with (redis w). rewrite Hactive.
  set (w2 := entered (GET _) w1).
  assert (Hrel2 : reliable w2) by (subst w2; auto with world).
  assert (Hread : ∀ x : option Z,
    match (RString ∘ Py.str_of_int) <$> x with
    | Some (RString s) => Ok (or_zero (Some s))
    | Some (RHash _) => Raise Redis.wrongtype
    | None => Ok (PyInt 0)
    end = Ok (or_zero (Py.str_of_int <$> x))).
  { by intros [n|]. }
  rewrite Hread.
  rewrite bind_unfold, read_stat_unfold, (reliable_faulty _ Hrel2).
  change (redis w2) with (redis w). rewrite Hsent, Hread.
  rewrite !format_stored.
  unfold respond. rewrite chat_call_unfold.
  change (chat_faulty (entered (GET (stat "emails_sent")) w2)) with (chat_faulty w).
  fold (count_users (redis w)).
  destruct (chat_faulty w).
  - rewrite handle_error_silent. eexists. split; [reflexivity|].
    split; [done|]. split; [done|].
    apply issued_app. simpl. rewrite <- !app_assoc. reflexivity.
  - eexists. split; [reflexivity|]. split; [done|]. split; [done|].
    apply issued_app. simpl. rewrite <- !app_assoc. reflexivity.
Qed.

End HandlerFacts.


Lemma logs_handler_admin_witness :
  files Cases.with_log_file !! LOG_FILE = Some "started" ∧
  ∃ w', logs_handler admins Cases.admin Cases.with_log_file = (Ok (), w') ∧
    redis w' = redis Cases.with_log_file ∧
    issued Cases.with_log_file w' = [FileOpen LOG_FILE; ChatRespondFile 7 "started"] ∧
    log w' = [(INFO, "Admin 1001 downloaded logs")].
Proof.
  split; [vm_compute; reflexivity|].
  destruct (logs_handler_admin admins Cases.admin Cases.with_log_file)
    as (w' & Hrun & Hdb & Hcase); [apply list_elem_of_here|].
  exists w'. split; [exact Hrun|]. split; [exact Hdb|]. exact Hcase.
Defined.

Lemma users_handler_report_witness :
  ∃ w', users_handler admins Cases.admin Cases.counted = (Ok (), w') ∧
    redis w' = redis Cases.counted ∧
    log w' = [] ∧
    issued Cases.counted w' =
      [RedisCall (KEYS "user:*:email_config");
       RedisCall (GET (stat "users_active"));
       RedisCall (GET (stat "emails_sent"));
       ChatRespond 7
         ("📊 Bot Statistics:" +:+ nl +:+ nl +:+
          "• Total Users: 0" +:+ nl +:+
          "• Emails Sent: b'17'" +:+ nl +:+
          "• Active Today: 0")].
Proof.
  apply (users_handler_report admins Cases.admin Cases.counted None (Some 17)).
  - apply list_elem_of_here.
  - apply reliable_with_redis, reliable_quiet.
  - vm_compute. reflexivity.
  - vm_compute. reflexivity.
Defined.

(** ** Drafts *)

Lemma save_temp_data_unfold user_id data w :
  save_temp_data user_id data w =
  if decide (data = ∅)
  then (Raise (DataError "'hset' with no key value pairs"), w)
  else
    let w1 := entered (HSET (temp_data_key user_id) data) w in
    if faulty w then (Raise ConnectionError, w1)
    else match redis w !! temp_data_key user_id with
         | None =>
           (Ok (), with_redis (<[temp_data_key user_id := RHash data]> (redis w)) w1)
         | Some (RHash h) =>
           (Ok (), with_redis
                     (<[temp_data_key user_id := RHash (data ∪ h)]> (redis w)) w1)
         | Some (RString _) => (Raise Redis.wrongtype, w1)
         end.
Proof.
  unfold save_temp_data. destruct (decide (data = ∅)) as [->|Hne].
  - reflexivity.
  - by rewrite hset_unfold.
Qed.

Lemma save_temp_data_db user_id data w :
  redis (snd (save_temp_data user_id data w)) = redis w ∨
  ∃ v, redis (snd (save_temp_data user_id data w)) =
       <[temp_data_key user_id := v]> (redis w).
Proof.
  rewrite save_temp_data_unfold. destruct (decide _); [by left|]. cbv zeta.
  destruct (faulty w); [by left|].
  destruct (redis w !! temp_data_key user_id) as [[s|h]|];
    [by left|right; by eexists..].
Qed.

Lemma delete_temp_data_db user_id w :
  redis (snd (delete_temp_data user_id w)) = redis w ∨
  redis (snd (delete_temp_data user_id w)) = delete (temp_data_key user_id) (redis w).
Proof.
  unfold delete_temp_data. rewrite delete_unfold.
  destruct (faulty w); [by left|by right].
Qed.

(** X23.  On a reliable connection, [get_temp_data] after
    [save_temp_data] returns the saved fields merged over the draft that was
    there (saved fields win); after [delete_temp_data] it returns the empty
    dict and no draft is left. *)
Theorem temp_data_round_trip user_id data w :
  reliable w →
  data ≠ ∅ →
  (∀ s, redis w !! temp_data_key user_id ≠ Some (RString s)) →
  ∃ w1 w2,
    (save_temp_data user_id data;; get_temp_data user_id) w
      = (Ok (data ∪ default ∅ (draft user_id w)), w1) ∧
    (delete_temp_data user_id;; get_temp_data user_id) w1 = (Ok ∅, w2) ∧
    draft user_id w2 = None.
Proof.
  intros Hrel Hne Hstr.
  rewrite bind_unfold, save_temp_data_unfold, decide_False by done. cbv zeta.
  rewrite (reliable_faulty _ Hrel).
  set (w0 := entered (HSET _ _) w).
  assert (Hrel0 : reliable w0) by (subst w0; auto with world).
  assert (Hsaved : ∃ w',
    reliable w' ∧
    match redis w !! temp_data_key user_id with
    | Some (RString _) => (Raise Redis.wrongtype, w0)
    | Some (RHash h) =>
      (Ok (), with_redis (<[temp_data_key user_id := RHash (data ∪ h)]> (redis w)) w0)
    | None =>
      (Ok (), with_redis (<[temp_data_key user_id := RHash data]> (redis w)) w0)
    end = (Ok (), w') ∧
    redis w' !! temp_data_key user_id =
      Some (RHash (data ∪ default ∅ (draft user_id w)))).
  { unfold draft.
    destruct (redis w !! temp_data_key user_id) as [[s|h]|] eqn:Hk.
    - by destruct (Hstr s).
    - eexists. split; [|split; [reflexivity|]]; [auto with world|].
      simpl. by rewrite lookup_insert_eq.
    - eexists. split; [|split; [reflexivity|]]; [auto with world|].
      simpl. by rewrite lookup_insert_eq, (right_id_L ∅ (∪)). }
  destruct Hsaved as (w' & Hrel' & -> & Hk').
  unfold get_temp_data at 1.
  rewrite hgetall_unfold, (reliable_faulty _ Hrel'), Hk'.
  eexists _, _. split; [reflexivity|].
  rewrite bind_unfold. unfold delete_temp_data. rewrite delete_unfold.
  rewrite reliable_faulty by auto with world.
  unfold get_temp_data. rewrite hgetall_unfold.
  rewrite reliable_faulty by auto with world.
  simpl. rewrite lookup_delete_eq. split; [reflexivity|].
  unfold draft. simpl. by rewrite lookup_delete_eq.
Qed.

(** X24.  [save_temp_data] with an empty dict raises DataError
    before Redis is reached.  [save_temp_data] and [delete_temp_data] for a
    user change no key but that user's draft: the drafts of other users, all
    user records and the stored key are as before. *)
Theorem temp_data_footprint user_id data w :
  let saved := snd (save_temp_data user_id data w) in
  let deleted := snd (delete_temp_data user_id w) in
  save_temp_data user_id ∅ w = (Raise (DataError "'hset' with no key value pairs"), w) ∧
  (∀ key, key ≠ temp_data_key user_id →
     redis saved !! key = redis w !! key ∧ redis deleted !! key = redis w !! key) ∧
  (∀ other, other ≠ user_id →
     draft other saved = draft other w ∧ draft other deleted = draft other w) ∧
  (∀ u, redis saved !! user_key u = redis w !! user_key u ∧
        redis deleted !! user_key u = redis w !! user_key u) ∧
  redis saved !! "fernet_key" = redis w !! "fernet_key" ∧
  redis deleted !! "fernet_key" = redis w !! "fernet_key".
Proof.
  cbv zeta.
  assert (Hkey : ∀ key, key ≠ temp_data_key user_id →
    redis (snd (save_temp_data user_id data w)) !! key = redis w !! key ∧
    redis (snd (delete_temp_data user_id w)) !! key = redis w !! key).
  { intros key Hne. split.
    - destruct (save_temp_data_db user_id data w) as [H|[v H]]; rewrite H; [done|].
      by rewrite lookup_insert_ne.
    - destruct (delete_temp_data_db user_id w) as [H|H]; rewrite H; [done|].
      by rewrite lookup_delete_ne. }
  split; [reflexivity|].
  split; [exact Hkey|].
  split.
  { intros other Hne. unfold draft.
    destruct (Hkey (temp_data_key other)) as [-> ->]; [|done].
    intros H. by apply temp_data_key_inj in H. }
  split; [intros u; by apply Hkey|].
  by apply Hkey.
Qed.

(** ** User records *)

Global Instance keeps_users_preorder : PreOrder keeps_users.
Proof.
  split.
  - by intros w.
  - intros w1 w2 w3 [H12 C12] [H23 C23]. split; [|congruence].
    intros u. by rewrite H23.
Qed.

Lemma keeps_users_same w w' : redis w' = redis w → keeps_users w w'.
Proof. intros H. unfold keeps_users. by rewrite H. Qed.

Lemma glob_not_user_key key u :
  Redis.glob "user:*:email_config" key = false → key ≠ user_key u.
Proof. intros H ->. by rewrite glob_user_key_any in H. Qed.

Lemma keeps_users_insert w w' key v :
  Redis.glob "user:*:email_config" key = false →
  redis w' = <[key := v]> (redis w) → keeps_users w w'.
Proof.
  intros Hg H. split.
  - intros u. rewrite H, lookup_insert_ne; [done|]. by apply glob_not_user_key.
  - rewrite H. by apply count_users_insert_other.
Qed.

Lemma keeps_users_delete w w' key :
  Redis.glob "user:*:email_config" key = false →
  redis w' = delete key (redis w) → keeps_users w w'.
Proof.
  intros Hg H. split.
  - intros u. rewrite H, lookup_delete_ne; [done|]. by apply glob_not_user_key.
  - rewrite H. by apply count_users_delete.
Qed.

Lemma observes_keeps_users P w w' : observes P w w' → keeps_users w w'.
Proof. intros [H _]. by apply keeps_users_same. Qed.

Section NoWriter.
Context {L : FernetLib}.
Variable cipher_suite : fernet.
Variable ADMIN_IDS : list Z.

Lemma encrypt_data_frame data w :
  let w' := with_drawn (S (drawn w)) w in
  encrypt_data cipher_suite data w =
    (match Py.decode (encrypt cipher_suite (fit 16 (urandom w (drawn w)))
                        (Py.encode data)) with
     | Some tok => Ok tok
     | None => Raise UnicodeDecodeError
     end, w').
Proof.
  cbv zeta. unfold encrypt_data, try_except_of. rewrite bind_unfold.
  unfold os_urandom, decode_bytes.
  by destruct (Py.decode _).
Qed.

(** X25.  No function of [main.py] writes a user record: after
    [setup_encryption], [encrypt_data], [decrypt_data], [get_user_config],
    the three draft helpers, [track_stat], [send_email], [logs_handler] and
    [users_handler], every user record and the number of user records are
    as before. *)
Theorem no_function_writes_user_records :
  preserves keeps_users setup_encryption ∧
  (∀ data, preserves keeps_users (encrypt_data cipher_suite data)) ∧
  (∀ tok, preserves keeps_users (decrypt_data cipher_suite tok)) ∧
  (∀ u, preserves keeps_users (get_user_config cipher_suite u)) ∧
  (∀ u data, preserves keeps_users (save_temp_data u data)) ∧
  (∀ u, preserves keeps_users (get_temp_data u)) ∧
  (∀ u, preserves keeps_users (delete_temp_data u)) ∧
  (∀ metric, preserves keeps_users (track_stat metric)) ∧
  (∀ u to subject body attachments,
     preserves keeps_users (send_email cipher_suite u to subject body attachments)) ∧
  (∀ ev, preserves keeps_users (logs_handler ADMIN_IDS ev)) ∧
  (∀ ev, preserves keeps_users (users_handler ADMIN_IDS ev)).
Proof.
  repeat apply conj.
  - intros w. destruct (setup_encryption_db w) as [H|[v H]].
    + by apply keeps_users_same.
    + by apply (keeps_users_insert _ _ "fernet_key" (RString v)).
  - intros data w. rewrite encrypt_data_frame. by apply keeps_users_same.
  - intros tok w. apply keeps_users_same, log_only_redis, preserves_decrypt_data.
  - intros u w.
    destruct (get_user_config_source cipher_suite u w) as (r & w' & Hrun & Hlog & _).
    rewrite Hrun. apply keeps_users_same. by rewrite Hlog.
  - intros u data w. destruct (save_temp_data_db u data w) as [H|[v H]].
    + by apply keeps_users_same.
    + by apply (keeps_users_insert _ _ (temp_data_key u) v).
  - intros u w. unfold get_temp_data. rewrite hgetall_unfold.
    by apply keeps_users_same.
  - intros u w. destruct (delete_temp_data_db u w) as [H|H].
    + by apply keeps_users_same.
    + by apply (keeps_users_delete _ _ (temp_data_key u)).
  - intros metric w. destruct (track_stat_db metric w) as [H|[v H]].
    + by apply keeps_users_same.
    + by apply (keeps_users_insert _ _ (stat metric) (RString v)).
  - intros u to subject body attachments w.
    destruct (send_email_db cipher_suite u to subject body attachments w)
      as [H|[v H]].
    + by apply keeps_users_same.
    + by apply (keeps_users_insert _ _ (stat "emails_sent") (RString v)).
  - intros ev w. eapply observes_keeps_users, preserves_logs_handler.
  - intros ev w. eapply observes_keeps_users, preserves_users_handler.
Qed.

(** X26.  [encrypt_data] never logs: its handler for InvalidToken is
    never entered.  It draws one nonce, touches neither Redis nor the trace,
    and returns the token (or raises UnicodeDecodeError if the library
    returned a token that is not text). *)
Theorem encrypt_data_never_logs data w :
  let '(r, w') := encrypt_data cipher_suite data w in
  log w' = log w ∧ redis w' = redis w ∧ trace w' = trace w ∧
  drawn w' = S (drawn w) ∧
  (r = Raise UnicodeDecodeError ∨
   r = Ok (encrypt cipher_suite (fit 16 (urandom w (drawn w))) (Py.encode data))).
Proof.
  rewrite encrypt_data_frame. cbv zeta. repeat split.
  unfold Py.decode. destruct (Py.utf8_valid _); auto.
Qed.

(** X27.  [decrypt_data] touches nothing but the log.  A token that the
    library refuses, as it does for a key with another signing half, raises
    InvalidToken after one ERROR record 'Decryption error: ' with an empty
    detail.  A token that opens to bytes that are not UTF-8 raises
    UnicodeDecodeError, which [decrypt_data] does not log; otherwise the
    text is returned and nothing is logged. *)
Theorem decrypt_data_outcomes tok w :
  let '(r, w') := decrypt_data cipher_suite tok w in
  redis w' = redis w ∧ trace w' = trace w ∧ drawn w' = drawn w ∧
  match decrypt cipher_suite tok with
  | None =>
    r = Raise InvalidToken ∧
    log w' = log w ++ [(ERROR, "Decryption error: ")]
  | Some data =>
    r = (if Py.utf8_valid data then Ok data else Raise UnicodeDecodeError) ∧
    log w' = log w
  end.
Proof.
  rewrite decrypt_data_unfold.
  by destruct (decrypt cipher_suite tok) as [data|].
Qed.

End NoWriter.


Lemma temp_data_round_trip_witness :
  ∃ w1 w2,
    (save_temp_data 42 (<["step" := "smtp_server"]> ∅);; get_temp_data 42) quiet
      = (Ok (<["step" := "smtp_server"]> ∅ ∪ default ∅ (draft 42 quiet)), w1) ∧
    (delete_temp_data 42;; get_temp_data 42) w1 = (Ok ∅, w2) ∧
    draft 42 w2 = None.
Proof.
  apply (temp_data_round_trip 42 (<["step" := "smtp_server"]> ∅) quiet).
  - exact reliable_quiet.
  - apply insert_non_empty.
  - intros s. simpl. rewrite lookup_empty. discriminate.
Defined.
